(** * Upload aggregation, persisted package, artifact URLs and task polling

    A shallow embedding of the front-end's stateful logic:

    - [Upload] (pages/Upload.jsx, the variant that persists the package),
    - [CodeViewer] (pages/CodeViewer.jsx),
    - [Outputs.downloadFile] (pages/Outputs.jsx, the download variant),
    - [StatusPanel] (components/StatusPanel.jsx of the snippet collection).

    React state is threaded explicitly; browser services the code calls
    (localStorage, alert, URL.createObjectURL, timers, the network) are
    fields of an explicit environment. *)

From Stdlib Require Import List ZArith NArith Bool Lia String Ascii DecimalString.
Import ListNotations.
Open Scope list_scope.
Set Warnings "-register-all".

(* ================================================================== *)
(** ** JavaScript strings *)

(** A JavaScript string is a sequence of UTF-16 code units. *)
Definition jsstring := list N.

(** ASCII literals, for readable examples. *)
Definition js (s : string) : jsstring :=
  map N_of_ascii (list_ascii_of_string s).

Definition jsstring_eqb (a b : jsstring) : bool :=
  if list_eq_dec N.eq_dec a b then true else false.

Lemma jsstring_eqb_eq a b : jsstring_eqb a b = true <-> a = b.
Proof.
  unfold jsstring_eqb. destruct (list_eq_dec N.eq_dec a b); split; congruence.
Qed.

Lemma jsstring_eqb_refl a : jsstring_eqb a a = true.
Proof. apply jsstring_eqb_eq. reflexivity. Qed.

Lemma jsstring_eqb_neq a b : a <> b -> jsstring_eqb a b = false.
Proof.
  intros H. unfold jsstring_eqb. destruct (list_eq_dec N.eq_dec a b); congruence.
Qed.

(** ECMAScript WhiteSpace and LineTerminator code points: what
    [String.prototype.trim] strips. *)
Definition is_js_whitespace (c : N) : bool :=
  ((9 <=? c) && (c <=? 13)           (* TAB, LF, VT, FF, CR *)
   || (c =? 32)                      (* SPACE *)
   || (c =? 160)                     (* NO-BREAK SPACE *)
   || (c =? 5760)                    (* U+1680 *)
   || ((8192 <=? c) && (c <=? 8202)) (* U+2000 .. U+200A *)
   || (c =? 8232) || (c =? 8233)     (* LINE / PARAGRAPH SEPARATOR *)
   || (c =? 8239)                    (* U+202F *)
   || (c =? 8287)                    (* U+205F *)
   || (c =? 12288)                   (* U+3000 *)
   || (c =? 65279))%N.               (* U+FEFF *)

Fixpoint trim_start (s : jsstring) : jsstring :=
  match s with
  | c :: r => if is_js_whitespace c then trim_start r else s
  | [] => []
  end.

(** [s.trim()] *)
Definition trim (s : jsstring) : jsstring :=
  rev (trim_start (rev (trim_start s))).

(** Truthiness of a string: the empty string is the only falsy one. *)
Definition str_truthy (s : jsstring) : bool :=
  match s with [] => false | _ => true end.

(** [!s.trim()] *)
Definition blank (s : jsstring) : bool := negb (str_truthy (trim s)).

(* ================================================================== *)
(** ** Plain objects as ordered property lists *)

(** Own enumerable string-keyed properties, kept in the order
    [OwnPropertyKeys] reports them: array-index keys ascending, then
    the other keys in creation order. *)
Definition obj (V : Type) := list (jsstring * V).

Definition is_digit (c : N) : bool := ((48 <=? c) && (c <=? 57))%N.

Fixpoint digits_value (acc : N) (s : jsstring) : N :=
  match s with
  | [] => acc
  | c :: r => digits_value (10 * acc + (c - 48)) r
  end.

(** A key is an array index when it is the canonical decimal form of an
    integer in [0, 2^32 - 2]. *)
Definition array_index (k : jsstring) : option N :=
  match k with
  | [] => None
  | c :: r =>
      if forallb is_digit k
         && (negb (c =? 48)%N || match r with [] => true | _ => false end)
         && (List.length k <=? 10)%nat
      then let v := digits_value 0 k in
           if (v <=? 4294967294)%N then Some v else None
      else None
  end.

Section Objects.
Context {V : Type}.

(** [o[k]] restricted to own properties; [None] is [undefined]. *)
Fixpoint obj_get (k : jsstring) (o : obj V) : option V :=
  match o with
  | [] => None
  | (k', v) :: r => if jsstring_eqb k k' then Some v else obj_get k r
  end.

Definition obj_has (k : jsstring) (o : obj V) : bool :=
  match obj_get k o with Some _ => true | None => false end.

Fixpoint obj_replace (k : jsstring) (v : V) (o : obj V) : obj V :=
  match o with
  | [] => []
  | (k', v') :: r =>
      if jsstring_eqb k k' then (k', v) :: r
      else (k', v') :: obj_replace k v r
  end.

(** Insertion of a fresh array-index key [i]: before the first
    property that is not an array index or is a larger one. *)
Fixpoint obj_insert_index (i : N) (k : jsstring) (v : V) (o : obj V)
  : obj V :=
  match o with
  | [] => [(k, v)]
  | (k', v') :: r =>
      match array_index k' with
      | Some j => if (j <? i)%N
                  then (k', v') :: obj_insert_index i k v r
                  else (k, v) :: o
      | None => (k, v) :: o
      end
  end.

(** Defining property [k]: an existing property keeps its place, a
    new one is created at the place its kind of key dictates. *)
Definition obj_set (k : jsstring) (v : V) (o : obj V) : obj V :=
  if obj_has k o then obj_replace k v o
  else match array_index k with
       | Some i => obj_insert_index i k v o
       | None => o ++ [(k, v)]
       end.

Definition obj_keys (o : obj V) : list jsstring := map fst o.
End Objects.

(* ================================================================== *)
(** ** Files and the JSON text of a package *)

(** A user-selected [File]: its metadata and an opaque payload
    identity.  None of these is an own enumerable property of the
    JavaScript object. *)
Record File := mkFile {
  file_name : jsstring;
  file_size : N;
  file_payload : N
}.

Definition hex_digit (d : N) : N :=
  (if d <? 10 then 48 + d else 87 + d)%N.

(** [\uXXXX] with lowercase hexadecimal digits. *)
Definition unicode_escape (c : N) : jsstring :=
  [92; 117;
   hex_digit ((c / 4096) mod 16); hex_digit ((c / 256) mod 16);
   hex_digit ((c / 16) mod 16); hex_digit (c mod 16)]%N.

Definition is_high_surrogate (c : N) : bool :=
  ((55296 <=? c) && (c <=? 56319))%N.
Definition is_low_surrogate (c : N) : bool :=
  ((56320 <=? c) && (c <=? 57343))%N.

(** The body of [QuoteJSONString]: short escapes, [\u00XX] for the
    other control characters and for lone surrogates. *)
Fixpoint quote_units (s : jsstring) : jsstring :=
  match s with
  | [] => []
  | c :: r =>
      if is_high_surrogate c then
        match r with
        | d :: r' =>
            if is_low_surrogate d then c :: d :: quote_units r'
            else unicode_escape c ++ quote_units r
        | [] => unicode_escape c
        end
      else if is_low_surrogate c then unicode_escape c ++ quote_units r
      else if (c =? 8)%N then js "\b" ++ quote_units r
      else if (c =? 9)%N then js "\t" ++ quote_units r
      else if (c =? 10)%N then js "\n" ++ quote_units r
      else if (c =? 12)%N then js "\f" ++ quote_units r
      else if (c =? 13)%N then js "\r" ++ quote_units r
      else if (c =? 34)%N then [92; 34]%N ++ quote_units r
      else if (c =? 92)%N then [92; 92]%N ++ quote_units r
      else if (c <? 32)%N then unicode_escape c ++ quote_units r
      else c :: quote_units r
  end.

Definition json_quote (s : jsstring) : jsstring :=
  [34%N] ++ quote_units s ++ [34%N].

Fixpoint join (sep : jsstring) (l : list jsstring) : jsstring :=
  match l with
  | [] => []
  | [x] => x
  | x :: r => x ++ sep ++ join sep r
  end.

(** A [File] has no own enumerable property and no [toJSON]: it is
    serialized as the empty object. *)
Definition json_of_file (f : File) : jsstring := js "{}".

Definition json_of_files (fs : list File) : jsstring :=
  js "[" ++ join (js ",") (map json_of_file fs) ++ js "]".

Definition json_of_object {V} (val : V -> jsstring) (o : obj V) : jsstring :=
  js "{" ++
  join (js ",") (map (fun kv => json_quote (fst kv) ++ js ":" ++ val (snd kv)) o)
  ++ js "}".

(** The literal [{ topModule, subModules: subModuleNames, uploads }]. *)
Record UploadPackage := mkPackage {
  pk_topModule : jsstring;
  pk_subModules : list jsstring;
  pk_uploads : obj (obj (list File))
}.

(** [JSON.stringify(uploadPackage)] *)
Definition JSON_stringify (p : UploadPackage) : jsstring :=
  js "{" ++
  json_quote (js "topModule") ++ js ":" ++ json_quote (pk_topModule p) ++ js "," ++
  json_quote (js "subModules") ++ js ":" ++
    (js "[" ++ join (js ",") (map json_quote (pk_subModules p)) ++ js "]") ++ js "," ++
  json_quote (js "uploads") ++ js ":" ++
    json_of_object (json_of_object json_of_files) (pk_uploads p) ++
  js "}".

(* ================================================================== *)
(** ** The browser services the pages use *)

(** [localStorage]: string keys to string values. *)
Definition Storage := jsstring -> option jsstring.

Definition getItem (k : jsstring) (st : Storage) : option jsstring := st k.

Definition setItem (k v : jsstring) (st : Storage) : Storage :=
  fun k' => if jsstring_eqb k' k then Some v else st k'.

Definition empty_storage : Storage := fun _ => None.

(** The services of the upload page and the viewer.  The store is
    taken to have room: [setItem] does not fail. *)
Record Env := mkEnv {
  localStorage : Storage;
  alerts : list jsstring;                 (* [alert] calls, oldest first *)
  timeouts : list (N * jsstring)          (* pending [navigate] timeouts *)
}.

Definition alert (msg : jsstring) (e : Env) : Env :=
  mkEnv (localStorage e) (alerts e ++ [msg]) (timeouts e).

(* ================================================================== *)
(** ** pages/Upload.jsx *)

Module Upload.

Record State := mkState {
  topModule : jsstring;
  numSubModules : Z;
  subModuleNames : list jsstring;
  uploads : obj (obj (list File));
  submitStatus : jsstring
}.

(** The [useState] initial values. *)
Definition initial : State := mkState [] 1 [[]] [] [].

(** [setTopModule(e.target.value)] *)
Definition setTopModule (v : jsstring) (s : State) : State :=
  mkState v (numSubModules s) (subModuleNames s) (uploads s) (submitStatus s).

Fixpoint set_nth (idx : nat) (v : jsstring) (l : list jsstring)
  : list jsstring :=
  match l, idx with
  | [], _ => []
  | _ :: r, O => v :: r
  | x :: r, S i => x :: set_nth i v r
  end.

(** [newNames[idx] = value] on a copy of the names.  The handler is
    bound to the input rendered for position [idx] of the current names,
    so [idx] is in range whenever it runs (see [step]); out of range,
    where JavaScript would extend the array, the names are left as they
    are. *)
Definition handleSubModuleNameChange (idx : nat) (value : jsstring)
  (s : State) : State :=
  mkState (topModule s) (numSubModules s)
          (set_nth idx value (subModuleNames s)) (uploads s) (submitStatus s).

(** [{...prev, [module]: {...(prev[module] || {}), [category]: files}}] *)
Definition handleUpload (module category : jsstring) (files : list File)
  (s : State) : State :=
  let inner := match obj_get module (uploads s) with
               | Some o => o
               | None => []
               end in
  mkState (topModule s) (numSubModules s) (subModuleNames s)
          (obj_set module (obj_set category files inner) (uploads s))
          (submitStatus s).

(** What [handleSubmit] is seen to do. *)
Inductive Outcome :=
| Rejected (msg : jsstring)
| Finalized (p : UploadPackage).

Definition handleSubmit (s : State) (e : Env) : Outcome * State * Env :=
  if blank (topModule s) then
    (Rejected (js "Enter top module name"), s,
     alert (js "Enter top module name") e)
  else if existsb blank (subModuleNames s) then
    (Rejected (js "Enter all sub-module names"), s,
     alert (js "Enter all sub-module names") e)
  else
    let uploadPackage :=
      mkPackage (topModule s) (subModuleNames s) (uploads s) in
    (Finalized uploadPackage,
     mkState (topModule s) (numSubModules s) (subModuleNames s) (uploads s)
             (js "Submitted successfully! Redirecting..."),
     mkEnv (setItem (js "uploadData") (JSON_stringify uploadPackage)
                    (localStorage e))
           (alerts e)
           (timeouts e ++ [(1000%N, js "/codeview")])).

(** [while (newArr.length < count) newArr.push('');
     while (newArr.length > count) newArr.pop();] *)
Definition resize (count : nat) (l : list jsstring) : list jsstring :=
  firstn count l ++ repeat [] (count - List.length l).

(** [parsed] is [parseInt(e.target.value)], [None] standing for NaN;
    [count = Math.max(1, parsed || 1)]. *)
Definition handleNumSubModulesChange (parsed : option Z) (s : State) : State :=
  let count := Z.max 1 (match parsed with
                        | Some z => if (z =? 0)%Z then 1 else z
                        | None => 1
                        end)%Z in
  mkState (topModule s) count
          (resize (Z.to_nat count) (subModuleNames s))
          (uploads s) (submitStatus s).

(** The category keys the page's [FileUpload] elements pass. *)
Inductive TopCategory := Spec | Tb | Func | Arch | Protocol | Uvm | Fv | Sva.

Definition top_category_key (c : TopCategory) : jsstring :=
  match c with
  | Spec => js "spec" | Tb => js "tb" | Func => js "func" | Arch => js "arch"
  | Protocol => js "protocol" | Uvm => js "uvm" | Fv => js "fv"
  | Sva => js "sva"
  end.

(** What the user can do with the rendered page. *)
Inductive event :=
| TypeTopModule (v : jsstring)
| TypeSubModuleName (idx : nat) (v : jsstring)
| ChangeNumSubModules (parsed : option Z)
| SelectTopFiles (c : TopCategory) (files : list File)
| SelectSubFiles (idx : nat) (files : list File)
| ClickSubmit.

(** One event on the page as last rendered from [s]: the upload
    handlers close over the names shown at that moment. *)
Definition step (ev : event) (se : State * Env) : State * Env :=
  let (s, e) := se in
  match ev with
  | TypeTopModule v => (setTopModule v s, e)
  | TypeSubModuleName idx v =>
      if (idx <? List.length (subModuleNames s))%nat
      then (handleSubModuleNameChange idx v s, e)
      else (s, e)
  | ChangeNumSubModules parsed => (handleNumSubModulesChange parsed s, e)
  | SelectTopFiles c files =>
      (handleUpload (topModule s) (top_category_key c) files s, e)
  | SelectSubFiles idx files =>
      match nth_error (subModuleNames s) idx with
      | Some name => (handleUpload name (js "communication") files s, e)
      | None => (s, e)
      end
  | ClickSubmit =>
      match handleSubmit s e with (_, s', e') => (s', e') end
  end.

Definition run (tr : list event) (se : State * Env) : State * Env :=
  fold_left (fun acc ev => step ev acc) tr se.

(** [k] is the top-module name or one of the sub-module names of [s]. *)
Definition names (k : jsstring) (s : State) : Prop :=
  k = topModule s \/ In k (subModuleNames s).

(** The module name under which an event records files, if it records
    any, on the page rendered from [s]. *)
Definition upload_target (ev : event) (s : State) : option jsstring :=
  match ev with
  | SelectTopFiles _ _ => Some (topModule s)
  | SelectSubFiles idx _ => nth_error (subModuleNames s) idx
  | _ => None
  end.

End Upload.

(* ================================================================== *)
(** ** JavaScript values *)

(** The values the viewer and the status panel handle.  A number is
    kept as the decimal [m * 10^e] it was written as; the code only
    ever observes whether it is zero.  [JBuiltin] stands for a built-in
    function or prototype object met through the prototype chain: it is
    truthy and has no own enumerable property. *)
Inductive jsval :=
| JUndefined
| JNull
| JBool (b : bool)
| JNum (m e : Z)
| JStr (s : jsstring)
| JArr (l : list jsval)
| JObj (props : obj jsval)
| JFile (f : File)
| JBuiltin.

(** The decimal [m * 10^e] denotes the double zero when it is zero or
    at most [2^-1075] in magnitude. *)
Definition num_is_zero (m e : Z) : bool :=
  ((m =? 0) || ((e <? 0) && (Z.abs m * 2 ^ 1075 <=? 10 ^ (- e))))%Z.

(** ToBoolean *)
Definition truthy (v : jsval) : bool :=
  match v with
  | JUndefined | JNull => false
  | JBool b => b
  | JNum m e => negb (num_is_zero m e)
  | JStr s => str_truthy s
  | JArr _ | JObj _ | JFile _ | JBuiltin => true
  end.

Inductive JsError := SyntaxError | TypeError.

(** How an evaluation ends.  [Unmodelled] marks behaviour of the
    JavaScript or React runtime outside the fragment embedded here. *)
Inductive completion (A : Type) :=
| Normal (a : A)
| Throw (err : JsError)
| Unmodelled.
Arguments Normal {A} a.
Arguments Throw {A} err.
Arguments Unmodelled {A}.

Definition bind {A B} (c : completion A) (k : A -> completion B)
  : completion B :=
  match c with
  | Normal a => k a
  | Throw err => Throw err
  | Unmodelled => Unmodelled
  end.

Notation "x <- c ;; k" := (bind c (fun x => k))
  (at level 61, c at next level, right associativity).

(** *** Property access and the built-ins the pages call *)

(** Members every plain object inherits from [Object.prototype]. *)
Definition object_prototype_members : list jsstring :=
  map js ["constructor"; "__defineGetter__"; "__defineSetter__";
          "hasOwnProperty"; "__lookupGetter__"; "__lookupSetter__";
          "isPrototypeOf"; "propertyIsEnumerable"; "toString"; "valueOf";
          "__proto__"; "toLocaleString"]%string.

(** [v.name] for the property names the pages use ([uploads],
    [topModule], [subModules], [communication], [name], [status],
    [progress], [logs]): none is defined by a prototype, except [name]
    by [File.prototype] and by functions. *)
Definition get_static (v : jsval) (name : jsstring) : completion jsval :=
  match v with
  | JUndefined | JNull => Throw TypeError
  | JObj ps => match obj_get name ps with
               | Some x => Normal x
               | None => Normal JUndefined
               end
  | JFile f => if jsstring_eqb name (js "name") then Normal (JStr (file_name f))
               else Normal JUndefined
  | JBuiltin => if jsstring_eqb name (js "name") then Unmodelled
                else Normal JUndefined
  | JBool _ | JNum _ _ | JStr _ | JArr _ => Normal JUndefined
  end.

(** [o[k]] with a computed key. *)
Definition get_computed (o k : jsval) : completion jsval :=
  match o with
  | JUndefined | JNull => Throw TypeError
  | JObj ps =>
      match k with
      | JStr key =>
          match obj_get key ps with
          | Some x => Normal x
          | None => if existsb (jsstring_eqb key) object_prototype_members
                    then Normal JBuiltin
                    else Normal JUndefined
          end
      | _ => Unmodelled
      end
  | _ => Unmodelled
  end.

Definition decimal (n : nat) : jsstring :=
  js (NilEmpty.string_of_uint (Nat.to_uint n)).

Fixpoint indexed {A} (i : nat) (l : list A) : list (jsstring * A) :=
  match l with
  | [] => []
  | x :: r => (decimal i, x) :: indexed (S i) r
  end.

(** [Object.entries(v)] *)
Definition Object_entries (v : jsval) : completion (list (jsstring * jsval)) :=
  match v with
  | JUndefined | JNull => Throw TypeError
  | JObj ps => Normal ps
  | JArr l => Normal (indexed 0 l)
  | JStr s => Normal (indexed 0 (map (fun c => JStr [c]) s))
  | JBool _ | JNum _ _ | JFile _ | JBuiltin => Normal []
  end.

(** [Object.values(v)] *)
Definition Object_values (v : jsval) : completion (list jsval) :=
  es <- Object_entries v ;; Normal (map snd es).

(** The string iterator: one element per code point. *)
Fixpoint code_points (s : jsstring) : list jsval :=
  match s with
  | [] => []
  | c :: r =>
      match r with
      | d :: r' =>
          if is_high_surrogate c && is_low_surrogate d
          then JStr [c; d] :: code_points r'
          else JStr [c] :: code_points r
      | [] => [JStr [c]]
      end
  end.

(** [Array.from(v)] *)
Definition Array_from (v : jsval) : completion (list jsval) :=
  match v with
  | JUndefined | JNull => Throw TypeError
  | JArr l => Normal l
  | JStr s => Normal (code_points s)
  | JObj ps => if obj_has (js "length") ps then Unmodelled else Normal []
  | JBool _ | JNum _ _ | JFile _ => Normal []
  | JBuiltin => Unmodelled
  end.

(* ================================================================== *)
(** ** JSON.parse *)

Module Json.

Definition is_ws (c : N) : bool :=
  ((c =? 32) || (c =? 9) || (c =? 10) || (c =? 13))%N.

Fixpoint skip_ws (s : jsstring) : jsstring :=
  match s with
  | c :: r => if is_ws c then skip_ws r else s
  | [] => []
  end.

Definition hex_value (c : N) : option N :=
  if is_digit c then Some (c - 48)%N
  else if ((97 <=? c) && (c <=? 102))%N then Some (c - 87)%N
  else if ((65 <=? c) && (c <=? 70))%N then Some (c - 55)%N
  else None.

Definition hex4 (a b c d : N) : option N :=
  match hex_value a, hex_value b, hex_value c, hex_value d with
  | Some x, Some y, Some z, Some w => Some (4096 * x + 256 * y + 16 * z + w)%N
  | _, _, _, _ => None
  end.

Definition unescape (c : N) : option N :=
  if (c =? 34)%N then Some 34%N            (* quotation mark *)
  else if (c =? 92)%N then Some 92%N       (* reverse solidus *)
  else if (c =? 47)%N then Some 47%N       (* solidus *)
  else if (c =? 98)%N then Some 8%N        (* b: backspace *)
  else if (c =? 102)%N then Some 12%N      (* f: form feed *)
  else if (c =? 110)%N then Some 10%N      (* n: line feed *)
  else if (c =? 114)%N then Some 13%N      (* r: carriage return *)
  else if (c =? 116)%N then Some 9%N       (* t: tab *)
  else None.

(** The characters of a string literal after its opening quote, up to
    and including the closing one. *)
Fixpoint string_body (s : jsstring) : option (jsstring * jsstring) :=
  match s with
  | [] => None
  | c :: r =>
      if (c =? 34)%N then Some ([], r)
      else if (c =? 92)%N then
        match r with
        | [] => None
        | x :: r1 =>
            if (x =? 117)%N then
              match r1 with
              | a :: b :: c' :: d :: r2 =>
                  match hex4 a b c' d, string_body r2 with
                  | Some u, Some (t, rest) => Some (u :: t, rest)
                  | _, _ => None
                  end
              | _ => None
              end
            else
              match unescape x, string_body r1 with
              | Some u, Some (t, rest) => Some (u :: t, rest)
              | _, _ => None
              end
        end
      else if (c <? 32)%N then None
      else match string_body r with
           | Some (t, rest) => Some (c :: t, rest)
           | None => None
           end
  end.

(** A maximal run of digits: its value, its length, what follows. *)
Fixpoint digits (acc : Z) (n : Z) (s : jsstring) : Z * Z * jsstring :=
  match s with
  | c :: r => if is_digit c then digits (10 * acc + Z.of_N (c - 48)) (n + 1) r
              else (acc, n, s)
  | [] => (acc, n, [])
  end.

(** A number literal: an optional minus sign; a zero, or a non-zero
    digit followed by digits; an optional fraction (a point and at
    least one digit); an optional exponent (e or E, an optional sign,
    at least one digit). *)
Definition number (s : jsstring) : option (jsval * jsstring) :=
  let (neg, s1) := match s with
                   | c :: r => if (c =? 45)%N then (true, r) else (false, s)
                   | [] => (false, s)
                   end in
  let int_part :=
    match s1 with
    | c :: r =>
        if (c =? 48)%N then Some (0%Z, r)
        else if is_digit c then
          match digits 0 0 s1 with (v, _, rest) => Some (v, rest) end
        else None
    | [] => None
    end in
  match int_part with
  | None => None
  | Some (i, s2) =>
      let frac :=
        match s2 with
        | c :: r =>
            if (c =? 46)%N then
              match digits i 0 r with
              | (v, n, rest) => if (n =? 0)%Z then None else Some (v, n, rest)
              end
            else Some (i, 0%Z, s2)
        | [] => Some (i, 0%Z, s2)
        end in
      match frac with
      | None => None
      | Some (m, nfrac, s3) =>
          let expo :=
            match s3 with
            | c :: r =>
                if ((c =? 101) || (c =? 69))%N then
                  let (eneg, r1) :=
                    match r with
                    | x :: r' => if (x =? 45)%N then (true, r')
                                 else if (x =? 43)%N then (false, r')
                                 else (false, r)
                    | [] => (false, r)
                    end in
                  match digits 0 0 r1 with
                  | (v, n, rest) =>
                      if (n =? 0)%Z then None
                      else Some ((if eneg then - v else v)%Z, rest)
                  end
                else Some (0%Z, s3)
            | [] => Some (0%Z, s3)
            end in
          match expo with
          | None => None
          | Some (ex, s4) =>
              Some (JNum (if neg then - m else m) (ex - nfrac), s4)
          end
      end
  end.

Fixpoint literal (w : jsstring) (s : jsstring) : option jsstring :=
  match w, s with
  | [], _ => Some s
  | a :: w', b :: s' => if (a =? b)%N then literal w' s' else None
  | _ :: _, [] => None
  end.

(** Recursive descent.  Between two calls that spend fuel at least one
    character is consumed, so fuel proportional to the length of the
    text is never exhausted on it. *)
Fixpoint value (fuel : nat) (s : jsstring) : option (jsval * jsstring) :=
  match fuel with
  | O => None
  | S fuel' =>
      match skip_ws s with
      | [] => None
      | c :: r =>
          if (c =? 34)%N then
            match string_body r with
            | Some (t, rest) => Some (JStr t, rest)
            | None => None
            end
          else if (c =? 123)%N then
            match skip_ws r with
            | [] => None
            | c1 :: r1 => if (c1 =? 125)%N then Some (JObj [], r1)
                          else members fuel' [] r
            end
          else if (c =? 91)%N then
            match skip_ws r with
            | [] => None
            | c1 :: r1 => if (c1 =? 93)%N then Some (JArr [], r1)
                          else elements fuel' [] r
            end
          else if (c =? 116)%N then
            option_map (pair (JBool true)) (literal (js "rue") r)
          else if (c =? 102)%N then
            option_map (pair (JBool false)) (literal (js "alse") r)
          else if (c =? 110)%N then
            option_map (pair JNull) (literal (js "ull") r)
          else number (c :: r)
      end
  end
with members (fuel : nat) (acc : obj jsval) (s : jsstring)
  : option (jsval * jsstring) :=
  match fuel with
  | O => None
  | S fuel' =>
      match skip_ws s with
      | [] => None
      | q :: r =>
          if (q =? 34)%N then
            match string_body r with
            | None => None
            | Some (k, r1) =>
                match skip_ws r1 with
                | [] => None
                | colon :: r2 =>
                    if (colon =? 58)%N then
                      match value fuel' r2 with
                      | None => None
                      | Some (v, r3) =>
                          let acc' := obj_set k v acc in
                          match skip_ws r3 with
                          | [] => None
                          | d :: r4 =>
                              if (d =? 44)%N then members fuel' acc' r4
                              else if (d =? 125)%N then Some (JObj acc', r4)
                              else None
                          end
                      end
                    else None
                end
            end
          else None
      end
  end
with elements (fuel : nat) (acc : list jsval) (s : jsstring)
  : option (jsval * jsstring) :=
  match fuel with
  | O => None
  | S fuel' =>
      match value fuel' s with
      | None => None
      | Some (v, r1) =>
          match skip_ws r1 with
          | [] => None
          | d :: r2 =>
              if (d =? 44)%N then elements fuel' (acc ++ [v]) r2
              else if (d =? 93)%N then Some (JArr (acc ++ [v]), r2)
              else None
          end
      end
  end.

(** [JSON.parse(text)]; [None] is the [SyntaxError] it throws. *)
Definition parse (text : jsstring) : option jsval :=
  match value (2 + 2 * List.length text) text with
  | Some (v, rest) =>
      match skip_ws rest with
      | [] => Some v
      | _ :: _ => None
      end
  | None => None
  end.

End Json.

(* ================================================================== *)
(** ** Object URLs and the document *)

(** What an object URL can be created for. *)
Inductive Blob :=
| FileBlob (f : File)
| TextBlob (content type : jsstring).

(** The window's blob-URL store, with a count of the calls made to
    [URL.createObjectURL] and [URL.revokeObjectURL], and the links
    clicked programmatically. *)
Record Window := mkWindow {
  next_url : N;
  live : list (N * Blob);
  creations : nat;
  revocations : nat;
  clicked : list (N * jsstring)
}.

Definition fresh_window : Window := mkWindow 0 [] 0 0 [].

(** Computations that use the window and may throw. *)
Definition M (A : Type) := Window -> completion A * Window.

Definition ret {A} (a : A) : M A := fun w => (Normal a, w).
Definition throw {A} (err : JsError) : M A := fun w => (Throw err, w).
Definition lift {A} (c : completion A) : M A := fun w => (c, w).

Definition bindM {A B} (m : M A) (k : A -> M B) : M B :=
  fun w => match m w with
           | (Normal a, w') => k a w'
           | (Throw err, w') => (Throw err, w')
           | (Unmodelled, w') => (Unmodelled, w')
           end.

Notation "x <~ m ;; k" := (bindM m (fun x => k))
  (at level 61, m at next level, right associativity).

Fixpoint mapM {A B} (f : A -> M B) (l : list A) : M (list B) :=
  match l with
  | [] => ret []
  | x :: r => y <~ f x ;; ys <~ mapM f r ;; ret (y :: ys)
  end.

(** [URL.createObjectURL(b)] for a blob [b]. *)
Definition createObjectURL (b : Blob) : M N :=
  fun w => (Normal (next_url w),
            mkWindow (next_url w + 1) (live w ++ [(next_url w, b)])
                     (S (creations w)) (revocations w) (clicked w)).

(** [URL.revokeObjectURL(url)]: unknown URLs are ignored. *)
Definition revokeObjectURL (url : N) : M unit :=
  fun w => (Normal tt,
            mkWindow (next_url w)
                     (filter (fun ub => negb (fst ub =? url)%N) (live w))
                     (creations w) (S (revocations w)) (clicked w)).

(** [link.click()] on an anchor with the given [href] and [download]. *)
Definition click_link (href : N) (download : jsstring) : M unit :=
  fun w => (Normal tt,
            mkWindow (next_url w) (live w) (creations w) (revocations w)
                     (clicked w ++ [(href, download)])).

(* ================================================================== *)
(** ** pages/Outputs.jsx: [downloadFile] *)

Module Outputs.

(** [downloadFile(content, filename, contentType)] *)
Definition downloadFile (content filename contentType : jsstring) : M unit :=
  let blob := TextBlob content contentType in
  url <~ createObjectURL blob ;;
  _ <~ click_link url filename ;;
  revokeObjectURL url.

End Outputs.

(* ================================================================== *)
(** ** pages/CodeViewer.jsx *)

Module CodeViewer.

(** One [View | Download] pair of anchors. *)
Record Row := mkRow {
  view_href : option N;
  download_href : option N;
  download_name : jsval
}.

Inductive SubDocs :=
| NoCommunicationDocs
| Docs (rows : list Row).

(** What the component returns. *)
Inductive View :=
| NoUploadData
| Page (top : jsval)
       (top_uploads : option (list (jsstring * list Row)))
       (subs : list (jsval * SubDocs)).

(** [file ? URL.createObjectURL(file) : null]; the browser accepts
    blobs only. *)
Definition viewURL (file : jsval) : M (option N) :=
  if truthy file then
    match file with
    | JFile f => url <~ createObjectURL (FileBlob f) ;; ret (Some url)
    | _ => throw TypeError
    end
  else ret None.

(** The two anchors made for one file. *)
Definition row (file : jsval) : M Row :=
  h1 <~ viewURL file ;;
  h2 <~ viewURL file ;;
  n <~ lift (get_static file (js "name")) ;;
  ret (mkRow h1 h2 n).

(** A value React can place as a text child. *)
Definition text_child (v : jsval) : completion jsval :=
  match v with
  | JArr _ | JObj _ | JFile _ | JBuiltin => Unmodelled
  | _ => Normal v
  end.

Definition render_top (data : jsval) : M (option (list (jsstring * list Row))) :=
  ups <~ lift (get_static data (js "uploads")) ;;
  top <~ lift (get_static data (js "topModule")) ;;
  guard <~ lift (get_computed ups top) ;;
  if truthy guard then
    ups' <~ lift (get_static data (js "uploads")) ;;
    top' <~ lift (get_static data (js "topModule")) ;;
    cats <~ lift (c <- get_computed ups' top' ;; Object_entries c) ;;
    sections <~ mapM (fun kf =>
                   files <~ lift (Array_from (snd kf)) ;;
                   rows <~ mapM row files ;;
                   ret (fst kf, rows)) cats ;;
    ret (Some sections)
  else ret None.

Definition render_sub (data sub : jsval) : M (jsval * SubDocs) :=
  ups <~ lift (get_static data (js "uploads")) ;;
  guard <~ lift (get_computed ups sub) ;;
  if truthy guard then
    ups' <~ lift (get_static data (js "uploads")) ;;
    files <~ lift (m <- get_computed ups' sub ;;
                   c <- get_static m (js "communication") ;;
                   Object_values c) ;;
    rows <~ mapM row files ;;
    ret (sub, Docs rows)
  else ret (sub, NoCommunicationDocs).

(** The body of the component for the current [data]. *)
Definition render (data : jsval) : M View :=
  if negb (truthy data) then ret NoUploadData
  else
    top <~ lift (get_static data (js "topModule")) ;;
    top_uploads <~ render_top data ;;
    subModules <~ lift (get_static data (js "subModules")) ;;
    subs <~ match subModules with
            | JArr l => mapM (render_sub data) l
            | JBuiltin => lift Unmodelled
            | _ => throw TypeError
            end ;;
    _ <~ lift (text_child top) ;;
    _ <~ mapM (fun s => lift (text_child (fst s))) subs ;;
    ret (Page top top_uploads subs).

(** The mount effect: what [data] becomes.  A [SyntaxError] from
    [JSON.parse] is not caught. *)
Definition load (e : Env) (data : jsval) : completion jsval :=
  match getItem (js "uploadData") (localStorage e) with
  | Some saved =>
      if str_truthy saved then
        match Json.parse saved with
        | Some v => Normal v
        | None => Throw SyntaxError
        end
      else Normal data
  | None => Normal data
  end.

(** Mounting the component: first render with [data = null], the
    effect, and the render that follows a state change.  The result is
    what the user is left with. *)
Definition mount (e : Env) : M View :=
  _ <~ render JNull ;;
  data <~ lift (load e JNull) ;;
  render data.

(** Unmounting: the component registers no cleanup. *)
Definition unmount : M unit := ret tt.

End CodeViewer.

(* ================================================================== *)
(** ** components/StatusPanel.jsx *)

Module StatusPanel.

Inductive Kind := StatusFetch | LogsFetch.

(** One run of the effect body: the closure holding [mounted] and the
    two interval ids. *)
Record Effect := mkEffect {
  eff_taskId : jsstring;
  mounted : bool;
  interval : nat;
  logInterval : nat
}.

(** A timer registered by [setInterval]. *)
Record Timer := mkTimer {
  tm_id : nat;
  tm_effect : nat;       (* the closure the callback belongs to *)
  tm_kind : Kind;
  tm_due : nat;          (* next firing time, in ms *)
  tm_period : nat
}.

(** An [axios.get] awaiting its response. *)
Record Request := mkRequest {
  req_id : nat;
  req_effect : nat;      (* the closure the continuation belongs to *)
  req_kind : Kind;
  req_task : jsstring    (* the task id in the URL *)
}.

(** How a request ends: a response body, or a rejection (network
    failure or a status outside 2xx). *)
Inductive Response :=
| Ok (data : jsval)
| Failed.

Record State := mkState {
  alive : bool;                  (* the component is mounted *)
  taskId : option jsstring;      (* the prop; [None] is null/undefined *)
  status : jsval;
  progress : jsval;
  logs : jsval;
  effects : list Effect;         (* every closure created so far *)
  current : option nat;          (* whose cleanup React holds *)
  timers : list Timer;
  next_timer : nat;
  inflight : list Request;
  next_req : nat;
  now : nat;                     (* ms *)
  console_errors : nat
}.

(** The task snapshot shown to the user. *)
Definition snapshot (s : State) : jsval * jsval * jsval :=
  (status s, progress s, logs s).

Definition T_status : nat := 1500.
Definition T_logs : nat := 2000.

Definition prop_truthy (t : option jsstring) : bool :=
  match t with Some id => str_truthy id | None => false end.

Definition prop_eqb (a b : option jsstring) : bool :=
  match a, b with
  | Some x, Some y => jsstring_eqb x y
  | None, None => true
  | _, _ => false
  end.

(** The effect body for the current prop. *)
Definition run_effect (s : State) : State :=
  match taskId s with
  | Some id =>
      if str_truthy id then
        let me := List.length (effects s) in
        let i1 := next_timer s in
        let i2 := S (next_timer s) in
        mkState (alive s) (taskId s) (status s) (progress s) (logs s)
          (effects s ++ [mkEffect id true i1 i2])
          (Some me)
          (timers s ++ [mkTimer i1 me StatusFetch (now s + T_status) T_status;
                        mkTimer i2 me LogsFetch (now s + T_logs) T_logs])
          (S (S (next_timer s)))
          (inflight s) (next_req s) (now s) (console_errors s)
      else
        mkState (alive s) (taskId s) (status s) (progress s) (logs s)
          (effects s) None (timers s) (next_timer s)
          (inflight s) (next_req s) (now s) (console_errors s)
  | None =>
      mkState (alive s) (taskId s) (status s) (progress s) (logs s)
        (effects s) None (timers s) (next_timer s)
        (inflight s) (next_req s) (now s) (console_errors s)
  end.

Definition clearInterval (id : nat) (ts : list Timer) : list Timer :=
  filter (fun t => negb (tm_id t =? id)%nat) ts.

Fixpoint unmount_effect (i : nat) (l : list Effect) : list Effect :=
  match l, i with
  | [], _ => []
  | e :: r, O => mkEffect (eff_taskId e) false (interval e) (logInterval e) :: r
  | e :: r, S j => e :: unmount_effect j r
  end.

(** The cleanup the current closure returned:
    [mounted = false; clearInterval(interval); clearInterval(logInterval)]. *)
Definition cleanup (s : State) : State :=
  match current s with
  | None => s
  | Some i =>
      match nth_error (effects s) i with
      | None => s
      | Some e =>
          mkState (alive s) (taskId s) (status s) (progress s) (logs s)
            (unmount_effect i (effects s))
            None
            (clearInterval (logInterval e) (clearInterval (interval e) (timers s)))
            (next_timer s)
            (inflight s) (next_req s) (now s) (console_errors s)
      end
  end.

(** The initial values of the three [useState] cells, before any
    effect has run. *)
Definition created (t : option jsstring) : State :=
  mkState true t JNull (JNum 0 0) (JStr []) [] None [] 0 [] 0 0 0.

(** First render and effect. *)
Definition mount (t : option jsstring) : State := run_effect (created t).

(** The parent renders the panel with prop [t]: the effect depends on
    [taskId] alone, so an unchanged prop runs nothing.  The cleanup of
    the previous closure and the new effect body run back to back; this
    step is the moment the panel is bound to [t]. *)
Definition setTaskId (t : option jsstring) (s : State) : State :=
  if negb (alive s) then s
  else if prop_eqb t (taskId s) then s
  else
    let s1 := cleanup s in
    run_effect
      (mkState (alive s1) t (status s1) (progress s1) (logs s1)
         (effects s1) (current s1) (timers s1) (next_timer s1)
         (inflight s1) (next_req s1) (now s1) (console_errors s1)).

Definition unmount (s : State) : State :=
  let s1 := cleanup s in
  mkState false (taskId s1) (status s1) (progress s1) (logs s1)
    (effects s1) None (timers s1) (next_timer s1)
    (inflight s1) (next_req s1) (now s1) (console_errors s1).

(** A timer comes due at time [t]: its callback starts a request for
    the task id its closure captured, and the timer is rearmed. *)
Definition fire (t : nat) (effs : list Effect)
  (acc : list Timer * list Request * nat) (tm : Timer)
  : list Timer * list Request * nat :=
  match acc with
  | (done, reqs, n) =>
      if (tm_due tm <=? t)%nat then
        let task := match nth_error effs (tm_effect tm) with
                    | Some e => eff_taskId e
                    | None => []
                    end in
        (done ++ [mkTimer (tm_id tm) (tm_effect tm) (tm_kind tm)
                          (t + tm_period tm) (tm_period tm)],
         reqs ++ [mkRequest n (tm_effect tm) (tm_kind tm) task],
         S n)
      else (done ++ [tm], reqs, n)
  end.

(** One millisecond passes. *)
Definition tick (s : State) : State :=
  let t := S (now s) in
  match fold_left (fire t (effects s)) (timers s) ([], inflight s, next_req s) with
  | (ts, reqs, n) =>
      mkState (alive s) (taskId s) (status s) (progress s) (logs s)
        (effects s) (current s) ts (next_timer s) reqs n t (console_errors s)
  end.

Definition elapse (ms : nat) (s : State) : State := Nat.iter ms tick s.

Fixpoint find_request (rid : nat) (l : list Request) : option Request :=
  match l with
  | [] => None
  | r :: rest => if (req_id r =? rid)%nat then Some r else find_request rid rest
  end.

Definition remove_request (rid : nat) (l : list Request) : list Request :=
  filter (fun r => negb (req_id r =? rid)%nat) l.

(** The [mounted] flag a continuation reads from its closure. *)
Definition effect_mounted (s : State) (i : nat) : bool :=
  match nth_error (effects s) i with
  | Some e => mounted e
  | None => false
  end.

(** [v || 0] *)
Definition or_zero (v : jsval) : jsval := if truthy v then v else JNum 0 0.

(** The continuation after [await axios.get(...)] in the status
    callback, on the state with the request already retired. *)
Definition status_continuation (rq : Request) (r : Response) (s : State)
  : State :=
  match r with
  | Failed =>
      mkState (alive s) (taskId s) (status s) (progress s) (logs s)
        (effects s) (current s) (timers s) (next_timer s)
        (inflight s) (next_req s) (now s) (S (console_errors s))
  | Ok data =>
      if negb (effect_mounted s (req_effect rq)) then s
      else
        match (st <- get_static data (js "status") ;;
               pr <- get_static data (js "progress") ;;
               Normal (st, pr)) with
        | Normal (st, pr) =>
            mkState (alive s) (taskId s) st (or_zero pr) (logs s)
              (effects s) (current s) (timers s) (next_timer s)
              (inflight s) (next_req s) (now s) (console_errors s)
        | Throw _ =>
            mkState (alive s) (taskId s) (status s) (progress s) (logs s)
              (effects s) (current s) (timers s) (next_timer s)
              (inflight s) (next_req s) (now s) (S (console_errors s))
        | Unmodelled => s
        end
  end.

(** The same for the logs callback, whose [catch] is empty. *)
Definition logs_continuation (rq : Request) (r : Response) (s : State)
  : State :=
  match r with
  | Failed => s
  | Ok data =>
      if negb (effect_mounted s (req_effect rq)) then s
      else
        match get_static data (js "logs") with
        | Normal lg =>
            mkState (alive s) (taskId s) (status s) (progress s) lg
              (effects s) (current s) (timers s) (next_timer s)
              (inflight s) (next_req s) (now s) (console_errors s)
        | Throw _ | Unmodelled => s
        end
  end.

(** Request [rid] completes with [r]. *)
Definition respond (rid : nat) (r : Response) (s : State) : State :=
  match find_request rid (inflight s) with
  | None => s
  | Some rq =>
      let s1 := mkState (alive s) (taskId s) (status s) (progress s) (logs s)
                  (effects s) (current s) (timers s) (next_timer s)
                  (remove_request rid (inflight s)) (next_req s) (now s)
                  (console_errors s) in
      match req_kind rq with
      | StatusFetch => status_continuation rq r s1
      | LogsFetch => logs_continuation rq r s1
      end
  end.

Inductive event :=
| SetTaskId (t : option jsstring)
| Unmount
| Elapse (ms : nat)
| Respond (rid : nat) (r : Response).

Definition step (ev : event) (s : State) : State :=
  match ev with
  | SetTaskId t => setTaskId t s
  | Unmount => unmount s
  | Elapse ms => elapse ms s
  | Respond rid r => respond rid r s
  end.

Definition run (tr : list event) (s : State) : State :=
  fold_left (fun acc ev => step ev acc) tr s.

(** The monitor's phase, read off the component. *)
Inductive Phase := Idle | Active | Stopped.

Definition phase (s : State) : Phase :=
  if negb (alive s) then Stopped
  else match current s with
       | Some _ => Active
       | None => Idle
       end.

(** States the panel can be in: a mount followed by events. *)
Definition reachable (s : State) : Prop :=
  exists t tr, s = run tr (mount t).

End StatusPanel.

(* ================================================================== *)
(** * Notions used in the statements *)

(** ** Concrete pages *)

Module UploadCases.
Import Upload.

Definition env0 : Env := mkEnv empty_storage [] [].
Definition f1 : File := mkFile (js "alu_spec.pdf") 2048 1.

(** The scenario of the specification: ALU with FSM and Decoder. *)
Definition scenario : State * Env :=
  run [TypeTopModule (js "ALU"); ChangeNumSubModules (Some 2%Z);
       TypeSubModuleName 0 (js "FSM"); TypeSubModuleName 1 (js "Decoder");
       SelectTopFiles Spec [f1]] (initial, env0).

(** A page on which two sub-modules are both named A. *)
Definition duplicate_names : State * Env :=
  run [TypeTopModule (js "ALU"); ChangeNumSubModules (Some 2%Z);
       TypeSubModuleName 0 (js "A"); TypeSubModuleName 1 (js "A")]
      (initial, env0).

(** A top-module name typed with a space on either side. *)
Definition padded_top : State * Env :=
  run [TypeTopModule (js " ALU "); TypeSubModuleName 0 (js "FSM")]
      (initial, env0).

(** Files are chosen for the top module before it is given a name. *)
Definition early_upload : list event :=
  [SelectTopFiles Spec [f1]; TypeTopModule (js "ALU");
   TypeSubModuleName 0 (js "FSM")].

End UploadCases.

(** ** The panel's invariant *)

Module StatusPanelInv.
Import StatusPanel.

(** Invariant of the states a mounted panel goes through: only the
    closure whose cleanup React holds can still be mounted; requests
    and timers refer to closures that exist; the timers are those of
    the current closure; request ids are below the next one; an
    unmounted panel holds no cleanup, and a mounted one holds none only
    while its task id is falsy. *)
Record wf (s : State) : Prop := mkWf {
  wf_mounted : forall i, effect_mounted s i = true -> current s = Some i;
  wf_inflight : forall rq, In rq (inflight s) ->
      (req_effect rq < List.length (effects s))%nat /\
      (req_id rq < next_req s)%nat;
  wf_timers : forall tm, In tm (timers s) ->
      exists e, current s = Some (tm_effect tm) /\
                nth_error (effects s) (tm_effect tm) = Some e /\
                (tm_id tm = interval e \/ tm_id tm = logInterval e);
  wf_current : forall i, current s = Some i ->
      (i < List.length (effects s))%nat;
  wf_dead : alive s = false -> current s = None;
  wf_prop : alive s = true -> current s = None ->
      prop_truthy (taskId s) = false
}.

(** No closure is mounted and no timer is armed. *)
Definition quiescent (s : State) : Prop :=
  (forall i, effect_mounted s i = false) /\ timers s = [] /\ current s = None.

(** What a timer becomes when the clock reaches [t]. *)
Definition rearm (t : nat) (tm : Timer) : Timer :=
  if (tm_due tm <=? t)%nat
  then mkTimer (tm_id tm) (tm_effect tm) (tm_kind tm) (t + tm_period tm)
               (tm_period tm)
  else tm.

(** The state [s] with its clock moved forward by [d] ms. *)
Definition advance (d : nat) (s : State) : State :=
  mkState (alive s) (taskId s) (status s) (progress s) (logs s)
    (effects s) (current s) (timers s) (next_timer s)
    (inflight s) (next_req s) (now s + d) (console_errors s).

(** Requests issued before the [n]-th belong to closures that are no
    longer mounted. *)
Definition stale_below (n : nat) (s : State) : Prop :=
  (n <= next_req s)%nat /\
  forall rq, In rq (inflight s) -> (req_id rq < n)%nat ->
             effect_mounted s (req_effect rq) = false.

(** [start(h)]: the parent hands the panel the task id [h]. *)
Definition start (h : jsstring) (s : State) : State :=
  setTaskId (Some h) s.

(** A panel that is mounted without a task. *)
Definition idle_panel : State := mount None.

End StatusPanelInv.

(** ** Concrete panels *)

Module StatusPanelCases.
Import StatusPanel StatusPanelInv.

(** A body [{status: "running", progress: 10}]. *)
Definition running_10 : jsval :=
  JObj [(js "status", JStr (js "running")); (js "progress", JNum 10 0)].

(** A body [{logs: text}]. *)
Definition logs_body (text : jsstring) : jsval := JObj [(js "logs", JStr text)].

(** A panel polling task t-1 whose first status request is in flight. *)
Definition polling_t1 : list event := [Elapse 1500].

(** The same panel half a second later, with its first logs request in
    flight too and the first status response applied. *)
Definition after_two_seconds : State :=
  run [Elapse 1500; Respond 0 (Ok running_10); Elapse 500]
      (mount (Some (js "t-1"))).

End StatusPanelCases.

(** ** Concrete stores and viewer data *)

Module ViewerCases.
Import UploadCases.

(** The store after the scenario of [UploadCases] was submitted. *)
Definition submitted : Env :=
  snd (Upload.step Upload.ClickSubmit scenario).

(** The document of that store cut short after 40 code units, as an
    interrupted or overwritten write leaves it. *)
Definition truncated_document : jsstring :=
  firstn 40 (JSON_stringify
               (mkPackage (js "ALU") [js "FSM"; js "Decoder"]
                          [(js "ALU", [(js "spec", [f1])])])).

Definition corrupted : Env :=
  mkEnv (setItem (js "uploadData") truncated_document empty_storage) [] [].

(** A store whose document is the JSON text of an empty object. *)
Definition shapeless : Env :=
  mkEnv (setItem (js "uploadData") (js "{}") empty_storage) [] [].

(** Viewer data holding the selected [File] itself: top module ALU
    with one specification file, sub-module FSM without documents. *)
Definition data_with_file : jsval :=
  JObj [(js "topModule", JStr (js "ALU"));
        (js "subModules", JArr [JStr (js "FSM")]);
        (js "uploads",
         JObj [(js "ALU", JObj [(js "spec", JArr [JFile f1])])])].

End ViewerCases.

(** ** The window's invariant and the start of a JSON text *)

Module WindowInv.

(** The window keeps every URL it created: none is revoked. *)
Definition keeps {A} (m : M A) : Prop :=
  forall w,
    revocations (snd (m w)) = revocations w /\
    clicked (snd (m w)) = clicked w /\
    exists l, live (snd (m w)) = live w ++ l /\
              creations (snd (m w)) = (creations w + List.length l)%nat.

(** Every live URL of the window was handed out by it. *)
Definition window_ok (w : Window) : Prop :=
  forall u b, In (u, b) (live w) -> (u < next_url w)%N.

(** The code units a JSON value can begin with. *)
Definition starts_value (c : N) : bool :=
  ((c =? 34) || (c =? 123) || (c =? 91) || (c =? 116) || (c =? 102)
   || (c =? 110) || (c =? 45))%N || is_digit c.

End WindowInv.

(* ================================================================== *)
(** * Further notions used in the statements *)

(** ** The status panel *)

Module StatusPanelMore.
Import StatusPanel.

(** Nothing of the panel is left running. *)
Definition halted (s : State) : Prop :=
  alive s = false /\ current s = None /\ timers s = [] /\
  forall i, effect_mounted s i = false.

(** Every armed timer belongs to a closure that captured the task id
    the panel has now. *)
Definition polls_bound_id (s : State) : Prop :=
  forall tm, In tm (timers s) ->
    exists e, nth_error (effects s) (tm_effect tm) = Some e /\
              taskId s = Some (eff_taskId e).

(** A body [{status: st, progress: pr}]. *)
Definition status_body (st : jsstring) (pr : Z) : jsval :=
  JObj [(js "status", JStr st); (js "progress", JNum pr 0)].

(** A panel polling task t-1 with its first status request and its
    first logs request both in flight. *)
Definition both_in_flight : State :=
  run [Elapse 2000] (mount (Some (js "t-1"))).




End StatusPanelMore.

(** ** The upload page *)

Module UploadMore.
Import Upload.

(** A name with at least one code unit that is not white space. *)
Definition has_visible (name : jsstring) : Prop :=
  exists c, In c name /\ is_js_whitespace c = false.

(** A package [handleSubmit] lets through. *)
Definition valid_package (p : UploadPackage) : Prop :=
  blank (pk_topModule p) = false /\
  pk_subModules p <> [] /\
  Forall (fun n => blank n = false) (pk_subModules p).

(** The page after a user named the top module ALU, asked for three
    sub-modules, named two of them, chose files for Decoder and then
    reduced the count to one. *)
Definition filled_in : State * Env :=
  run [TypeTopModule (js "ALU"); ChangeNumSubModules (Some 3%Z);
       TypeSubModuleName 0 (js "FSM"); TypeSubModuleName 1 (js "Decoder");
       SelectSubFiles 1 [UploadCases.f1];
       ChangeNumSubModules (Some 1%Z)]
      (initial, UploadCases.env0).

End UploadMore.

(** ** The viewer and the downloads *)

Module ViewerMore.

(** A value holds a [File] somewhere. *)
Fixpoint has_file (v : jsval) : bool :=
  match v with
  | JFile _ => true
  | JArr l => existsb has_file l
  | JObj ps => existsb (fun kv => has_file (snd kv)) ps
  | _ => false
  end.

(** One [downloadFile] call per element: content, file name, type. *)
Definition download_all (ds : list (jsstring * jsstring * jsstring)) : M unit :=
  _ <~ mapM (fun d => Outputs.downloadFile (fst (fst d)) (snd (fst d)) (snd d))
            ds ;;
  ret tt.

(** The computation leaves the window as it found it: it creates no
    URL, revokes none and clicks nothing, however it ends. *)
Definition unchanged {A} (m : M A) : Prop := forall w, snd (m w) = w.

(** A window in which one object URL is live. *)
Definition busy_window : Window :=
  snd (createObjectURL (FileBlob UploadCases.f1) fresh_window).

End ViewerMore.

(** ** What the stored document is read back as *)

Module Readback.

(** [k] may come before [k'] among the keys of an object: an array
    index before a larger one and before any other key, another key
    before no array index. *)
Definition before (k k' : jsstring) : bool :=
  match array_index k, array_index k' with
  | Some i, Some j => (i <? j)%N
  | Some _, None => true
  | None, Some _ => false
  | None, None => true
  end.

(** No key twice, and the keys in the order [OwnPropertyKeys] reports. *)
Fixpoint keys_ordered (ks : list jsstring) : bool :=
  match ks with
  | [] => true
  | k :: r =>
      negb (existsb (jsstring_eqb k) r) && forallb (before k) r && keys_ordered r
  end.

Definition ordered {V} (o : obj V) : bool := keys_ordered (obj_keys o).

(** The [uploads] object and each object in it are ordered, as every
    object built by defining properties one by one is. *)
Definition well_formed (u : obj (obj (list File))) : bool :=
  ordered u && forallb (fun kv => ordered (snd kv)) u.

(** The properties a parser accumulates from a member list: each one
    defined in turn on what the earlier ones built. *)
Definition define_all (ps : obj jsval) (acc : obj jsval) : obj jsval :=
  fold_left (fun acc kv => obj_set (fst kv) (snd kv) acc) ps acc.

(** A [File] comes back as an empty object. *)
Definition file_value (f : File) : jsval := JObj [].

Definition files_value (fs : list File) : jsval := JArr (map file_value fs).

Definition member_value {V} (val : V -> jsval) (kv : jsstring * V)
  : jsstring * jsval :=
  (fst kv, val (snd kv)).

Definition object_value {V} (val : V -> jsval) (o : obj V) : jsval :=
  JObj (map (member_value val) o).

(** The value of a package: its names as they are, and of its files
    only how many there are under each module and category. *)
Definition package_value (p : UploadPackage) : jsval :=
  JObj [(js "topModule", JStr (pk_topModule p));
        (js "subModules", JArr (map JStr (pk_subModules p)));
        (js "uploads", object_value (object_value files_value) (pk_uploads p))].

(** The members of the document of a package: key, text and value. *)
Definition package_members (p : UploadPackage) : obj (jsstring * jsval) :=
  [(js "topModule", (json_quote (pk_topModule p), JStr (pk_topModule p)));
   (js "subModules",
    ([91%N] ++ join [44%N] (map json_quote (pk_subModules p)) ++ [93%N],
     JArr (map JStr (pk_subModules p))));
   (js "uploads",
    (json_of_object (json_of_object json_of_files) (pk_uploads p),
     object_value (object_value files_value) (pk_uploads p)))].

(** The text of one member of an object. *)
Definition member_text {V} (ser : V -> jsstring) (kv : jsstring * V) : jsstring :=
  json_quote (fst kv) ++ [58%N] ++ ser (snd kv).

(** [text] is read back as [v] whatever follows it, given fuel worth
    twice the characters still to be read. *)
Definition reads (text : jsstring) (v : jsval) : Prop :=
  forall f rest, (2 * List.length (text ++ rest) <= f)%nat ->
    Json.value f (text ++ rest) = Some (v, rest).

(** [text] starts with a character that is neither white space nor a
    closing bracket. *)
Definition opens (text : jsstring) : Prop :=
  exists c t, text = c :: t /\ Json.is_ws c = false /\ (c =? 93)%N = false.

(** One more code unit in front of what a string literal was read as. *)
Definition cons_unit (c : N) (p : option (jsstring * jsstring))
  : option (jsstring * jsstring) :=
  match p with
  | Some (t, rest) => Some (c :: t, rest)
  | None => None
  end.

(** No leading zero. *)
Definition leads (s : jsstring) : Prop :=
  match s with
  | c :: _ => c <> 48%N
  | [] => True
  end.

End Readback.

(* ================================================================== *)
(** * Properties *)

(** ** Property lists *)

Section ObjectFacts.
Context {V : Type}.
Implicit Types (o : obj V) (v : V) (k : jsstring).

Lemma obj_get_replace_same k v o :
  obj_has k o = true -> obj_get k (obj_replace k v o) = Some v.
Proof.
  unfold obj_has. induction o as [|[k' v'] r IH]; simpl; [discriminate|].
  destruct (jsstring_eqb k k') eqn:E; simpl; rewrite E; auto.
Qed.

Lemma obj_get_replace_other k k' v o :
  k' <> k -> obj_get k' (obj_replace k v o) = obj_get k' o.
Proof.
  intros Hne. induction o as [|[k0 v0] r IH]; simpl; [reflexivity|].
  destruct (jsstring_eqb k k0) eqn:E; simpl.
  - apply jsstring_eqb_eq in E. subst k0.
    rewrite (jsstring_eqb_neq k' k) by assumption. reflexivity.
  - destruct (jsstring_eqb k' k0); auto.
Qed.

Lemma obj_get_insert_index_same i k v o :
  obj_get k (obj_insert_index i k v o) = Some v \/ obj_has k o = true.
Proof.
  unfold obj_has. induction o as [|[k' v'] r IH]; simpl.
  - rewrite jsstring_eqb_refl. now left.
  - destruct (array_index k') as [j|]; [destruct (j <? i)%N|]; simpl;
      try (rewrite jsstring_eqb_refl; now left).
    destruct (jsstring_eqb k k'); [now right | exact IH].
Qed.

Lemma obj_get_insert_index_other i k k' v o :
  k' <> k -> obj_get k' (obj_insert_index i k v o) = obj_get k' o.
Proof.
  intros Hne. induction o as [|[k0 v0] r IH]; simpl.
  - now rewrite (jsstring_eqb_neq k' k).
  - destruct (array_index k0) as [j|]; [destruct (j <? i)%N|]; simpl;
      try (now rewrite (jsstring_eqb_neq k' k));
      destruct (jsstring_eqb k' k0); auto.
Qed.

Lemma obj_get_app k (o1 o2 : obj V) :
  obj_get k (o1 ++ o2) =
  match obj_get k o1 with Some v => Some v | None => obj_get k o2 end.
Proof.
  induction o1 as [|[k0 v0] r IH]; simpl; [reflexivity|].
  destruct (jsstring_eqb k k0); auto.
Qed.

(** Reading back what was just defined. *)
Lemma obj_get_set_same k v o : obj_get k (obj_set k v o) = Some v.
Proof.
  unfold obj_set. destruct (obj_has k o) eqn:H.
  - now apply obj_get_replace_same.
  - destruct (array_index k) as [i|].
    + destruct (obj_get_insert_index_same i k v o) as [E|E]; congruence.
    + rewrite obj_get_app. unfold obj_has in H.
      destruct (obj_get k o); [discriminate|].
      simpl. now rewrite jsstring_eqb_refl.
Qed.

(** Every other property is untouched. *)
Lemma obj_get_set_other k k' v o :
  k' <> k -> obj_get k' (obj_set k v o) = obj_get k' o.
Proof.
  intros Hne. unfold obj_set. destruct (obj_has k o).
  - now apply obj_get_replace_other.
  - destruct (array_index k) as [i|].
    + now apply obj_get_insert_index_other.
    + rewrite obj_get_app. destruct (obj_get k' o); [reflexivity|].
      simpl. now rewrite (jsstring_eqb_neq k' k).
Qed.

Lemma obj_keys_replace k v o : obj_keys (obj_replace k v o) = obj_keys o.
Proof.
  unfold obj_keys. induction o as [|[k0 v0] r IH]; simpl; [reflexivity|].
  destruct (jsstring_eqb k k0); simpl; congruence.
Qed.

Lemma in_obj_keys_insert_index x i k v o :
  In x (obj_keys (obj_insert_index i k v o)) -> x = k \/ In x (obj_keys o).
Proof.
  unfold obj_keys. induction o as [|[k0 v0] r IH]; simpl.
  - intros [H|[]]; auto.
  - destruct (array_index k0) as [j|]; [destruct (j <? i)%N|]; simpl;
      intros H; intuition auto.
Qed.

(** Defining [k] adds at most the key [k]. *)
Lemma in_obj_keys_set x k v o :
  In x (obj_keys (obj_set k v o)) -> x = k \/ In x (obj_keys o).
Proof.
  unfold obj_set. destruct (obj_has k o).
  - rewrite obj_keys_replace. auto.
  - destruct (array_index k) as [i|].
    + apply in_obj_keys_insert_index.
    + unfold obj_keys. rewrite map_app, in_app_iff. simpl.
      intros [H|[H|[]]]; auto.
Qed.

Lemma obj_has_in_keys k o : obj_has k o = true <-> In k (obj_keys o).
Proof.
  unfold obj_has, obj_keys. induction o as [|[k0 v0] r IH]; simpl.
  - split; [discriminate | tauto].
  - destruct (jsstring_eqb k k0) eqn:E.
    + apply jsstring_eqb_eq in E. subst. tauto.
    + split.
      * intros H. right. now apply IH.
      * intros [H|H]; [subst; rewrite jsstring_eqb_refl in E; discriminate|].
        now apply IH.
Qed.

End ObjectFacts.

(* ================================================================== *)
(** ** Trimming *)

Lemma trim_start_nil_rev s : trim_start s = [] -> trim_start (rev s) = [].
Proof.
  induction s as [|c r IH]; simpl; [reflexivity|].
  destruct (is_js_whitespace c) eqn:E; [|discriminate].
  intros H. specialize (IH H).
  assert (G : forall a b, trim_start a = [] -> trim_start b = [] ->
                          trim_start (a ++ b) = []).
  { induction a as [|x a IHa]; simpl; intros b Ha Hb; [exact Hb|].
    destruct (is_js_whitespace x); [auto | discriminate]. }
  apply G; [exact IH|]. simpl. now rewrite E.
Qed.

(** A name is blank exactly when all its code units are white space. *)
Lemma blank_iff_all_whitespace s :
  blank s = true <-> forallb is_js_whitespace s = true.
Proof.
  unfold blank, trim. split.
  - intros H.
    assert (E : trim_start (rev (trim_start s)) = []).
    { destruct (trim_start (rev (trim_start s))) as [|x l] eqn:E; [reflexivity|].
      simpl in H. destruct (rev l ++ [x]) eqn:E'; [|discriminate].
      destruct (rev l); discriminate. }
    clear H. induction s as [|c r IH]; simpl in *; [reflexivity|].
    destruct (is_js_whitespace c) eqn:Ec; simpl; [now apply IH|].
    exfalso. simpl in E.
    assert (G : forall a x, is_js_whitespace x = false ->
                            trim_start (a ++ [x]) <> []).
    { induction a as [|y a IHa]; simpl; intros x Hx.
      - now rewrite Hx.
      - destruct (is_js_whitespace y); [now apply IHa | discriminate]. }
    eapply G; eauto.
  - intros H.
    assert (E : trim_start s = []).
    { induction s as [|c r IH]; simpl in *; [reflexivity|].
      apply andb_true_iff in H as [Hc Hr]. rewrite Hc. auto. }
    rewrite E. reflexivity.
Qed.


(* ================================================================== *)
(** ** JSON texts *)

Section ObjectMembers.
Context {V : Type}.
Implicit Types (o : obj V) (v : V) (k : jsstring).

Lemma in_obj_replace x k v o : In x (obj_replace k v o) -> x = (k, v) \/ In x o.
Proof.
  induction o as [|[k0 v0] r IH]; simpl; [tauto|].
  destruct (jsstring_eqb k k0) eqn:E; simpl.
  - apply jsstring_eqb_eq in E. subst. intros [<-|H]; auto.
  - intros [<-|H]; auto. destruct (IH H); auto.
Qed.

Lemma in_obj_insert_index x i k v o :
  In x (obj_insert_index i k v o) -> x = (k, v) \/ In x o.
Proof.
  induction o as [|[k0 v0] r IH]; simpl.
  - intros [<-|[]]. auto.
  - destruct (array_index k0) as [j|]; [destruct (j <? i)%N|]; simpl;
      intros H; intuition auto.
Qed.

(** Defining a property adds at most that property. *)
Lemma in_obj_set x k v o : In x (obj_set k v o) -> x = (k, v) \/ In x o.
Proof.
  unfold obj_set. destruct (obj_has k o).
  - apply in_obj_replace.
  - destruct (array_index k) as [i|].
    + apply in_obj_insert_index.
    + rewrite in_app_iff. simpl. intuition auto.
Qed.
End ObjectMembers.

Lemma existsb_false {A} (f : A -> bool) l :
  existsb f l = false <-> forall x, In x l -> f x = false.
Proof.
  induction l as [|a l IH]; simpl.
  - split; [tauto | reflexivity].
  - rewrite orb_false_iff, IH. split.
    + intros [Ha Hl] x [<-|Hx]; auto.
    + intros H. split; [apply H; now left | intros x Hx; apply H; now right].
Qed.

Module JsonFacts.
Import ViewerMore.

Ltac crack H :=
  repeat match type of H with
         | context [match ?x with _ => _ end] => destruct x eqn:?; try discriminate
         end.

Lemma number_is_num s v r : Json.number s = Some (v, r) -> exists m e, v = JNum m e.
Proof.
  unfold Json.number. intros H. crack H; inversion H; subst; eauto.
Qed.

Lemma no_file_set k v (acc : obj jsval) :
  has_file v = false ->
  existsb (fun kv => has_file (snd kv)) acc = false ->
  existsb (fun kv => has_file (snd kv)) (obj_set k v acc) = false.
Proof.
  intros Hv Ha. apply existsb_false. intros x Hx.
  apply in_obj_set in Hx as [->|Hx]; [exact Hv|].
  now apply (proj1 (existsb_false _ _) Ha).
Qed.

Lemma no_file_snoc v (acc : list jsval) :
  has_file v = false -> existsb has_file acc = false ->
  existsb has_file (acc ++ [v]) = false.
Proof. intros Hv Ha. rewrite existsb_app, Ha. simpl. now rewrite Hv. Qed.

(** What the parser builds holds no [File]. *)
Lemma parsed_values_no_file f :
  (forall s v r, Json.value f s = Some (v, r) -> has_file v = false) /\
  (forall acc s v r,
     Json.members f acc s = Some (v, r) ->
     existsb (fun kv => has_file (snd kv)) acc = false -> has_file v = false) /\
  (forall acc s v r,
     Json.elements f acc s = Some (v, r) ->
     existsb has_file acc = false -> has_file v = false).
Proof.
  induction f as [|f (IHv & IHm & IHe)].
  - repeat split; intros; discriminate.
  - split; [|split].
    + intros s v r H. cbn [Json.value] in H.
      destruct (Json.skip_ws s) as [|c t]; [discriminate|].
      destruct (c =? 34)%N.
      { crack H. inversion H. reflexivity. }
      destruct (c =? 123)%N.
      { destruct (Json.skip_ws t) as [|c1 r1]; [discriminate|].
        destruct (c1 =? 125)%N; [inversion H; reflexivity|].
        eapply IHm; [exact H | reflexivity]. }
      destruct (c =? 91)%N.
      { destruct (Json.skip_ws t) as [|c1 r1]; [discriminate|].
        destruct (c1 =? 93)%N; [inversion H; reflexivity|].
        eapply IHe; [exact H | reflexivity]. }
      destruct (c =? 116)%N.
      { destruct (Json.literal (js "rue") t); inversion H. reflexivity. }
      destruct (c =? 102)%N.
      { destruct (Json.literal (js "alse") t); inversion H. reflexivity. }
      destruct (c =? 110)%N.
      { destruct (Json.literal (js "ull") t); inversion H. reflexivity. }
      apply number_is_num in H as (m & e & ->). reflexivity.
    + intros acc s v r H Hacc. cbn [Json.members] in H.
      destruct (Json.skip_ws s) as [|q t]; [discriminate|].
      destruct (q =? 34)%N; [|discriminate].
      destruct (Json.string_body t) as [[k r1]|]; [|discriminate].
      destruct (Json.skip_ws r1) as [|colon r2]; [discriminate|].
      destruct (colon =? 58)%N; [|discriminate].
      destruct (Json.value f r2) as [[v0 r3]|] eqn:Ev; [|discriminate].
      apply IHv in Ev.
      destruct (Json.skip_ws r3) as [|d r4]; [discriminate|].
      destruct (d =? 44)%N.
      { eapply IHm; [exact H|]. now apply no_file_set. }
      destruct (d =? 125)%N; [|discriminate].
      inversion H. subst. cbn [has_file]. now apply no_file_set.
    + intros acc s v r H Hacc. cbn [Json.elements] in H.
      destruct (Json.value f s) as [[v0 r1]|] eqn:Ev; [|discriminate].
      apply IHv in Ev.
      destruct (Json.skip_ws r1) as [|d r2]; [discriminate|].
      destruct (d =? 44)%N.
      { eapply IHe; [exact H|]. now apply no_file_snoc. }
      destruct (d =? 93)%N; [|discriminate].
      inversion H. subst. cbn [has_file]. now apply no_file_snoc.
Qed.

(** [JSON.parse] never returns a value holding a [File]. *)
Lemma parse_no_file text v : Json.parse text = Some v -> has_file v = false.
Proof.
  unfold Json.parse.
  destruct (Json.value _ text) as [[v0 r]|] eqn:E; [|discriminate].
  destruct (Json.skip_ws r); [|discriminate].
  intros [= <-]. eapply (proj1 (parsed_values_no_file _)); eauto.
Qed.

End JsonFacts.

(* ================================================================== *)
(** ** Reading back what [JSON.stringify] wrote *)

Module ReadbackFacts.
Import Readback.

Lemma hex_value_digit d : (d < 16)%N -> Json.hex_value (hex_digit d) = Some d.
Proof.
  intros H.
  assert (E : (d = 0 \/ d = 1 \/ d = 2 \/ d = 3 \/ d = 4 \/ d = 5 \/ d = 6 \/ d = 7 \/
          d = 8 \/ d = 9 \/ d = 10 \/ d = 11 \/ d = 12 \/ d = 13 \/ d = 14 \/ d = 15)%N)
    by lia.
  repeat (destruct E as [->|E]; [reflexivity|]). subst. reflexivity.
Qed.

Lemma hex_sum c : (c < 65536)%N ->
  (4096 * ((c / 4096) mod 16) + 256 * ((c / 256) mod 16) + 16 * ((c / 16) mod 16)
   + c mod 16 = c)%N.
Proof.
  intros H. zify. Z.to_euclidean_division_equations. lia.
Qed.


(** The parser reads a [\uXXXX] escape back as the code unit it was
    written for. *)
Lemma string_body_unicode_escape c t :
  (c < 65536)%N ->
  Json.string_body (unicode_escape c ++ t) = cons_unit c (Json.string_body t).
Proof.
  intros H. unfold unicode_escape.
  cbn [app Json.string_body]. change (92 =? 34)%N with false.
  change (92 =? 92)%N with true. change (117 =? 117)%N with true. cbn iota.
  unfold Json.hex4.
  rewrite !hex_value_digit by (apply N.mod_lt; discriminate).
  rewrite hex_sum by exact H. reflexivity.
Qed.

Lemma string_body_short x u t :
  Json.unescape x = Some u -> (x =? 117)%N = false ->
  Json.string_body (92%N :: x :: t) = cons_unit u (Json.string_body t).
Proof.
  intros E F. cbn [Json.string_body]. change (92 =? 34)%N with false.
  change (92 =? 92)%N with true. cbn iota. rewrite F, E. reflexivity.
Qed.

Lemma string_body_raw c t :
  (c =? 34)%N = false -> (c =? 92)%N = false -> (c <? 32)%N = false ->
  Json.string_body (c :: t) = cons_unit c (Json.string_body t).
Proof.
  intros A B C. cbn [Json.string_body]. rewrite A, B, C. reflexivity.
Qed.

Lemma high_surrogate_range c :
  is_high_surrogate c = true -> (55296 <= c <= 56319)%N.
Proof. unfold is_high_surrogate. rewrite andb_true_iff, !N.leb_le. tauto. Qed.

Lemma low_surrogate_range c :
  is_low_surrogate c = true -> (56320 <= c <= 57343)%N.
Proof. unfold is_low_surrogate. rewrite andb_true_iff, !N.leb_le. tauto. Qed.

Ltac raw_unit :=
  rewrite string_body_raw
    by (first [apply N.eqb_neq | apply N.ltb_ge]; lia).

(** [JSON.parse] undoes [QuoteJSONString]: whatever the string, the
    parser reads the quoted text back as the same code units. *)
Lemma string_body_quote_units n : forall s rest,
  (List.length s <= n)%nat ->
  Json.string_body (quote_units s ++ 34%N :: rest) = Some (s, rest).
Proof.
  induction n as [|n IH]; intros s rest L.
  - destruct s; [reflexivity | simpl in L; lia].
  - destruct s as [|c r]; [reflexivity|]. simpl in L.
    assert (IHr : forall rest, Json.string_body (quote_units r ++ 34%N :: rest)
                               = Some (r, rest)) by (intros; apply IH; lia).
    cbn [quote_units].
    destruct (is_high_surrogate c) eqn:Hh.
    { apply high_surrogate_range in Hh.
      destruct r as [|d r'].
      - rewrite string_body_unicode_escape by lia. reflexivity.
      - destruct (is_low_surrogate d) eqn:Hl.
        + apply low_surrogate_range in Hl. cbn [app].
          do 2 raw_unit. rewrite IH by (simpl in L; lia). reflexivity.
        + rewrite <- app_assoc, string_body_unicode_escape by lia.
          rewrite IHr. reflexivity. }
    destruct (is_low_surrogate c) eqn:Hl.
    { apply low_surrogate_range in Hl.
      rewrite <- app_assoc, string_body_unicode_escape by lia.
      rewrite IHr. reflexivity. }
    destruct (c =? 8)%N eqn:E8.
    { apply N.eqb_eq in E8. subst c. change (js "\b") with [92%N; 98%N].
      rewrite <- app_assoc. cbn [app].
      rewrite (string_body_short 98 8) by reflexivity. rewrite IHr. reflexivity. }
    destruct (c =? 9)%N eqn:E9.
    { apply N.eqb_eq in E9. subst c. change (js "\t") with [92%N; 116%N].
      rewrite <- app_assoc. cbn [app].
      rewrite (string_body_short 116 9) by reflexivity. rewrite IHr. reflexivity. }
    destruct (c =? 10)%N eqn:E10.
    { apply N.eqb_eq in E10. subst c. change (js "\n") with [92%N; 110%N].
      rewrite <- app_assoc. cbn [app].
      rewrite (string_body_short 110 10) by reflexivity. rewrite IHr. reflexivity. }
    destruct (c =? 12)%N eqn:E12.
    { apply N.eqb_eq in E12. subst c. change (js "\f") with [92%N; 102%N].
      rewrite <- app_assoc. cbn [app].
      rewrite (string_body_short 102 12) by reflexivity. rewrite IHr. reflexivity. }
    destruct (c =? 13)%N eqn:E13.
    { apply N.eqb_eq in E13. subst c. change (js "\r") with [92%N; 114%N].
      rewrite <- app_assoc. cbn [app].
      rewrite (string_body_short 114 13) by reflexivity. rewrite IHr. reflexivity. }
    destruct (c =? 34)%N eqn:E34.
    { apply N.eqb_eq in E34. subst c. rewrite <- app_assoc. cbn [app].
      rewrite (string_body_short 34 34) by reflexivity. rewrite IHr. reflexivity. }
    destruct (c =? 92)%N eqn:E92.
    { apply N.eqb_eq in E92. subst c. rewrite <- app_assoc. cbn [app].
      rewrite (string_body_short 92 92) by reflexivity. rewrite IHr. reflexivity. }
    destruct (c <? 32)%N eqn:E32.
    { apply N.ltb_lt in E32.
      rewrite <- app_assoc, string_body_unicode_escape by lia.
      rewrite IHr. reflexivity. }
    cbn [app]. rewrite string_body_raw by assumption. rewrite IHr. reflexivity.
Qed.


Lemma string_body_quote s rest :
  Json.string_body (quote_units s ++ 34%N :: rest) = Some (s, rest).
Proof. apply (string_body_quote_units (List.length s)). apply le_n. Qed.



Lemma value_string f r :
  Json.value (S f) (34%N :: r) =
  match Json.string_body r with
  | Some (t, rest) => Some (JStr t, rest)
  | None => None
  end.
Proof. reflexivity. Qed.

Lemma value_array_empty f r : Json.value (S f) (91%N :: 93%N :: r) = Some (JArr [], r).
Proof. reflexivity. Qed.

Lemma skip_ws_cons c r : Json.is_ws c = false -> Json.skip_ws (c :: r) = c :: r.
Proof. intros W. cbn [Json.skip_ws]. rewrite W. reflexivity. Qed.

Lemma value_array f c r :
  Json.is_ws c = false -> (c =? 93)%N = false ->
  Json.value (S f) (91%N :: c :: r) = Json.elements f [] (c :: r).
Proof.
  intros W E. cbn [Json.value]. rewrite (skip_ws_cons 91) by reflexivity.
  change (91 =? 34)%N with false. change (91 =? 123)%N with false.
  change (91 =? 91)%N with true. cbn iota. rewrite skip_ws_cons by exact W.
  rewrite E. reflexivity.
Qed.

Lemma value_object_empty f r :
  Json.value (S f) (123%N :: 125%N :: r) = Some (JObj [], r).
Proof. reflexivity. Qed.

Lemma value_object f r :
  Json.value (S f) (123%N :: 34%N :: r) = Json.members f [] (34%N :: r).
Proof. reflexivity. Qed.

Lemma elements_step f acc s v d r :
  Json.value f s = Some (v, d :: r) -> Json.is_ws d = false ->
  Json.elements (S f) acc s =
  if (d =? 44)%N then Json.elements f (acc ++ [v]) r
  else if (d =? 93)%N then Some (JArr (acc ++ [v]), r)
  else None.
Proof.
  intros E W. cbn [Json.elements]. rewrite E, skip_ws_cons by exact W.
  reflexivity.
Qed.

Lemma members_step f acc k v d r r2 r4 :
  Json.string_body r = Some (k, 58%N :: r2) ->
  Json.value f r2 = Some (v, d :: r4) -> Json.is_ws d = false ->
  Json.members (S f) acc (34%N :: r) =
  if (d =? 44)%N then Json.members f (obj_set k v acc) r4
  else if (d =? 125)%N then Some (JObj (obj_set k v acc), r4)
  else None.
Proof.
  intros K E W. cbn [Json.members]. rewrite (skip_ws_cons 34) by reflexivity.
  change (34 =? 34)%N with true. cbn iota. rewrite K.
  rewrite (skip_ws_cons 58) by reflexivity.
  change (58 =? 58)%N with true. cbn iota. rewrite E, skip_ws_cons by exact W.
  reflexivity.
Qed.

Lemma reads_quote s : reads (json_quote s) (JStr s).
Proof.
  intros f rest L. unfold json_quote in *. rewrite <- !app_assoc in *.
  cbn [app] in *. destruct f as [|f]; [simpl in L; lia|].
  rewrite value_string, string_body_quote. reflexivity.
Qed.

Lemma opens_quote s : opens (json_quote s).
Proof. exists 34%N, (quote_units s ++ [34%N]). repeat split. Qed.

Ltac lens L :=
  cbn [snd fst];
  repeat first [rewrite length_app in L | progress cbn [List.length] in L];
  repeat first [rewrite length_app | progress cbn [List.length]].

Section Arrays.
Context {A : Type} (ser : A -> jsstring) (val : A -> jsval).

Lemma elements_join : forall l a acc f rest,
  (forall x, In x (a :: l) -> reads (ser x) (val x)) ->
  (2 * List.length (join [44%N] (map ser (a :: l)) ++ 93%N :: rest) + 1 <= f)%nat ->
  Json.elements f acc (join [44%N] (map ser (a :: l)) ++ 93%N :: rest) =
  Some (JArr (acc ++ map val (a :: l)), rest).
Proof.
  induction l as [|b l IH]; intros a acc f rest R L.
  - cbn [map join] in *. destruct f as [|f]; [lia|].
    rewrite (elements_step f acc _ (val a) 93%N rest).
    + reflexivity.
    + apply R; [now left | lia].
    + reflexivity.
  - change (join [44%N] (map ser (a :: b :: l)))
      with (ser a ++ [44%N] ++ join [44%N] (map ser (b :: l))) in *.
    rewrite <- !app_assoc in *. cbn [app] in *.
    destruct f as [|f]; [lia|].
    rewrite (elements_step f acc _ (val a) 44%N
               (join [44%N] (map ser (b :: l)) ++ 93%N :: rest)).
    + change (44 =? 44)%N with true. cbn iota.
      rewrite IH.
      * rewrite <- app_assoc. reflexivity.
      * intros x Hx. apply R. now right.
      * rewrite length_app in L. cbn [List.length] in L. lia.
    + apply R; [now left | lia].
    + reflexivity.
Qed.

(** An array of readable elements is read back element by element. *)
Lemma reads_array l :
  (forall x, In x l -> reads (ser x) (val x) /\ opens (ser x)) ->
  reads ([91%N] ++ join [44%N] (map ser l) ++ [93%N]) (JArr (map val l)).
Proof.
  intros R f rest L. rewrite <- !app_assoc in *. cbn [app] in *.
  destruct f as [|f]; [simpl in L; lia|].
  destruct l as [|a l].
  - reflexivity.
  - destruct (R a (or_introl eq_refl)) as [_ (c & t & E & W & N)].
    assert (J : exists t', join [44%N] (map ser (a :: l)) = c :: t').
    { destruct l; cbn [map join]; rewrite E; cbn [app]; eauto. }
    destruct J as [t' J].
    assert (G : Json.value (S f) (91%N :: join [44%N] (map ser (a :: l)) ++ 93%N :: rest)
                = Json.elements f [] (join [44%N] (map ser (a :: l)) ++ 93%N :: rest)).
    { rewrite J. cbn [app]. apply value_array; assumption. }
    rewrite G. rewrite elements_join.
    + reflexivity.
    + intros x Hx. apply R, Hx.
    + cbn [List.length] in L. lia.
Qed.
End Arrays.


Section Objects.
Context {V : Type} (ser : V -> jsstring) (val : V -> jsval).



Lemma members_join : forall o a acc f rest,
  (forall x, In x (a :: o) -> reads (ser (snd x)) (val (snd x))) ->
  (2 * List.length (join [44%N] (map (member_text ser) (a :: o)) ++ 125%N :: rest) + 1
   <= f)%nat ->
  Json.members f acc (join [44%N] (map (member_text ser) (a :: o)) ++ 125%N :: rest) =
  Some (JObj (define_all (map (member_value val) (a :: o)) acc), rest).
Proof.
  induction o as [|b o IH]; intros [k v] acc f rest R L.
  - cbn [map join] in *. unfold member_text, json_quote in *. cbn [fst snd] in *.
    rewrite <- !app_assoc in *. cbn [app] in *.
    destruct f as [|f]; [lia|].
    rewrite (members_step f acc k (val v) 125%N _ (ser v ++ 125%N :: rest) rest).
    + reflexivity.
    + apply string_body_quote.
    + apply (R (k, v)); [now left|]. lens L. lia.
    + reflexivity.
  - change (join [44%N] (map (member_text ser) ((k, v) :: b :: o)))
      with (member_text ser (k, v) ++ [44%N] ++ join [44%N] (map (member_text ser) (b :: o)))
      in *.
    unfold member_text at 1 in L. unfold member_text at 1.
    unfold json_quote in *. cbn [fst snd] in *.
    rewrite <- !app_assoc in *. cbn [app] in *.
    destruct f as [|f]; [lia|].
    rewrite (members_step f acc k (val v) 44%N _
               (ser v ++ 44%N :: join [44%N] (map (member_text ser) (b :: o)) ++ 125%N :: rest)
               (join [44%N] (map (member_text ser) (b :: o)) ++ 125%N :: rest)).
    + change (44 =? 44)%N with true. cbn iota.
      rewrite IH.
      * reflexivity.
      * intros x Hx. apply R. now right.
      * lens L. lia.
    + apply string_body_quote.
    + apply (R (k, v)); [now left|]. lens L. lia.
    + reflexivity.
Qed.

Lemma json_of_object_text o :
  json_of_object ser o = 123%N :: join [44%N] (map (member_text ser) o) ++ [125%N].
Proof. reflexivity. Qed.

(** An object of readable values is read back as the properties its
    members define, in the order of the text. *)
Lemma reads_object o :
  (forall x, In x o -> reads (ser (snd x)) (val (snd x))) ->
  reads (json_of_object ser o) (JObj (define_all (map (member_value val) o) [])).
Proof.
  intros R f rest L. rewrite json_of_object_text in L |- *.
  cbn [app] in L |- *. rewrite <- app_assoc in L |- *. cbn [app] in L |- *.
  destruct f as [|f]; [simpl in L; lia|].
  destruct o as [|a o].
  - reflexivity.
  - assert (J : exists t', join [44%N] (map (member_text ser) (a :: o)) = 34%N :: t').
    { destruct o; cbn [map join]; unfold member_text at 1, json_quote;
        cbn [app]; eauto. }
    destruct J as [t' J].
    assert (G : Json.value (S f)
                  (123%N :: join [44%N] (map (member_text ser) (a :: o)) ++ 125%N :: rest)
                = Json.members f []
                    (join [44%N] (map (member_text ser) (a :: o)) ++ 125%N :: rest)).
    { rewrite J. cbn [app]. apply value_object. }
    rewrite G. rewrite members_join.
    + reflexivity.
    + exact R.
    + cbn [List.length] in L. lia.
Qed.

Lemma opens_object o : opens (json_of_object ser o).
Proof.
  exists 123%N. eexists. rewrite json_of_object_text. repeat split.
Qed.
End Objects.


(** *** The order of properties *)


Lemma digits_value_snoc s : forall acc x,
  digits_value acc (s ++ [x]) = (10 * digits_value acc s + (x - 48))%N.
Proof.
  induction s as [|c r IH]; intros acc x; cbn [app digits_value].
  - reflexivity.
  - apply IH.
Qed.

Lemma digits_value_ge s : forall acc, (acc <= digits_value acc s)%N.
Proof.
  induction s as [|c r IH]; intros acc; cbn [digits_value].
  - lia.
  - specialize (IH (10 * acc + (c - 48))%N). lia.
Qed.

Lemma is_digit_range c : is_digit c = true -> (48 <= c <= 57)%N.
Proof. unfold is_digit. rewrite andb_true_iff, !N.leb_le. tauto. Qed.


Lemma leads_positive s :
  s <> [] -> leads s -> forallb is_digit s = true -> (0 < digits_value 0 s)%N.
Proof.
  destruct s as [|c r]; [congruence|]. intros _ L D. cbn [leads] in L.
  cbn [forallb] in D. apply andb_true_iff in D. destruct D as [D _].
  apply is_digit_range in D. cbn [digits_value].
  pose proof (digits_value_ge r (10 * 0 + (c - 48))%N). lia.
Qed.

Lemma leads_prefix s x : leads (s ++ [x]) -> leads s.
Proof. destruct s; simpl; auto. Qed.

(** Decimal numerals without leading zeros are determined by their
    value. *)
Lemma numeral_inj : forall a b,
  forallb is_digit a = true -> forallb is_digit b = true ->
  leads a -> leads b ->
  digits_value 0 a = digits_value 0 b -> a = b.
Proof.
  induction a as [|x a IH] using rev_ind; intros b Da Db La Lb E.
  - destruct b as [|y b]; [reflexivity|].
    pose proof (leads_positive (y :: b) ltac:(discriminate) Lb Db).
    cbn [digits_value] in E. cbn [digits_value] in H. lia.
  - induction b as [|y b _] using rev_ind.
    + pose proof (leads_positive (a ++ [x]) ltac:(now destruct a) La Da).
      cbn [digits_value] in E. lia.
    + rewrite !digits_value_snoc in E.
      rewrite forallb_app in Da, Db. cbn [forallb] in Da, Db.
      rewrite !andb_true_iff in Da, Db.
      destruct Da as [Da [Dx _]], Db as [Db [Dy _]].
      apply is_digit_range in Dx, Dy.
      assert (x = y) by lia. subst y.
      f_equal. apply IH;
        [assumption | assumption | eapply leads_prefix; eassumption
        | eapply leads_prefix; eassumption | lia].
Qed.

Lemma array_index_numeral k i :
  array_index k = Some i ->
  k <> [] /\ forallb is_digit k = true /\ (leads k \/ k = [48%N]) /\
  i = digits_value 0 k.
Proof.
  unfold array_index. destruct k as [|c r]; [discriminate|].
  destruct (forallb is_digit (c :: r)) eqn:D; [|discriminate].
  cbn [andb].
  destruct (negb (c =? 48)%N || match r with [] => true | _ => false end) eqn:Z;
    [|discriminate].
  cbn [andb]. destruct (_ <=? _)%nat; [|discriminate].
  destruct (_ <=? _)%N; [|discriminate]. intros [= <-].
  split; [discriminate|]. repeat split.
  apply orb_true_iff in Z. destruct Z as [Z|Z].
  - left. cbn [leads]. apply negb_true_iff, N.eqb_neq in Z. exact Z.
  - destruct r; [|discriminate]. destruct (N.eq_dec c 48) as [->|n].
    + now right.
    + now left.
Qed.

(** Two keys that are the same array index are the same key. *)
Lemma array_index_inj k k' i :
  array_index k = Some i -> array_index k' = Some i -> k = k'.
Proof.
  intros H H'. apply array_index_numeral in H, H'.
  destruct H as (H & D & L & E), H' as (H' & D' & L' & E').
  destruct L as [L| ->], L' as [L'| ->].
  - apply numeral_inj; auto. congruence.
  - subst i. pose proof (leads_positive k H L D). cbn in E'. lia.
  - subst i. pose proof (leads_positive k' H' L' D'). cbn in E'. lia.
  - reflexivity.
Qed.


Lemma existsb_eqb_false k l : existsb (jsstring_eqb k) l = false <-> ~ In k l.
Proof.
  induction l as [|a l IH]; simpl.
  - tauto.
  - rewrite orb_false_iff, IH. split.
    + intros [E N] [->|H]; [rewrite jsstring_eqb_refl in E; discriminate | auto].
    + intros N. split; [|tauto]. apply jsstring_eqb_neq. intros ->. tauto.
Qed.

Lemma keys_ordered_cons k r :
  keys_ordered (k :: r) = true <->
  ~ In k r /\ (forall k', In k' r -> before k k' = true) /\ keys_ordered r = true.
Proof.
  cbn [keys_ordered]. rewrite !andb_true_iff, negb_true_iff, existsb_eqb_false,
    forallb_forall. tauto.
Qed.

Lemma keys_ordered_snoc l : forall k,
  keys_ordered (l ++ [k]) = true <->
  keys_ordered l = true /\ ~ In k l /\ (forall k', In k' l -> before k' k = true).
Proof.
  induction l as [|a l IH]; intros k.
  - cbn. intuition auto.
  - cbn [app]. rewrite !keys_ordered_cons, IH. split.
    + intros (N & B & O & Nk & Bk). repeat split; auto.
      * intros H. apply N. apply in_or_app. now left.
      * intros k' H. apply B. apply in_or_app. now left.
      * intros [->|H]; [|tauto]. apply N. apply in_or_app. right. now left.
      * intros k' [<-|H]; [|auto]. apply B. apply in_or_app. right. now left.
    + intros ((N & B & O) & Nk & Bk). repeat split; auto.
      * intros H. apply in_app_or in H. destruct H as [H|[->|[]]]; [tauto|].
        apply Nk. now left.
      * intros k' H. apply in_app_or in H. destruct H as [H|[<-|[]]]; [auto|].
        apply Bk. now left.
      * intros H. apply Nk. now right.
      * intros k' H. apply Bk. now right.
Qed.

Lemma keys_ordered_prefix a : forall b,
  keys_ordered (a ++ b) = true -> keys_ordered a = true.
Proof.
  induction a as [|x a IH]; intros b; [reflexivity|].
  cbn [app]. rewrite !keys_ordered_cons. intros (N & B & O). repeat split.
  - intros H. apply N, in_or_app. now left.
  - intros k' H. apply B, in_or_app. now left.
  - apply (IH b O).
Qed.

Section Ordered.
Context {V : Type}.
Implicit Types (o : obj V) (v : V) (k : jsstring).

Lemma obj_has_false k o : ~ In k (obj_keys o) -> obj_has k o = false.
Proof.
  intros N. destruct (obj_has k o) eqn:E; [|reflexivity].
  apply obj_has_in_keys in E. contradiction.
Qed.

Lemma insert_index_last i k v o :
  array_index k = Some i ->
  (forall k', In k' (obj_keys o) -> before k' k = true) ->
  obj_insert_index i k v o = o ++ [(k, v)].
Proof.
  intros K. induction o as [|[k0 v0] r IH]; intros B; [reflexivity|].
  cbn [obj_insert_index app].
  pose proof (B k0 (or_introl eq_refl)) as B0. unfold before in B0.
  rewrite K in B0. destruct (array_index k0) as [j|]; [|discriminate].
  rewrite B0. f_equal. apply IH. intros k' H. apply B. now right.
Qed.

(** On an ordered object, a property whose key comes last in the
    order is defined at the end. *)
Lemma obj_set_last k v o :
  ordered (o ++ [(k, v)]) = true -> obj_set k v o = o ++ [(k, v)].
Proof.
  unfold ordered, obj_keys. rewrite map_app. cbn [map fst].
  rewrite keys_ordered_snoc. intros (O & N & B).
  unfold obj_set. rewrite obj_has_false by exact N.
  destruct (array_index k) as [i|] eqn:K; [|reflexivity].
  apply insert_index_last; assumption.
Qed.

Lemma in_keys_insert_index x i k v o :
  In x (obj_keys (obj_insert_index i k v o)) <-> x = k \/ In x (obj_keys o).
Proof.
  split; [apply in_obj_keys_insert_index|].
  unfold obj_keys. induction o as [|[k0 v0] r IH]; simpl.
  - intros [->|[]]. now left.
  - destruct (array_index k0) as [j|]; [destruct (j <? i)%N|]; simpl;
      intuition auto.
Qed.

Lemma insert_index_ordered i k v o :
  array_index k = Some i -> ~ In k (obj_keys o) ->
  ordered o = true -> ordered (obj_insert_index i k v o) = true.
Proof.
  intros K. unfold ordered.
  induction o as [|[k0 v0] r IH]; intros N O; [reflexivity|].
  cbn [obj_insert_index].
  change (obj_keys ((k0, v0) :: r)) with (k0 :: obj_keys r) in *.
  apply keys_ordered_cons in O. destruct O as (N0 & B0 & O).
  assert (Nk : k <> k0) by (intros ->; apply N; now left).
  assert (Nr : ~ In k (obj_keys r)) by (intros H; apply N; now right).
  destruct (array_index k0) as [j|] eqn:K0.
  - destruct (j <? i)%N eqn:J.
    + change (obj_keys ((k0, v0) :: obj_insert_index i k v r))
        with (k0 :: obj_keys (obj_insert_index i k v r)).
      apply keys_ordered_cons. repeat split.
      * rewrite in_keys_insert_index. intros [->|H]; [congruence | tauto].
      * intros k' H. apply in_keys_insert_index in H. destruct H as [->|H]; [|auto].
        unfold before. rewrite K0, K. exact J.
      * apply IH; assumption.
    + change (obj_keys ((k, v) :: (k0, v0) :: r)) with (k :: k0 :: obj_keys r).
      apply N.ltb_ge in J.
      assert (Nij : i <> j) by (intros ->; apply Nk; eapply array_index_inj; eauto).
      apply keys_ordered_cons. repeat split.
      * exact N.
      * intros k' [<-|H].
        -- unfold before. rewrite K, K0. apply N.ltb_lt. lia.
        -- specialize (B0 k' H). unfold before in *. rewrite K0 in B0. rewrite K.
           destruct (array_index k') as [j'|]; [|reflexivity].
           apply N.ltb_lt in B0. apply N.ltb_lt. lia.
      * apply keys_ordered_cons. auto.
  - change (obj_keys ((k, v) :: (k0, v0) :: r)) with (k :: k0 :: obj_keys r).
    apply keys_ordered_cons. repeat split.
    + exact N.
    + intros k' [<-|H].
      * unfold before. rewrite K, K0. reflexivity.
      * specialize (B0 k' H). unfold before in *. rewrite K0 in B0. rewrite K.
        destruct (array_index k'); [discriminate | reflexivity].
    + apply keys_ordered_cons. auto.
Qed.

(** Defining a property keeps the properties in order. *)
Lemma obj_set_ordered k v o : ordered o = true -> ordered (obj_set k v o) = true.
Proof.
  intros O. unfold obj_set. destruct (obj_has k o) eqn:H.
  - unfold ordered. rewrite obj_keys_replace. exact O.
  - assert (N : ~ In k (obj_keys o)).
    { intros I. apply obj_has_in_keys in I. congruence. }
    destruct (array_index k) as [i|] eqn:K.
    + apply insert_index_ordered; assumption.
    + unfold ordered, obj_keys. rewrite map_app. cbn [map fst].
      apply keys_ordered_snoc. repeat split; auto.
      intros k' _. unfold before. rewrite K. now destruct (array_index k').
Qed.
End Ordered.

(** Members in order define themselves one after the other: the parser
    rebuilds an ordered list of properties as it was. *)
Lemma define_all_ordered ps : forall acc,
  ordered (acc ++ ps) = true -> define_all ps acc = acc ++ ps.
Proof.
  induction ps as [|[k v] ps IH]; intros acc O.
  - cbn. now rewrite app_nil_r.
  - cbn [define_all fold_left fst snd].
    change (fold_left _ ps ?a) with (define_all ps a).
    assert (E : acc ++ (k, v) :: ps = (acc ++ [(k, v)]) ++ ps)
      by (rewrite <- app_assoc; reflexivity).
    rewrite E in O. rewrite obj_set_last.
    + rewrite IH by exact O. now rewrite E.
    + unfold ordered, obj_keys in *. rewrite map_app in O.
      apply keys_ordered_prefix in O. exact O.
Qed.

(** *** The document of a package *)

Lemma reads_file f : reads (json_of_file f) (file_value f).
Proof. intros fu rest L. destruct fu as [|fu]; [simpl in L; lia|]. reflexivity. Qed.

Lemma opens_file f : opens (json_of_file f).
Proof. exists 123%N, [125%N]. repeat split. Qed.

Lemma reads_files fs : reads (json_of_files fs) (files_value fs).
Proof.
  apply (reads_array json_of_file file_value).
  intros x _. split; [apply reads_file | apply opens_file].
Qed.

Lemma obj_keys_member_value {V} (val : V -> jsval) (o : obj V) :
  obj_keys (map (member_value val) o) = obj_keys o.
Proof. unfold obj_keys. rewrite map_map. reflexivity. Qed.

(** An ordered object of readable values is read back property by
    property, as it was. *)
Lemma reads_ordered_object {V} (ser : V -> jsstring) (val : V -> jsval) (o : obj V) :
  (forall x, In x o -> reads (ser (snd x)) (val (snd x))) ->
  ordered o = true ->
  reads (json_of_object ser o) (object_value val o).
Proof.
  intros R O. unfold object_value.
  rewrite <- (app_nil_l (map (member_value val) o)).
  rewrite <- define_all_ordered.
  - apply reads_object, R.
  - cbn [app]. unfold ordered. rewrite obj_keys_member_value. exact O.
Qed.

Lemma reads_uploads (u : obj (obj (list File))) :
  well_formed u = true ->
  reads (json_of_object (json_of_object json_of_files) u)
        (object_value (object_value files_value) u).
Proof.
  unfold well_formed. rewrite andb_true_iff, forallb_forall. intros [O I].
  apply reads_ordered_object; [|exact O].
  intros x Hx. apply reads_ordered_object; [|apply I, Hx].
  intros y _. apply reads_files.
Qed.

Lemma stringify_members p :
  JSON_stringify p = json_of_object fst (package_members p).
Proof.
  rewrite (json_of_object_text fst (package_members p)).
  unfold JSON_stringify, package_members, member_text.
  cbn [map join fst snd]. rewrite <- !app_assoc. reflexivity.
Qed.

Lemma reads_package p :
  well_formed (pk_uploads p) = true -> reads (JSON_stringify p) (package_value p).
Proof.
  intros W. rewrite stringify_members.
  change (package_value p) with (object_value snd (package_members p)).
  apply reads_ordered_object; [|reflexivity].
  intros x [<-|[<-|[<-|[]]]]; cbn [snd fst].
  - apply reads_quote.
  - apply (reads_array json_quote JStr).
    intros y _. split; [apply reads_quote | apply opens_quote].
  - apply reads_uploads, W.
Qed.

(** [JSON.parse(JSON.stringify(p))]: the names of the package as they
    were, each file as an empty object. *)
Lemma parse_stringify p :
  well_formed (pk_uploads p) = true ->
  Json.parse (JSON_stringify p) = Some (package_value p).
Proof.
  intros W. unfold Json.parse.
  pose proof (reads_package p W (2 + 2 * List.length (JSON_stringify p))%nat []) as R.
  rewrite app_nil_r in R. rewrite R by lia. reflexivity.
Qed.

Lemma obj_get_member {V} (k : jsstring) (o : obj V) (x : V) :
  obj_get k o = Some x -> In (k, x) o.
Proof.
  induction o as [|[k0 v0] r IH]; simpl; [discriminate|].
  destruct (jsstring_eqb k k0) eqn:E.
  - apply jsstring_eqb_eq in E. intros [= ->]. subst. now left.
  - intros H. right. apply IH, H.
Qed.

End ReadbackFacts.
(* ================================================================== *)
(** ** The upload page *)

Module UploadFacts.
Import Upload UploadCases Readback ReadbackFacts.

Lemma existsb_blank_false l :
  (forall n, In n l -> blank n = false) -> existsb blank l = false.
Proof.
  induction l as [|x r IH]; simpl; intros H; [reflexivity|].
  rewrite (H x) by now left. apply IH. intros n Hn. apply H. now right.
Qed.

Lemma existsb_blank_true l n :
  In n l -> blank n = true -> existsb blank l = true.
Proof.
  intros Hin Hb. apply existsb_exists. now exists n.
Qed.

(** *** The uploads object stays in order *)

Lemma handleUpload_well_formed module category files s :
  well_formed (uploads s) = true ->
  well_formed (uploads (handleUpload module category files s)) = true.
Proof.
  unfold well_formed. rewrite !andb_true_iff, !forallb_forall. intros [O I].
  cbn [handleUpload uploads]. split.
  - apply obj_set_ordered, O.
  - intros x Hx. apply in_obj_set in Hx. destruct Hx as [->|Hx]; [|apply I, Hx].
    cbn [snd]. apply obj_set_ordered.
    destruct (obj_get module (uploads s)) as [o|] eqn:G; [|reflexivity].
    apply obj_get_member in G. apply (I _ G).
Qed.

Lemma step_well_formed ev se :
  well_formed (uploads (fst se)) = true ->
  well_formed (uploads (fst (step ev se))) = true.
Proof.
  destruct se as [s e]. cbn [fst]. intros W. destruct ev; cbn [step].
  - exact W.
  - destruct (_ <? _)%nat; exact W.
  - exact W.
  - apply handleUpload_well_formed, W.
  - destruct (nth_error _ _); [apply handleUpload_well_formed|]; exact W.
  - unfold handleSubmit. destruct (blank _); [exact W|].
    destruct (existsb _ _); exact W.
Qed.

(** Whatever the user did since the page was opened, the uploads
    object and the objects in it have their properties in order. *)
Lemma run_well_formed tr : forall se,
  well_formed (uploads (fst se)) = true ->
  well_formed (uploads (fst (run tr se))) = true.
Proof.
  induction tr as [|ev tr IH]; intros se W; [exact W|].
  cbn [run fold_left]. apply IH, step_well_formed, W.
Qed.

(** C6.  With a top-module name that is not blank and N >= 1 distinct
    sub-module names none of which is blank, [handleSubmit] finalizes a
    package whose [subModules] has length N, and [uploadData] in the
    store holds the JSON text of that package and nothing of what it
    held before; no other key is touched and nothing is alerted.  The
    text is tied to the package: when the uploads are in the order the
    page builds them in, [JSON.parse] reads the text back as the value
    of the package (top-module name, sub-module names and the module
    and category keys as they are, each file as an empty object), and
    that value is what the viewer loads from the store. *)
Theorem submit_valid_finalizes_and_persists
  (s : State) (e : Env) (N : nat) :
  blank (topModule s) = false ->
  List.length (subModuleNames s) = N ->
  (1 <= N)%nat ->
  NoDup (subModuleNames s) ->
  (forall n, In n (subModuleNames s) -> blank n = false) ->
  exists p s' e',
    handleSubmit s e = (Finalized p, s', e') /\
    p = mkPackage (topModule s) (subModuleNames s) (uploads s) /\
    List.length (pk_subModules p) = N /\
    getItem (js "uploadData") (localStorage e') = Some (JSON_stringify p) /\
    (well_formed (uploads s) = true ->
       Json.parse (JSON_stringify p) = Some (package_value p) /\
       CodeViewer.load e' JNull = Normal (package_value p)) /\
    (forall k, k <> js "uploadData" ->
               getItem k (localStorage e') = getItem k (localStorage e)) /\
    alerts e' = alerts e.
Proof.
  intros Htop Hlen _ _ Hsubs.
  unfold handleSubmit. rewrite Htop, (existsb_blank_false _ Hsubs).
  eexists _, _, _. split; [reflexivity|].
  split; [reflexivity|]. split; [exact Hlen|].
  assert (G : forall d, getItem (js "uploadData")
                (setItem (js "uploadData") d (localStorage e)) = Some d).
  { intros d. unfold getItem, setItem. now rewrite jsstring_eqb_refl. }
  cbn [localStorage alerts].
  split; [apply G|]. split; [|split; [|reflexivity]].
  - intros W.
    pose proof (parse_stringify
                  (mkPackage (topModule s) (subModuleNames s) (uploads s)) W) as P.
    split; [exact P|].
    unfold CodeViewer.load. cbn [localStorage]. rewrite G.
    replace (str_truthy (JSON_stringify _)) with true by reflexivity.
    rewrite P. reflexivity.
  - intros k Hk. unfold getItem, setItem. now rewrite jsstring_eqb_neq.
Qed.

Lemma submit_valid_finalizes_and_persists_witness :
  exists p s' e',
    handleSubmit (fst scenario) (snd scenario) = (Finalized p, s', e') /\
    p = mkPackage (topModule (fst scenario)) (subModuleNames (fst scenario))
                  (uploads (fst scenario)) /\
    List.length (pk_subModules p) = 2%nat /\
    getItem (js "uploadData") (localStorage e') = Some (JSON_stringify p) /\
    Json.parse (JSON_stringify p) = Some (package_value p) /\
    CodeViewer.load e' JNull = Normal (package_value p) /\
    (forall k, k <> js "uploadData" ->
               getItem k (localStorage e') =
               getItem k (localStorage (snd scenario))) /\
    alerts e' = alerts (snd scenario).
Proof.
  assert (D : NoDup (subModuleNames (fst scenario))).
  { vm_compute. repeat constructor; simpl; intuition discriminate. }
  assert (B : forall n, In n (subModuleNames (fst scenario)) -> blank n = false).
  { vm_compute. intros n [H|[H|[]]]; subst; reflexivity. }
  destruct (submit_valid_finalizes_and_persists
              (fst scenario) (snd scenario) 2 eq_refl eq_refl (le_S 1 1 (le_n 1)) D B)
    as (p & s' & e' & H1 & H2 & H3 & H4 & H5 & H6 & H7).
  destruct (H5 eq_refl) as [P L].
  exists p, s', e'. repeat split; assumption.
Defined.

(** Every page reached from the initial one has its uploads in order:
    what it submits is read back as its value. *)
Lemma reachable_package_read_back tr e :
  let s := fst (run tr (initial, e)) in
  Json.parse (JSON_stringify
                (mkPackage (topModule s) (subModuleNames s) (uploads s)))
  = Some (package_value (mkPackage (topModule s) (subModuleNames s) (uploads s))).
Proof.
  intros s. apply parse_stringify. cbn [pk_uploads].
  apply (run_well_formed tr (initial, e)). reflexivity.
Qed.

(** The scenario's document, read back. *)
Lemma scenario_read_back :
  well_formed (uploads (fst scenario)) = true /\
  CodeViewer.load ViewerCases.submitted JNull =
  Normal (JObj [(js "topModule", JStr (js "ALU"));
                (js "subModules", JArr [JStr (js "FSM"); JStr (js "Decoder")]);
                (js "uploads",
                 JObj [(js "ALU", JObj [(js "spec", JArr [JObj []])])])]).
Proof. split; vm_compute; reflexivity. Qed.

(** The package of the scenario. *)
Lemma scenario_package :
  fst (fst (handleSubmit (fst scenario) (snd scenario)))
  = Finalized (mkPackage (js "ALU") [js "FSM"; js "Decoder"]
                         [(js "ALU", [(js "spec", [f1])])]).
Proof. reflexivity. Qed.

(** C2, as amended.  When some sub-module name is blank, [handleSubmit]
    rejects with an alert, and neither the page state nor the store
    changes. *)
Theorem submit_blank_submodule_rejected (s : State) (e : Env) (n : jsstring) :
  In n (subModuleNames s) ->
  blank n = true ->
  exists msg,
    handleSubmit s e = (Rejected msg, s, alert msg e) /\
    localStorage (alert msg e) = localStorage e.
Proof.
  intros Hin Hb. unfold handleSubmit.
  destruct (blank (topModule s)).
  - eexists. split; reflexivity.
  - rewrite (existsb_blank_true _ _ Hin Hb). eexists. split; reflexivity.
Qed.

Lemma submit_blank_submodule_rejected_witness :
  exists msg,
    handleSubmit (setTopModule (js "ALU") initial) env0
    = (Rejected msg, setTopModule (js "ALU") initial, alert msg env0) /\
    localStorage (alert msg env0) = localStorage env0.
Proof.
  apply (submit_blank_submodule_rejected
           (setTopModule (js "ALU") initial) env0 []).
  - simpl. now left.
  - reflexivity.
Defined.

(** C2 fails as stated: equal sub-module names are not rejected; the
    package is finalized and written to the store. *)
Lemma duplicate_submodule_names_accepted :
  ~ NoDup (subModuleNames (fst duplicate_names)) /\
  (exists p s' e',
     handleSubmit (fst duplicate_names) (snd duplicate_names)
     = (Finalized p, s', e') /\
     pk_subModules p = [js "A"; js "A"] /\
     getItem (js "uploadData") (localStorage e')
     <> getItem (js "uploadData") (localStorage (snd duplicate_names))).
Proof.
  split.
  - vm_compute. intros H. inversion H as [|x l Hn _]; subst.
    apply Hn. now left.
  - eexists _, _, _. split; [reflexivity|]. split; [reflexivity|].
    vm_compute. discriminate.
Qed.

(** C9, as amended.  [setTopModule] stores the name as typed, with no
    alert and no change to the store even when the name is blank; a
    blank name is rejected only by [handleSubmit]; a finalized package
    carries the stored name verbatim, which is then not blank. *)
Theorem top_module_stored_verbatim (name : jsstring) (s : State) (e : Env) :
  topModule (setTopModule name s) = name /\
  step (TypeTopModule name) (s, e) = (setTopModule name s, e) /\
  (blank name = true ->
   handleSubmit (setTopModule name s) e
   = (Rejected (js "Enter top module name"), setTopModule name s,
      alert (js "Enter top module name") e)) /\
  (forall p s' e',
     handleSubmit (setTopModule name s) e = (Finalized p, s', e') ->
     pk_topModule p = name /\ blank name = false).
Proof.
  split; [reflexivity|]. split; [reflexivity|]. split.
  - intros Hb. unfold handleSubmit. simpl. now rewrite Hb.
  - intros p s' e'. unfold handleSubmit. simpl.
    destruct (blank name); [discriminate|].
    destruct (existsb blank (subModuleNames s)); [discriminate|].
    intros H. inversion H. auto.
Qed.

Lemma top_module_stored_verbatim_witness :
  blank (js "  ") = true /\
  handleSubmit (setTopModule (js "  ") initial) env0
  = (Rejected (js "Enter top module name"), setTopModule (js "  ") initial,
     alert (js "Enter top module name") env0).
Proof.
  split; [reflexivity|].
  apply (proj1 (proj2 (proj2
           (top_module_stored_verbatim (js "  ") initial env0)))).
  reflexivity.
Defined.

(** C9 fails as stated: the name is stored untrimmed, and the
    finalized package keeps the surrounding white space. *)
Lemma top_module_not_trimmed :
  topModule (setTopModule (js " ALU ") initial) <> trim (js " ALU ") /\
  (exists p s' e',
     handleSubmit (fst padded_top) (snd padded_top) = (Finalized p, s', e') /\
     pk_topModule p = js " ALU " /\
     pk_topModule p <> trim (pk_topModule p)).
Proof.
  split; [vm_compute; discriminate|].
  eexists _, _, _. split; [reflexivity|]. split; [reflexivity|].
  vm_compute. discriminate.
Qed.

(** C7, as amended.  [handleUpload] accepts every category string:
    the file list of that module and category becomes [files], the
    module's other categories and the other modules keep theirs. *)
Theorem upload_accepts_any_category
  (module category : jsstring) (files : list File) (s : State)
  (module' category' : jsstring) :
  let before := match obj_get module (uploads s) with
                | Some o => o
                | None => []
                end in
  let after := obj_set category files before in
  obj_get module' (uploads (handleUpload module category files s))
  = (if jsstring_eqb module' module then Some after
     else obj_get module' (uploads s)) /\
  obj_get category' after
  = (if jsstring_eqb category' category then Some files
     else obj_get category' before).
Proof.
  intros before after. split.
  - unfold handleUpload. simpl. fold before. fold after.
    destruct (jsstring_eqb module' module) eqn:E.
    + apply jsstring_eqb_eq in E. subst. apply obj_get_set_same.
    + apply obj_get_set_other. intros ->.
      now rewrite jsstring_eqb_refl in E.
  - unfold after. destruct (jsstring_eqb category' category) eqn:E.
    + apply jsstring_eqb_eq in E. subst. apply obj_get_set_same.
    + apply obj_get_set_other. intros ->.
      now rewrite jsstring_eqb_refl in E.
Qed.

(** C7 fails as stated: a category outside every enumeration is
    recorded like any other. *)
Lemma unknown_category_recorded :
  uploads (handleUpload (js "ALU") (js "speck") [f1] initial)
  = [(js "ALU", [(js "speck", [f1])])] /\
  uploads (handleUpload (js "ALU") (js "speck") [f1] initial)
  <> uploads initial.
Proof. split; [reflexivity | discriminate]. Qed.

Lemma run_app tr1 tr2 se : run (tr1 ++ tr2) se = run tr2 (run tr1 se).
Proof. apply fold_left_app. Qed.

Lemma upload_target_names ev s k :
  upload_target ev s = Some k -> names k s.
Proof.
  destruct ev; simpl; try discriminate.
  - intros [= <-]. now left.
  - intros H. right. eapply nth_error_In; eauto.
Qed.

Lemma uploads_keys_step ev s e k :
  In k (obj_keys (uploads (fst (step ev (s, e))))) ->
  In k (obj_keys (uploads s)) \/ upload_target ev s = Some k.
Proof.
  destruct ev as [v|idx v|parsed|c files|idx files|]; simpl.
  - auto.
  - destruct (idx <? List.length (subModuleNames s))%nat; simpl; auto.
  - auto.
  - intros H. apply in_obj_keys_set in H as [->|H]; auto.
  - destruct (nth_error (subModuleNames s) idx) as [name|] eqn:E; simpl; [|auto].
    intros H. apply in_obj_keys_set in H as [->|H]; auto.
  - unfold handleSubmit.
    destruct (blank (topModule s)); simpl; [auto|].
    destruct (existsb blank (subModuleNames s)); simpl; auto.
Qed.

Lemma uploads_keys_history tr se k :
  In k (obj_keys (uploads (fst (run tr se)))) ->
  In k (obj_keys (uploads (fst se))) \/
  exists tr1 ev tr2,
    tr = tr1 ++ ev :: tr2 /\ upload_target ev (fst (run tr1 se)) = Some k.
Proof.
  induction tr as [|ev tr IH] using rev_ind; simpl; [auto|].
  rewrite run_app. simpl. destruct (run tr se) as [s e] eqn:E.
  intros H. apply uploads_keys_step in H as [H|H].
  - simpl in IH. destruct (IH H) as [G|(tr1 & ev1 & tr2 & -> & G)]; [auto|].
    right. exists tr1, ev1, (tr2 ++ [ev]).
    now rewrite <- app_assoc.
  - right. exists tr, ev, []. rewrite E. auto.
Qed.

(** C3, as amended.  Each key of the [uploads] of a finalized package
    is the name under which some earlier event recorded files: the
    top-module name or a sub-module name of the page at that moment.
    It need not be one of the package's names. *)
Theorem finalized_upload_keys_were_names
  (tr : list event) (e0 : Env) (s : State) (e : Env)
  (p : UploadPackage) (s' : State) (e' : Env) (k : jsstring) :
  run tr (initial, e0) = (s, e) ->
  handleSubmit s e = (Finalized p, s', e') ->
  In k (obj_keys (pk_uploads p)) ->
  exists tr1 ev tr2,
    tr = tr1 ++ ev :: tr2 /\
    upload_target ev (fst (run tr1 (initial, e0))) = Some k /\
    names k (fst (run tr1 (initial, e0))).
Proof.
  intros Hrun Hsub Hk.
  assert (Hp : pk_uploads p = uploads s).
  { unfold handleSubmit in Hsub.
    destruct (blank (topModule s)); [discriminate|].
    destruct (existsb blank (subModuleNames s)); [discriminate|].
    inversion Hsub. reflexivity. }
  rewrite Hp in Hk.
  destruct (uploads_keys_history tr (initial, e0) k) as [H|H].
  - now rewrite Hrun.
  - destruct H.
  - destruct H as (tr1 & ev & tr2 & Htr & Ht).
    exists tr1, ev, tr2. split; [exact Htr|]. split; [exact Ht|].
    now apply (upload_target_names ev).
Qed.

Lemma finalized_upload_keys_were_names_witness :
  exists tr1 ev tr2,
    early_upload = tr1 ++ ev :: tr2 /\
    upload_target ev (fst (run tr1 (initial, env0))) = Some [] /\
    names [] (fst (run tr1 (initial, env0))).
Proof.
  apply (finalized_upload_keys_were_names early_upload env0
           (fst (run early_upload (initial, env0)))
           (snd (run early_upload (initial, env0)))
           (mkPackage (js "ALU") [js "FSM"] [([], [(js "spec", [f1])])])
           (fst (step ClickSubmit (run early_upload (initial, env0))))
           (snd (step ClickSubmit (run early_upload (initial, env0))))
           []).
  - reflexivity.
  - reflexivity.
  - simpl. now left.
Defined.

(** C3 fails as stated: the upload recorded before the top module was
    named stays in the finalized package under the empty key, which is
    neither its [topModule] nor one of its [subModules]. *)
Lemma stale_upload_key_survives :
  exists p s' e',
    handleSubmit (fst (run early_upload (initial, env0)))
                 (snd (run early_upload (initial, env0)))
    = (Finalized p, s', e') /\
    In [] (obj_keys (pk_uploads p)) /\
    [] <> pk_topModule p /\
    ~ In [] (pk_subModules p).
Proof.
  eexists _, _, _. split; [reflexivity|]. simpl.
  split; [now left|]. split; [discriminate|].
  intros [H|[]]. discriminate.
Qed.

End UploadFacts.

(* ================================================================== *)
(** ** The status panel *)

Module StatusPanelFacts.
Import StatusPanel StatusPanelInv.

(** *** Closures and their [mounted] flags *)

Lemma unmount_effect_length i l :
  List.length (unmount_effect i l) = List.length l.
Proof.
  revert i. induction l as [|e r IH]; intros [|i]; simpl; auto.
Qed.

Lemma unmount_effect_same i l e :
  nth_error l i = Some e ->
  nth_error (unmount_effect i l) i
  = Some (mkEffect (eff_taskId e) false (interval e) (logInterval e)).
Proof.
  revert i. induction l as [|x r IH]; intros [|i]; simpl; try discriminate.
  - now intros [= ->].
  - apply IH.
Qed.

Lemma unmount_effect_other i j l :
  j <> i -> nth_error (unmount_effect i l) j = nth_error l j.
Proof.
  revert i j. induction l as [|x r IH]; intros [|i] [|j]; simpl; auto;
    try congruence.
Qed.

Lemma wf_idle_quiescent s : wf s -> current s = None -> quiescent s.
Proof.
  intros W Hc. split; [|split; [|exact Hc]].
  - intros i. destruct (effect_mounted s i) eqn:E; [|reflexivity].
    apply (wf_mounted s W) in E. congruence.
  - destruct (timers s) as [|tm r] eqn:E; [reflexivity|].
    destruct (wf_timers s W tm) as (e & H & _); [rewrite E; now left|].
    congruence.
Qed.

Lemma clearInterval_none id ts :
  (forall tm, In tm ts -> tm_id tm = id) -> clearInterval id ts = [].
Proof.
  unfold clearInterval.
  induction ts as [|tm r IH]; simpl; intros H; [reflexivity|].
  rewrite (H tm) by now left. rewrite Nat.eqb_refl. simpl.
  apply IH. intros x Hx. apply H. now right.
Qed.

Lemma clearInterval_in id ts tm :
  In tm (clearInterval id ts) -> In tm ts /\ tm_id tm <> id.
Proof.
  unfold clearInterval. rewrite filter_In. intros [H1 H2]. split; [exact H1|].
  intros E. rewrite E, Nat.eqb_refl in H2. discriminate.
Qed.

(** The cleanup leaves nothing mounted and nothing armed, and does not
    touch the requests in flight. *)
Lemma cleanup_quiescent s :
  wf s ->
  quiescent (cleanup s) /\
  inflight (cleanup s) = inflight s /\
  next_req (cleanup s) = next_req s /\
  List.length (effects (cleanup s)) = List.length (effects s) /\
  snapshot (cleanup s) = snapshot s /\
  alive (cleanup s) = alive s /\
  now (cleanup s) = now s /\
  taskId (cleanup s) = taskId s.
Proof.
  intros W. unfold cleanup.
  destruct (current s) as [i|] eqn:Hc.
  - destruct (nth_error (effects s) i) as [e|] eqn:He.
    + split; [|simpl; rewrite unmount_effect_length; repeat split; reflexivity].
      split; [|split; [|reflexivity]].
      * intros j. unfold effect_mounted. simpl.
        destruct (Nat.eq_dec j i) as [->|Hne].
        -- now rewrite (unmount_effect_same _ _ _ He).
        -- rewrite unmount_effect_other by assumption.
           destruct (nth_error (effects s) j) as [e'|] eqn:E; [|reflexivity].
           destruct (mounted e') eqn:M; [|reflexivity].
           assert (G : effect_mounted s j = true)
             by (unfold effect_mounted; now rewrite E).
           apply (wf_mounted s W) in G. congruence.
      * simpl.
        destruct (clearInterval (logInterval e)
                    (clearInterval (interval e) (timers s))) as [|tm r] eqn:E;
          [reflexivity|].
        assert (Hin : In tm (clearInterval (logInterval e)
                               (clearInterval (interval e) (timers s))))
          by (rewrite E; now left).
        apply clearInterval_in in Hin as [Hin H2].
        apply clearInterval_in in Hin as [Hin H1].
        destruct (wf_timers s W tm Hin) as (e' & Hcur & Hnth & Hid).
        assert (tm_effect tm = i) by congruence. subst i.
        assert (e' = e) by congruence. subst e'. tauto.
    + apply (wf_current s W) in Hc. apply nth_error_None in He. lia.
  - split; [now apply wf_idle_quiescent|]. repeat split; reflexivity.
Qed.

Lemma effect_mounted_app_old s i e :
  (i < List.length (effects s))%nat ->
  nth_error (effects s ++ [e]) i = nth_error (effects s) i.
Proof. intros H. now apply nth_error_app1. Qed.

(** Running the effect body on a quiescent, living panel. *)
Lemma run_effect_wf s :
  alive s = true ->
  quiescent s ->
  (forall rq, In rq (inflight s) ->
     (req_effect rq < List.length (effects s))%nat /\
     (req_id rq < next_req s)%nat) ->
  wf (run_effect s).
Proof.
  intros Ha (Hm & Ht & Hc) Hreq. unfold run_effect.
  assert (Idle : prop_truthy (taskId s) = false ->
                 wf (mkState (alive s) (taskId s) (status s) (progress s)
                       (logs s) (effects s) None (timers s) (next_timer s)
                       (inflight s) (next_req s) (now s) (console_errors s))).
  { intros Hp. constructor; simpl.
    - intros i H. unfold effect_mounted in H. simpl in H.
      specialize (Hm i). unfold effect_mounted in Hm. congruence.
    - exact Hreq.
    - rewrite Ht. intros tm [].
    - discriminate.
    - reflexivity.
    - auto. }
  destruct (taskId s) as [id|] eqn:Ht0; [|now apply Idle].
  destruct (str_truthy id) eqn:Hid; [|now apply Idle].
  constructor; simpl.
  - intros i. unfold effect_mounted. simpl.
    destruct (Nat.lt_ge_cases i (List.length (effects s))) as [L|G].
    + rewrite nth_error_app1 by assumption. intros H.
      specialize (Hm i). unfold effect_mounted in Hm. congruence.
    + destruct (Nat.eq_dec i (List.length (effects s))) as [->|Hne];
        [reflexivity|].
      rewrite (proj2 (nth_error_None _ _)); [discriminate|].
      rewrite length_app. simpl. lia.
  - intros rq H. rewrite length_app. simpl.
    destruct (Hreq rq H). lia.
  - rewrite Ht. simpl.
    intros tm [<-|[<-|[]]]; simpl;
      exists (mkEffect id true (next_timer s) (S (next_timer s)));
      (split; [reflexivity|]);
      (split; [rewrite nth_error_app2, Nat.sub_diag by lia; reflexivity|]);
      simpl; auto.
  - intros i [= <-]. rewrite length_app. simpl. lia.
  - congruence.
  - discriminate.
Qed.

Lemma wf_mount t : wf (mount t).
Proof.
  unfold mount. apply run_effect_wf.
  - reflexivity.
  - split; [|split; reflexivity].
    intros i. unfold effect_mounted. simpl. now destruct i.
  - intros rq [].
Qed.

Lemma wf_setTaskId t s : wf s -> wf (setTaskId t s).
Proof.
  intros W. unfold setTaskId.
  destruct (alive s) eqn:Ha; simpl; [|exact W].
  destruct (prop_eqb t (taskId s)); [exact W|].
  destruct (cleanup_quiescent s W)
    as ((Hm & Ht & Hc) & Hi & Hn & Hl & _ & Hal & _).
  apply run_effect_wf; simpl.
  - congruence.
  - split; [exact Hm | split; [exact Ht | exact Hc]].
  - rewrite Hi, Hn, Hl. apply (wf_inflight s W).
Qed.

Lemma wf_unmount s : wf s -> wf (unmount s).
Proof.
  intros W. unfold unmount.
  destruct (cleanup_quiescent s W) as ((Hm & Ht & Hc) & Hi & Hn & Hl & _).
  constructor; simpl.
  - intros i H. specialize (Hm i). unfold effect_mounted in *. simpl in H.
    congruence.
  - rewrite Hi, Hn, Hl. apply (wf_inflight s W).
  - rewrite Ht. intros tm [].
  - discriminate.
  - reflexivity.
  - discriminate.
Qed.

(** *** Timers *)

Lemma fire_fold t effs ts : forall done reqs n,
  exists new,
    fold_left (fire t effs) ts (done, reqs, n)
    = (done ++ map (rearm t) ts, reqs ++ new, (n + List.length new)%nat) /\
    (forall rq, In rq new ->
       (n <= req_id rq < n + List.length new)%nat /\
       exists tm, In tm ts /\ req_effect rq = tm_effect tm /\
                  (tm_due tm <= t)%nat).
Proof.
  induction ts as [|tm r IH]; intros done reqs n; simpl.
  - exists []. simpl. rewrite !app_nil_r, Nat.add_0_r. split; [reflexivity|].
    intros rq [].
  - unfold rearm at 1. destruct (tm_due tm <=? t)%nat eqn:E.
    + destruct (IH (done ++ [mkTimer (tm_id tm) (tm_effect tm) (tm_kind tm)
                                     (t + tm_period tm) (tm_period tm)])
                   (reqs ++ [mkRequest n (tm_effect tm) (tm_kind tm)
                               match nth_error effs (tm_effect tm) with
                               | Some e => eff_taskId e
                               | None => []
                               end])
                   (S n)) as (new & Hf & Hnew).
      eexists (_ :: new). rewrite Hf. rewrite <- !app_assoc. simpl.
      split; [f_equal; lia|].
      intros rq [<-|H]; simpl.
      * split; [lia|]. exists tm. apply Nat.leb_le in E. auto.
      * destruct (Hnew rq H) as (Hid & tm' & Hin & He & Hd).
        split; [lia|]. exists tm'. auto.
    + destruct (IH (done ++ [tm]) reqs n) as (new & Hf & Hnew).
      exists new. rewrite Hf, <- app_assoc. split; [reflexivity|].
      intros rq H. destruct (Hnew rq H) as (Hid & tm' & Hin & He & Hd).
      split; [exact Hid|]. exists tm'. auto.
Qed.

(** One millisecond: the requests started are those of the timers that
    came due; nothing else changes but the clock and the due times. *)
Lemma tick_spec s :
  exists new,
    tick s = mkState (alive s) (taskId s) (status s) (progress s) (logs s)
               (effects s) (current s) (map (rearm (S (now s))) (timers s))
               (next_timer s) (inflight s ++ new)
               (next_req s + List.length new) (S (now s)) (console_errors s) /\
    (forall rq, In rq new ->
       (next_req s <= req_id rq < next_req s + List.length new)%nat /\
       exists tm, In tm (timers s) /\ req_effect rq = tm_effect tm /\
                  (tm_due tm <= S (now s))%nat).
Proof.
  unfold tick.
  destruct (fire_fold (S (now s)) (effects s) (timers s) [] (inflight s)
              (next_req s)) as (new & Hf & Hnew).
  exists new. rewrite Hf. simpl. split; [reflexivity | exact Hnew].
Qed.

Lemma rearm_id t tm : tm_id (rearm t tm) = tm_id tm.
Proof. unfold rearm. now destruct (tm_due tm <=? t)%nat. Qed.

Lemma rearm_effect t tm : tm_effect (rearm t tm) = tm_effect tm.
Proof. unfold rearm. now destruct (tm_due tm <=? t)%nat. Qed.

Lemma wf_tick s : wf s -> wf (tick s).
Proof.
  intros W. destruct (tick_spec s) as (new & -> & Hnew).
  constructor; simpl.
  - apply (wf_mounted s W).
  - intros rq H. apply in_app_iff in H as [H|H].
    + destruct (wf_inflight s W rq H). lia.
    + destruct (Hnew rq H) as (Hid & tm & Hin & He & _).
      destruct (wf_timers s W tm Hin) as (e & _ & Hnth & _).
      split; [|lia]. rewrite He. apply nth_error_Some. congruence.
  - intros tm H. apply in_map_iff in H as (tm0 & <- & Hin).
    rewrite rearm_id, rearm_effect. apply (wf_timers s W tm0 Hin).
  - apply (wf_current s W).
  - apply (wf_dead s W).
  - apply (wf_prop s W).
Qed.

Lemma wf_elapse ms s : wf s -> wf (elapse ms s).
Proof.
  intros W. unfold elapse. induction ms as [|ms IH]; simpl; [exact W|].
  now apply wf_tick.
Qed.

(** *** Responses *)

Lemma find_request_some rid l rq :
  find_request rid l = Some rq -> In rq l /\ req_id rq = rid.
Proof.
  induction l as [|x r IH]; simpl; [discriminate|].
  destruct (req_id x =? rid)%nat eqn:E.
  - intros [= ->]. apply Nat.eqb_eq in E. auto.
  - intros H. destruct (IH H). auto.
Qed.

Lemma find_request_in rid l rq :
  In rq l -> req_id rq = rid -> exists rq', find_request rid l = Some rq'.
Proof.
  induction l as [|x r IH]; simpl; [tauto|].
  intros [->|H] Hid.
  - rewrite Hid, Nat.eqb_refl. eauto.
  - destruct (req_id x =? rid)%nat; eauto.
Qed.

Ltac break_respond :=
  unfold respond, status_continuation, logs_continuation;
  repeat match goal with
         | |- context [match ?x with _ => _ end] => destruct x eqn:?
         end; simpl.

(** A response touches neither the closures nor the timers, and starts
    no request. *)
Lemma respond_frame rid r s :
  effects (respond rid r s) = effects s /\
  current (respond rid r s) = current s /\
  timers (respond rid r s) = timers s /\
  next_req (respond rid r s) = next_req s /\
  alive (respond rid r s) = alive s /\
  taskId (respond rid r s) = taskId s /\
  (forall rq, In rq (inflight (respond rid r s)) -> In rq (inflight s)).
Proof.
  assert (F : forall rq, In rq (remove_request rid (inflight s)) ->
                         In rq (inflight s)).
  { intros rq H. unfold remove_request in H. now apply filter_In in H. }
  break_respond; repeat split; auto.
Qed.

Lemma effect_mounted_frame s s' i :
  effects s' = effects s -> effect_mounted s' i = effect_mounted s i.
Proof. unfold effect_mounted. now intros ->. Qed.

Lemma wf_respond rid r s : wf s -> wf (respond rid r s).
Proof.
  intros W.
  destruct (respond_frame rid r s) as (He & Hc & Ht & Hn & Ha & Hp & Hi).
  constructor.
  - intros i. rewrite (effect_mounted_frame _ _ _ He), Hc.
    apply (wf_mounted s W).
  - intros rq H. rewrite He, Hn. apply (wf_inflight s W). auto.
  - rewrite Ht, Hc, He. apply (wf_timers s W).
  - rewrite Hc, He. apply (wf_current s W).
  - rewrite Ha, Hc. apply (wf_dead s W).
  - rewrite Ha, Hc, Hp. apply (wf_prop s W).
Qed.

Lemma wf_step ev s : wf s -> wf (step ev s).
Proof.
  destruct ev; simpl.
  - apply wf_setTaskId.
  - apply wf_unmount.
  - apply wf_elapse.
  - apply wf_respond.
Qed.

Lemma wf_run tr s : wf s -> wf (run tr s).
Proof.
  revert s. induction tr as [|ev tr IH]; simpl; intros s W; [exact W|].
  apply IH. now apply wf_step.
Qed.

Lemma reachable_wf s : reachable s -> wf s.
Proof. intros (t & tr & ->). apply wf_run, wf_mount. Qed.

(** The continuation of a request whose closure is no longer mounted
    returns before any setter. *)
Lemma respond_unmounted rid r s :
  (forall rq, find_request rid (inflight s) = Some rq ->
              effect_mounted s (req_effect rq) = false) ->
  snapshot (respond rid r s) = snapshot s.
Proof.
  intros H. unfold respond.
  destruct (find_request rid (inflight s)) as [rq|]; [|reflexivity].
  specialize (H rq eq_refl).
  destruct (req_kind rq); unfold status_continuation, logs_continuation;
    destruct r; try reflexivity;
    unfold effect_mounted in *; simpl; rewrite H; reflexivity.
Qed.

(** *** Staleness *)

Lemma quiescent_stale s n :
  quiescent s -> (n <= next_req s)%nat -> stale_below n s.
Proof. intros (Hm & _) Hn. split; [exact Hn|]. intros rq _ _. apply Hm. Qed.

Lemma run_effect_frame s :
  inflight (run_effect s) = inflight s /\
  next_req (run_effect s) = next_req s /\
  snapshot (run_effect s) = snapshot s /\
  (forall i, (i < List.length (effects s))%nat ->
             effect_mounted (run_effect s) i = effect_mounted s i).
Proof.
  unfold run_effect.
  destruct (taskId s) as [id|]; [destruct (str_truthy id)|];
    simpl; repeat split; auto.
  intros i Hi. unfold effect_mounted. simpl. now rewrite nth_error_app1.
Qed.

(** After the cleanup has run, whether for a new task id or for the
    unmount, every request then in flight is stale. *)
Lemma rebind_makes_stale t s :
  wf s -> prop_eqb t (taskId s) = false ->
  stale_below (next_req s) (setTaskId t s) /\
  inflight (setTaskId t s) = inflight s.
Proof.
  intros W Hne. unfold setTaskId. rewrite Hne.
  destruct (alive s) eqn:Ha; simpl.
  - destruct (cleanup_quiescent s W)
      as ((Hm & Ht & Hc) & Hi & Hn & Hl & _).
    match goal with |- context [run_effect ?x] => set (s1 := x) end.
    destruct (run_effect_frame s1) as (Fi & Fn & _ & Fm).
    unfold stale_below. rewrite Fi, Fn. simpl. rewrite Hi, Hn.
    split; [|reflexivity]. split; [lia|].
    intros rq Hin _. rewrite Fm.
    + apply Hm.
    + simpl. rewrite Hl. now apply (wf_inflight s W).
  - split; [|reflexivity].
    apply quiescent_stale; [|lia].
    apply wf_idle_quiescent; [exact W | now apply (wf_dead s W)].
Qed.

Lemma unmount_makes_stale s :
  wf s ->
  stale_below (next_req s) (unmount s) /\ inflight (unmount s) = inflight s.
Proof.
  intros W. unfold unmount.
  destruct (cleanup_quiescent s W) as ((Hm & Ht & Hc) & Hi & Hn & Hl & _).
  unfold stale_below. simpl. rewrite Hi, Hn.
  split; [|reflexivity]. split; [lia|].
  intros rq _ _. specialize (Hm (req_effect rq)).
  unfold effect_mounted in *. exact Hm.
Qed.

Lemma stale_setTaskId n t s :
  wf s -> stale_below n s -> stale_below n (setTaskId t s).
Proof.
  intros W (Hn & Hs). unfold setTaskId.
  destruct (negb (alive s)); [now split|].
  destruct (prop_eqb t (taskId s)); [now split|].
  destruct (cleanup_quiescent s W) as ((Hm & Ht & Hc) & Hi & Hnx & Hl & _).
  match goal with |- context [run_effect ?x] => set (s1 := x) end.
  destruct (run_effect_frame s1) as (Fi & Fn & _ & Fm).
  split; [rewrite Fn; simpl; lia|].
  rewrite Fi. simpl. rewrite Hi. intros rq Hin _. rewrite Fm.
  - apply Hm.
  - simpl. rewrite Hl. now apply (wf_inflight s W).
Qed.

Lemma stale_unmount n s :
  wf s -> stale_below n s -> stale_below n (unmount s).
Proof.
  intros W (Hn & Hs).
  destruct (unmount_makes_stale s W) as ((_ & H) & Hi).
  split.
  - unfold unmount. simpl.
    destruct (cleanup_quiescent s W) as (_ & _ & Hnx & _). lia.
  - intros rq Hin _. apply H; [exact Hin|].
    rewrite Hi in Hin. now apply (wf_inflight s W).
Qed.

Lemma stale_tick n s : stale_below n s -> stale_below n (tick s).
Proof.
  intros (Hn & Hs). destruct (tick_spec s) as (new & -> & Hnew).
  split; simpl; [lia|].
  intros rq Hin Hid. apply in_app_iff in Hin as [Hin|Hin].
  - apply (Hs rq Hin Hid).
  - destruct (Hnew rq Hin). lia.
Qed.

Lemma stale_elapse n ms s : stale_below n s -> stale_below n (elapse ms s).
Proof.
  intros H. unfold elapse. induction ms; simpl; [exact H|].
  now apply stale_tick.
Qed.

Lemma stale_respond n rid r s :
  stale_below n s -> stale_below n (respond rid r s).
Proof.
  intros (Hn & Hs).
  destruct (respond_frame rid r s) as (He & _ & _ & Hnx & _ & _ & Hi).
  split; [lia|].
  intros rq Hin Hid. rewrite (effect_mounted_frame _ _ _ He). auto.
Qed.

Lemma stale_run n tr s :
  wf s -> stale_below n s -> stale_below n (run tr s).
Proof.
  revert s. induction tr as [|ev tr IH]; simpl; intros s W H; [exact H|].
  apply IH; [now apply wf_step|].
  destruct ev; simpl.
  - now apply stale_setTaskId.
  - now apply stale_unmount.
  - now apply stale_elapse.
  - now apply stale_respond.
Qed.

(** C1.  Take any request in flight when the panel is unmounted or is
    given a different task id.  Whatever happens next, and whenever and
    however that request then completes, the snapshot (status,
    progress, logs) is the same after the completion as before it. *)
Theorem stale_completion_discarded
  (t0 : option jsstring) (before : list event) (ev : event)
  (after : list event) (rq : Request) (r : Response) :
  let s := run before (mount t0) in
  In rq (inflight s) ->
  (ev = Unmount \/
   exists B, ev = SetTaskId B /\ prop_eqb B (taskId s) = false) ->
  let s2 := run after (step ev s) in
  snapshot (step (Respond (req_id rq) r) s2) = snapshot s2.
Proof.
  intros s Hin Hev s2.
  assert (W : wf s) by apply wf_run, wf_mount.
  assert (St : stale_below (next_req s) (step ev s)).
  { destruct Hev as [->|(B & -> & Hne)]; simpl.
    - apply (unmount_makes_stale s W).
    - now apply rebind_makes_stale. }
  assert (St2 : stale_below (next_req s) s2).
  { apply stale_run; [now apply wf_step | exact St]. }
  simpl. apply respond_unmounted.
  intros rq' Hf. apply find_request_some in Hf as [Hin' Hid].
  apply (proj2 St2 rq' Hin'). rewrite Hid.
  now apply (wf_inflight s W).
Qed.

Lemma stale_completion_discarded_witness :
  snapshot
    (step (Respond 0 (Ok StatusPanelCases.running_10))
       (run [Elapse 1500]
          (step (SetTaskId (Some (js "t-2")))
             (run StatusPanelCases.polling_t1 (mount (Some (js "t-1")))))))
  = snapshot
      (run [Elapse 1500]
         (step (SetTaskId (Some (js "t-2")))
            (run StatusPanelCases.polling_t1 (mount (Some (js "t-1")))))).
Proof.
  apply (stale_completion_discarded (Some (js "t-1"))
           StatusPanelCases.polling_t1 (SetTaskId (Some (js "t-2")))
           [Elapse 1500] (mkRequest 0 0 StatusFetch (js "t-1"))
           (Ok StatusPanelCases.running_10)).
  - vm_compute. left. reflexivity.
  - right. exists (Some (js "t-2")). split; [reflexivity|]. vm_compute.
    reflexivity.
Defined.

(** C8.  When a logs request of the mounted closure completes with a
    body, [logs] becomes the body's [logs] whatever it held before, and
    [status] and [progress] keep their values; when the request fails
    the snapshot is unchanged. *)
Theorem logs_overwritten_wholesale (s : State) (rid : nat) (rq : Request) :
  find_request rid (inflight s) = Some rq ->
  req_kind rq = LogsFetch ->
  effect_mounted s (req_effect rq) = true ->
  (forall data fetched,
     get_static data (js "logs") = Normal fetched ->
     snapshot (respond rid (Ok data) s) = (status s, progress s, fetched)) /\
  snapshot (respond rid Failed s) = snapshot s.
Proof.
  intros Hf Hk Hm. unfold respond. rewrite Hf, Hk. split.
  - intros data fetched Hg. unfold logs_continuation.
    unfold effect_mounted in *. simpl. rewrite Hm, Hg. reflexivity.
  - reflexivity.
Qed.

Lemma logs_overwritten_wholesale_witness :
  logs StatusPanelCases.after_two_seconds = JStr [] /\
  snapshot (respond 1 (Ok (StatusPanelCases.logs_body (js "init")))
              StatusPanelCases.after_two_seconds)
  = (JStr (js "running"), JNum 10 0, JStr (js "init")) /\
  snapshot (respond 1 Failed StatusPanelCases.after_two_seconds)
  = snapshot StatusPanelCases.after_two_seconds.
Proof.
  split; [vm_compute; reflexivity|].
  destruct (logs_overwritten_wholesale StatusPanelCases.after_two_seconds 1
              (mkRequest 1 0 LogsFetch (js "t-1"))) as [Hok Hfail].
  - vm_compute. reflexivity.
  - reflexivity.
  - vm_compute. reflexivity.
  - split; [|exact Hfail].
    rewrite (Hok (StatusPanelCases.logs_body (js "init")) (JStr (js "init")));
      [vm_compute; reflexivity | reflexivity].
Defined.

(** The scenario of the specification: the first status and logs
    responses give the same snapshot in either order of arrival. *)
Lemma first_responses_commute :
  let s := elapse 2000 (mount (Some (js "t-1"))) in
  let st := Ok StatusPanelCases.running_10 in
  let lg := Ok (StatusPanelCases.logs_body (js "init")) in
  snapshot (respond 1 lg (respond 0 st s))
  = (JStr (js "running"), JNum 10 0, JStr (js "init")) /\
  snapshot (respond 0 st (respond 1 lg s))
  = (JStr (js "running"), JNum 10 0, JStr (js "init")).
Proof. vm_compute. split; reflexivity. Qed.

(** *** The first fetches *)

Lemma elapse_S d s : elapse (S d) s = tick (elapse d s).
Proof. reflexivity. Qed.

Lemma elapse_add a b s : elapse (a + b) s = elapse a (elapse b s).
Proof.
  unfold elapse. induction a as [|a IH]; simpl; [reflexivity|].
  now rewrite IH.
Qed.

Lemma advance_0 s : advance 0 s = s.
Proof. unfold advance. rewrite Nat.add_0_r. now destruct s. Qed.

(** While no timer is due, only the clock moves. *)
Lemma tick_quiet s :
  (forall tm, In tm (timers s) -> (S (now s) < tm_due tm)%nat) ->
  tick s = advance 1 s.
Proof.
  intros H. destruct (tick_spec s) as (new & -> & Hnew).
  assert (new = []) as ->.
  { destruct new as [|rq r]; [reflexivity|].
    destruct (Hnew rq (or_introl eq_refl)) as (_ & tm & Hin & _ & Hd).
    specialize (H tm Hin). lia. }
  unfold advance. simpl. rewrite app_nil_r, Nat.add_0_r, Nat.add_1_r.
  f_equal.
  rewrite <- (map_id (timers s)) at 2. apply map_ext_in.
  intros tm Hin. unfold rearm.
  destruct (tm_due tm <=? S (now s))%nat eqn:E; [|reflexivity].
  apply Nat.leb_le in E. specialize (H tm Hin). lia.
Qed.

Lemma elapse_quiet d s :
  (forall tm, In tm (timers s) -> (now s + d < tm_due tm)%nat) ->
  elapse d s = advance d s.
Proof.
  induction d as [|d IH]; intros H.
  - now rewrite advance_0.
  - rewrite elapse_S, IH.
    + rewrite tick_quiet.
      * unfold advance. simpl. f_equal. lia.
      * simpl. intros tm Hin. specialize (H tm Hin). lia.
    + intros tm Hin. specialize (H tm Hin). lia.
Qed.

(** One millisecond on a panel with two timers. *)
Lemma tick_two s A B :
  timers s = [A; B] ->
  let t := S (now s) in
  let task tm := match nth_error (effects s) (tm_effect tm) with
                 | Some e => eff_taskId e
                 | None => []
                 end in
  let fa := (tm_due A <=? t)%nat in
  let fb := (tm_due B <=? t)%nat in
  let na := if fa then S (next_req s) else next_req s in
  tick s
  = mkState (alive s) (taskId s) (status s) (progress s) (logs s)
      (effects s) (current s) [rearm t A; rearm t B] (next_timer s)
      ((inflight s
        ++ (if fa then [mkRequest (next_req s) (tm_effect A) (tm_kind A)
                                  (task A)]
            else []))
        ++ (if fb then [mkRequest na (tm_effect B) (tm_kind B) (task B)]
            else []))
      (if fb then S na else na) t (console_errors s).
Proof.
  intros H t task fa fb na. unfold tick. rewrite H.
  unfold na, fa, fb, task, t, rearm. cbn [fold_left fire].
  destruct (tm_due A <=? S (now s))%nat eqn:Ea;
    cbn [fire]; destruct (tm_due B <=? S (now s))%nat eqn:Eb;
    rewrite ?app_nil_r; reflexivity.
Qed.

Ltac decide_leb :=
  repeat match goal with
         | |- context [(?a <=? ?b)%nat] =>
             destruct (Nat.leb_spec a b);
             try (exfalso; unfold T_status, T_logs in *; lia)
         end.

(** What [start] makes of an idle panel. *)
Lemma start_idle (s : State) (h : jsstring) :
  wf s -> phase s = Idle -> h <> [] ->
  start h s
  = mkState true (Some h) (status s) (progress s) (logs s)
      (effects s ++ [mkEffect h true (next_timer s) (S (next_timer s))])
      (Some (List.length (effects s)))
      [mkTimer (next_timer s) (List.length (effects s)) StatusFetch
               (now s + T_status) T_status;
       mkTimer (S (next_timer s)) (List.length (effects s)) LogsFetch
               (now s + T_logs) T_logs]
      (S (S (next_timer s))) (inflight s) (next_req s) (now s)
      (console_errors s).
Proof.
  intros W Hp Hh. unfold phase in Hp.
  destruct (alive s) eqn:Ha; simpl in Hp; [|discriminate].
  destruct (current s) eqn:Hc; [discriminate|].
  pose proof (wf_prop s W Ha Hc) as Hfalsy.
  destruct (wf_idle_quiescent s W Hc) as (_ & Ht & _).
  assert (Hpe : prop_eqb (Some h) (taskId s) = false).
  { destruct (taskId s) as [id|]; simpl in *; [|reflexivity].
    destruct id; [|discriminate]. apply jsstring_eqb_neq. exact Hh. }
  unfold start, setTaskId. rewrite Ha. cbn [negb]. rewrite Hpe.
  unfold cleanup. rewrite Hc. unfold run_effect. simpl.
  destruct h as [|c h]; [congruence|]. simpl. rewrite Ht, Ha. reflexivity.
Qed.

(** C5, as amended.  [start(h)] with a non-empty task id takes an idle
    panel to Active and arms the two intervals, and starts no request
    itself.  During the first T_status ms no request is started; from
    T_status ms on and before T_logs ms exactly the first status request
    has been started; from T_logs ms on and before the second status
    tick (2 T_status ms) exactly the first status request and the first
    logs request have been started.  So the first status request is
    started when T_status ms have passed and the first logs request
    when T_logs ms have passed, neither earlier nor later. *)
Theorem start_arms_timers_without_fetching (s : State) (h : jsstring) :
  reachable s ->
  phase s = Idle ->
  h <> [] ->
  let me := List.length (effects s) in
  let first_status := mkRequest (next_req s) me StatusFetch h in
  let first_logs := mkRequest (S (next_req s)) me LogsFetch h in
  phase (start h s) = Active /\
  inflight (start h s) = inflight s /\
  next_req (start h s) = next_req s /\
  (forall d, (d < T_status)%nat ->
     inflight (elapse d (start h s)) = inflight s /\
     next_req (elapse d (start h s)) = next_req s) /\
  inflight (elapse T_status (start h s)) = inflight s ++ [first_status] /\
  inflight (elapse T_logs (start h s))
  = inflight s ++ [first_status; first_logs] /\
  (forall d, (T_status <= d < T_logs)%nat ->
     inflight (elapse d (start h s)) = inflight s ++ [first_status] /\
     next_req (elapse d (start h s)) = S (next_req s)) /\
  (forall d, (T_logs <= d < 2 * T_status)%nat ->
     inflight (elapse d (start h s)) = inflight s ++ [first_status; first_logs] /\
     next_req (elapse d (start h s)) = S (S (next_req s))).
Proof.
  intros R Hp Hh me first_status first_logs.
  pose proof (reachable_wf s R) as W.
  rewrite (start_idle s h W Hp Hh).
  set (s1 := mkState _ _ _ _ _ _ _ _ _ _ _ _ _).
  assert (Q : forall d, (d < T_status)%nat -> elapse d s1 = advance d s1).
  { intros d Hd. apply elapse_quiet. unfold T_status in Hd.
    intros tm [<-|[<-|[]]]; simpl; unfold T_status, T_logs; lia. }
  set (s2 := mkState true (Some h) (status s) (progress s) (logs s)
               (effects s ++ [mkEffect h true (next_timer s)
                                       (S (next_timer s))])
               (Some me)
               [mkTimer (next_timer s) me StatusFetch
                        (S (now s + 1499) + T_status) T_status;
                mkTimer (S (next_timer s)) me LogsFetch
                        (now s + T_logs) T_logs]
               (S (S (next_timer s))) (inflight s ++ [first_status])
               (S (next_req s)) (S (now s + 1499)) (console_errors s)).
  assert (E1 : elapse T_status s1 = s2).
  { change T_status with (S 1499) at 1. rewrite elapse_S.
    rewrite Q by (unfold T_status; lia).
    rewrite (tick_two (advance 1499 s1) _ _ eq_refl).
    unfold rearm, advance, s1, s2.
    cbn [alive taskId status progress logs effects current timers next_timer
         inflight next_req now console_errors
         tm_due tm_effect tm_id tm_kind tm_period].
    decide_leb.
    rewrite nth_error_app2, Nat.sub_diag by lia.
    rewrite app_nil_r. reflexivity. }
  assert (Q2 : forall k, (k < 500)%nat -> elapse k s2 = advance k s2).
  { intros k Hk. apply elapse_quiet.
    intros tm [<-|[<-|[]]]; simpl; unfold T_status, T_logs; lia. }
  set (s3 := mkState true (Some h) (status s) (progress s) (logs s)
               (effects s ++ [mkEffect h true (next_timer s)
                                       (S (next_timer s))])
               (Some me)
               [mkTimer (next_timer s) me StatusFetch
                        (S (now s + 1499) + T_status) T_status;
                mkTimer (S (next_timer s)) me LogsFetch
                        (S (S (now s + 1499) + 499) + T_logs) T_logs]
               (S (S (next_timer s)))
               (inflight s ++ [first_status; first_logs])
               (S (S (next_req s))) (S (S (now s + 1499) + 499))
               (console_errors s)).
  assert (E2 : elapse T_logs s1 = s3).
  { change T_logs with (S 499 + T_status) at 1.
    rewrite elapse_add, E1, elapse_S.
    rewrite Q2 by lia.
    rewrite (tick_two (advance 499 s2) _ _ eq_refl).
    unfold rearm, advance, s2, s3.
    cbn [alive taskId status progress logs effects current timers
         next_timer inflight next_req now console_errors
         tm_due tm_effect tm_id tm_kind tm_period].
    decide_leb.
    rewrite nth_error_app2, Nat.sub_diag by lia.
    rewrite app_nil_r, <- app_assoc. reflexivity. }
  assert (Q3 : forall k, (k < 1000)%nat -> elapse k s3 = advance k s3).
  { intros k Hk. apply elapse_quiet.
    intros tm [<-|[<-|[]]]; simpl; unfold T_status, T_logs; lia. }
  split; [reflexivity|]. split; [reflexivity|]. split; [reflexivity|].
  split; [|split; [|split; [|split]]].
  - intros d Hd. rewrite (Q d Hd). split; reflexivity.
  - rewrite E1. reflexivity.
  - rewrite E2. reflexivity.
  - intros d Hd. unfold T_status, T_logs in Hd.
    replace d with ((d - 1500) + T_status)%nat by (unfold T_status; lia).
    rewrite elapse_add, E1, Q2 by lia. split; reflexivity.
  - intros d Hd. unfold T_status, T_logs in Hd.
    replace d with ((d - 2000) + T_logs)%nat by (unfold T_logs; lia).
    rewrite elapse_add, E2, Q3 by lia. split; reflexivity.
Qed.

Lemma start_arms_timers_without_fetching_witness :
  phase (start (js "t-1") idle_panel) = Active /\
  inflight (start (js "t-1") idle_panel) = inflight idle_panel /\
  next_req (start (js "t-1") idle_panel) = next_req idle_panel /\
  (forall d, (d < T_status)%nat ->
     inflight (elapse d (start (js "t-1") idle_panel)) = inflight idle_panel /\
     next_req (elapse d (start (js "t-1") idle_panel)) = next_req idle_panel) /\
  inflight (elapse T_status (start (js "t-1") idle_panel))
  = inflight idle_panel
    ++ [mkRequest (next_req idle_panel) (List.length (effects idle_panel))
                  StatusFetch (js "t-1")] /\
  inflight (elapse T_logs (start (js "t-1") idle_panel))
  = inflight idle_panel
    ++ [mkRequest (next_req idle_panel) (List.length (effects idle_panel))
                  StatusFetch (js "t-1");
        mkRequest (S (next_req idle_panel)) (List.length (effects idle_panel))
                  LogsFetch (js "t-1")] /\
  (forall d, (T_status <= d < T_logs)%nat ->
     inflight (elapse d (start (js "t-1") idle_panel))
     = inflight idle_panel
       ++ [mkRequest (next_req idle_panel) (List.length (effects idle_panel))
                     StatusFetch (js "t-1")] /\
     next_req (elapse d (start (js "t-1") idle_panel))
     = S (next_req idle_panel)) /\
  (forall d, (T_logs <= d < 2 * T_status)%nat ->
     inflight (elapse d (start (js "t-1") idle_panel))
     = inflight idle_panel
       ++ [mkRequest (next_req idle_panel) (List.length (effects idle_panel))
                     StatusFetch (js "t-1");
           mkRequest (S (next_req idle_panel))
                     (List.length (effects idle_panel)) LogsFetch (js "t-1")] /\
     next_req (elapse d (start (js "t-1") idle_panel))
     = S (S (next_req idle_panel))).
Proof.
  apply (start_arms_timers_without_fetching idle_panel (js "t-1")).
  - exists None, []. reflexivity.
  - reflexivity.
  - discriminate.
Defined.

(** C5 fails as stated: [start] itself starts no request, and none has
    been started 1499 ms later. *)
Lemma start_fires_no_immediate_fetch :
  phase idle_panel = Idle /\
  phase (start (js "t-1") idle_panel) = Active /\
  inflight (start (js "t-1") idle_panel) = [] /\
  next_req (start (js "t-1") idle_panel) = 0%nat /\
  inflight (elapse 1499 (start (js "t-1") idle_panel)) = [] /\
  next_req (elapse 1499 (start (js "t-1") idle_panel)) = 0%nat.
Proof. vm_compute. repeat split. Qed.

(** With an empty task id the effect returns at once: the panel stays
    idle. *)
Lemma start_empty_id_stays_idle : phase (start [] idle_panel) = Idle.
Proof. reflexivity. Qed.

End StatusPanelFacts.

(* ================================================================== *)
(** ** The viewer of the persisted package *)

Module CodeViewerFacts.
Import CodeViewer UploadCases ViewerCases WindowInv ViewerMore.

(** C4, as amended.  A document that is absent or empty is treated as
    no package present.  A document that is not JSON is not: the
    [SyntaxError] of [JSON.parse] leaves the mount effect uncaught.  Any
    other document is rendered as parsed. *)
Theorem viewer_load_outcomes (e : Env) (w : Window) :
  mount e w
  = match getItem (js "uploadData") (localStorage e) with
    | None => (Normal NoUploadData, w)
    | Some saved =>
        if str_truthy saved then
          match Json.parse saved with
          | None => (Throw SyntaxError, w)
          | Some data => render data w
          end
        else (Normal NoUploadData, w)
    end.
Proof.
  unfold mount, load, bindM, lift. simpl.
  destruct (getItem (js "uploadData") (localStorage e)) as [saved|];
    [|reflexivity].
  destruct (str_truthy saved); [|reflexivity].
  destruct (Json.parse saved); reflexivity.
Qed.

(** A text with nothing but white space is not JSON. *)
Lemma parse_rejects_blank text :
  Json.skip_ws text = [] -> Json.parse text = None.
Proof.
  intros H. unfold Json.parse.
  change (2 + 2 * List.length text)%nat
    with (S (S (2 * List.length text))).
  cbn [Json.value]. now rewrite H.
Qed.

(** Nor is a text whose first code unit after white space cannot begin
    a value. *)
Lemma parse_rejects_bad_start text c rest :
  Json.skip_ws text = c :: rest -> starts_value c = false ->
  Json.parse text = None.
Proof.
  intros H Hc. unfold Json.parse.
  change (2 + 2 * List.length text)%nat
    with (S (S (2 * List.length text))).
  cbn [Json.value]. rewrite H.
  unfold starts_value in Hc.
  repeat (apply orb_false_iff in Hc; destruct Hc as [Hc ?]).
  repeat match goal with
         | E : (c =? _)%N = false |- _ => rewrite E; clear E
         end.
  unfold Json.number.
  match goal with E : (c =? 45)%N = false |- _ => rewrite E end.
  destruct (c =? 48)%N eqn:E0.
  - apply N.eqb_eq in E0. subst c. discriminate.
  - match goal with E : is_digit c = false |- _ => rewrite E end.
    reflexivity.
Qed.

(** Falsy data, such as a document [null] parses to, shows the
    no-data state. *)
Lemma render_falsy data w :
  truthy data = false -> render data w = (Normal NoUploadData, w).
Proof. intros H. unfold render. now rewrite H. Qed.

(** C4 fails as stated: a truncated document is not treated like an
    absent one; mounting the viewer on it throws. *)
Lemma corrupted_document_crashes_viewer :
  Json.parse truncated_document = None /\
  fst (mount corrupted fresh_window) = Throw SyntaxError /\
  fst (mount env0 fresh_window) = Normal NoUploadData.
Proof. vm_compute. repeat split. Qed.

(** A document that is JSON but has no [uploads] makes the render
    throw. *)
Lemma shapeless_document_crashes_viewer :
  Json.parse (js "{}") = Some (JObj []) /\
  fst (mount shapeless fresh_window) = Throw TypeError.
Proof. vm_compute. split; reflexivity. Qed.

(** In the store a selected file is the empty object, which
    [URL.createObjectURL] refuses: the viewer mounted on a submitted
    package with a file throws before any URL exists. *)
Lemma submitted_files_are_not_blobs :
  mount submitted fresh_window = (Throw TypeError, fresh_window).
Proof. vm_compute. reflexivity. Qed.

(** *** Object URLs *)

Lemma keeps_ret {A} (a : A) : keeps (ret a).
Proof.
  intros w. simpl. repeat split. exists []. now rewrite app_nil_r, Nat.add_0_r.
Qed.

Lemma keeps_throw {A} err : keeps (@throw A err).
Proof.
  intros w. simpl. repeat split. exists []. now rewrite app_nil_r, Nat.add_0_r.
Qed.

Lemma keeps_lift {A} (c : completion A) : keeps (lift c).
Proof.
  intros w. simpl. repeat split. exists []. now rewrite app_nil_r, Nat.add_0_r.
Qed.

Lemma keeps_bind {A B} (m : M A) (k : A -> M B) :
  keeps m -> (forall a, keeps (k a)) -> keeps (bindM m k).
Proof.
  intros Hm Hk w. unfold bindM.
  destruct (Hm w) as (R1 & C1 & l1 & L1 & N1).
  destruct (m w) as [[a|err|] w1]; simpl in *.
  - destruct (Hk a w1) as (R2 & C2 & l2 & L2 & N2).
    split; [congruence|]. split; [congruence|].
    exists (l1 ++ l2). rewrite L2, L1, N2, N1, length_app, app_assoc.
    split; [reflexivity | lia].
  - split; [exact R1|]. split; [exact C1|]. now exists l1.
  - split; [exact R1|]. split; [exact C1|]. now exists l1.
Qed.

Lemma keeps_mapM {A B} (f : A -> M B) (l : list A) :
  (forall a, keeps (f a)) -> keeps (mapM f l).
Proof.
  intros Hf. induction l as [|x r IH]; simpl.
  - apply keeps_ret.
  - apply keeps_bind; [apply Hf|]. intros y.
    apply keeps_bind; [exact IH|]. intros ys. apply keeps_ret.
Qed.

Lemma keeps_createObjectURL b : keeps (createObjectURL b).
Proof.
  intros w. simpl. repeat split. exists [(next_url w, b)].
  split; [reflexivity|]. simpl. lia.
Qed.

Lemma keeps_viewURL file : keeps (viewURL file).
Proof.
  unfold viewURL. destruct (truthy file); [|apply keeps_ret].
  destruct file; try apply keeps_throw.
  apply keeps_bind; [apply keeps_createObjectURL|].
  intros u. apply keeps_ret.
Qed.

Lemma keeps_row file : keeps (row file).
Proof.
  unfold row. repeat (apply keeps_bind; [|intros ?]);
    try apply keeps_viewURL; try apply keeps_lift; apply keeps_ret.
Qed.

Ltac keeps_steps :=
  repeat first
    [ apply keeps_ret | apply keeps_throw | apply keeps_lift
    | apply keeps_row
    | apply keeps_mapM; intros ?
    | apply keeps_bind; [|intros ?]
    | match goal with
      | |- keeps (if ?c then _ else _) => destruct c
      | |- keeps (match ?x with _ => _ end) => destruct x
      end ].

(** No render revokes a URL, and every URL a render creates is live
    when it ends. *)
Lemma render_keeps_urls data : keeps (render data).
Proof.
  unfold render, render_top, render_sub. keeps_steps.
Qed.

Lemma mount_keeps_urls e : keeps (mount e).
Proof.
  unfold mount. apply keeps_bind; [apply render_keeps_urls|]. intros _.
  apply keeps_bind; [apply keeps_lift|]. intros data.
  apply render_keeps_urls.
Qed.

(** [downloadFile] revokes the one URL it creates. *)
Lemma downloadFile_balanced content filename contentType w :
  window_ok w ->
  let w' := snd (Outputs.downloadFile content filename contentType w) in
  creations w' = S (creations w) /\
  revocations w' = S (revocations w) /\
  live w' = live w.
Proof.
  intros Hok. simpl. repeat split.
  rewrite filter_app. simpl. rewrite N.eqb_refl. simpl. rewrite app_nil_r.
  apply forallb_filter_id. apply forallb_forall. intros [u b] Hin. simpl.
  apply Hok in Hin. apply negb_true_iff, N.eqb_neq. lia.
Qed.

(** Were the data to hold a [File] itself, a render would create two
    object URLs for it and revoke none. *)
Lemma viewer_leaves_object_urls_live :
  exists page w',
    render data_with_file fresh_window = (Normal page, w') /\
    creations w' = 2%nat /\
    revocations w' = 0%nat /\
    live w' = [(0%N, FileBlob f1); (1%N, FileBlob f1)] /\
    unmount w' = (Normal tt, w').
Proof.
  eexists _, _. split; [vm_compute; reflexivity|].
  repeat split.
Qed.

(** *** What the viewer is given *)

Lemma obj_get_in {V} k (o : obj V) x :
  obj_get k o = Some x -> exists k' : jsstring, In (k', x) o.
Proof.
  induction o as [|[k0 v0] r IH]; simpl; [discriminate|].
  destruct (jsstring_eqb k k0).
  - intros [= ->]. exists k0. now left.
  - intros H. destruct (IH H) as (k' & Hin). exists k'. now right.
Qed.

Lemma no_file_member (ps : obj jsval) (k' : jsstring) (x : jsval) :
  existsb (fun kv => has_file (snd kv)) ps = false ->
  In (k', x) ps -> has_file x = false.
Proof.
  intros H Hin. exact (proj1 (existsb_false _ _) H (k', x) Hin).
Qed.

Lemma no_file_get_static v name x :
  has_file v = false -> get_static v name = Normal x -> has_file x = false.
Proof.
  destruct v; simpl; intros Hv H; try discriminate;
    try (inversion H; reflexivity).
  - destruct (obj_get name props) as [y|] eqn:E; inversion H; subst;
      [|reflexivity].
    apply obj_get_in in E as (k' & Hin). eapply no_file_member; eauto.
  - destruct (jsstring_eqb name (js "name")); inversion H. reflexivity.
Qed.

Lemma no_file_get_computed o k x :
  has_file o = false -> get_computed o k = Normal x -> has_file x = false.
Proof.
  destruct o; simpl; intros Ho H; try discriminate.
  destruct k; try discriminate.
  destruct (obj_get s props) as [y|] eqn:E.
  - inversion H; subst. apply obj_get_in in E as (k' & Hin).
    eapply no_file_member; eauto.
  - match type of H with
    | (if ?c then _ else _) = _ => destruct c
    end; inversion H; reflexivity.
Qed.

Lemma in_indexed {A} (l : list A) : forall i k x,
  In (k, x) (indexed i l) -> In x l.
Proof.
  induction l as [|a l IH]; simpl; intros i k x; [tauto|].
  intros [[= _ ->]|H]; [now left | right; eauto].
Qed.

Lemma no_file_entries v es kv :
  has_file v = false -> Object_entries v = Normal es -> In kv es ->
  has_file (snd kv) = false.
Proof.
  destruct v; simpl; intros Hv H Hin; try discriminate;
    inversion H; subst; try (destruct Hin).
  - destruct kv as [k x]. apply in_indexed in Hin.
    apply in_map_iff in Hin as (c & <- & _). reflexivity.
  - destruct kv as [k x]. apply in_indexed in Hin.
    exact (proj1 (existsb_false _ _) Hv x Hin).
  - exact (proj1 (existsb_false _ _) Hv kv Hin).
Qed.

Lemma no_file_values v l x :
  has_file v = false -> Object_values v = Normal l -> In x l ->
  has_file x = false.
Proof.
  unfold Object_values. intros Hv H Hin.
  destruct (Object_entries v) as [es| |] eqn:E; simpl in H; try discriminate.
  inversion H; subst. apply in_map_iff in Hin as (kv & <- & Hkv).
  eapply no_file_entries; eauto.
Qed.

Lemma no_file_code_points s x : In x (code_points s) -> has_file x = false.
Proof.
  assert (G : forall n s, (List.length s <= n)%nat ->
                          In x (code_points s) -> has_file x = false).
  { induction n as [|n IH]; intros [|c r] Hl Hin; simpl in Hl;
      try (destruct Hin); try lia.
    destruct r as [|d r]; simpl in Hin.
    - destruct Hin as [<-|[]]. reflexivity.
    - destruct (is_high_surrogate c && is_low_surrogate d);
        destruct Hin as [<-|H]; try reflexivity.
      + apply (IH r); [simpl in *; lia | exact H].
      + apply (IH (d :: r)); [simpl in *; lia | exact H]. }
  apply (G (List.length s)). lia.
Qed.

Lemma no_file_array_from v l x :
  has_file v = false -> Array_from v = Normal l -> In x l ->
  has_file x = false.
Proof.
  destruct v; simpl; intros Hv H Hin; try discriminate;
    try (inversion H; subst; destruct Hin).
  - inversion H; subst. eapply no_file_code_points; eauto.
  - inversion H; subst. exact (proj1 (existsb_false _ _) Hv x Hin).
  - destruct (obj_has (js "length") props); inversion H; subst. destruct Hin.
Qed.

(** *** Renders that leave the window alone *)

Lemma unchanged_ret {A} (a : A) : unchanged (ret a).
Proof. intros w. reflexivity. Qed.

Lemma unchanged_throw {A} err : unchanged (@throw A err).
Proof. intros w. reflexivity. Qed.

Lemma unchanged_lift {A} (c : completion A) : unchanged (lift c).
Proof. intros w. reflexivity. Qed.

Lemma unchanged_bind {A B} (m : M A) (k : A -> M B) :
  unchanged m ->
  (forall a w, fst (m w) = Normal a -> unchanged (k a)) ->
  unchanged (bindM m k).
Proof.
  intros Hm Hk w. unfold bindM. specialize (Hm w).
  destruct (m w) as [[a|err|] w1] eqn:E; simpl in *; subst; try reflexivity.
  apply (Hk a w). now rewrite E.
Qed.

Lemma unchanged_mapM {A B} (f : A -> M B) (l : list A) :
  (forall x, In x l -> unchanged (f x)) -> unchanged (mapM f l).
Proof.
  induction l as [|x l IH]; intros Hf; cbn [mapM].
  - apply unchanged_ret.
  - apply unchanged_bind; [apply Hf; now left|]. intros y _ _.
    apply unchanged_bind; [apply IH; intros z Hz; apply Hf; now right|].
    intros ys _ _. apply unchanged_ret.
Qed.

Lemma unchanged_viewURL file : has_file file = false -> unchanged (viewURL file).
Proof.
  intros H. unfold viewURL. destruct (truthy file); [|apply unchanged_ret].
  destruct file; try apply unchanged_throw. discriminate.
Qed.

Lemma unchanged_row file : has_file file = false -> unchanged (row file).
Proof.
  intros H. unfold row.
  apply unchanged_bind; [now apply unchanged_viewURL|]. intros h1 _ _.
  apply unchanged_bind; [now apply unchanged_viewURL|]. intros h2 _ _.
  apply unchanged_bind; [apply unchanged_lift|]. intros n _ _.
  apply unchanged_ret.
Qed.

Lemma lift_fst {A} (c : completion A) w a : fst (lift c w) = Normal a -> c = Normal a.
Proof. unfold lift. simpl. auto. Qed.

Lemma bind_normal_inv {A B} (c : completion A) (k : A -> completion B) b :
  bind c k = Normal b -> exists a, c = Normal a /\ k a = Normal b.
Proof. destruct c; simpl; try discriminate. eauto. Qed.

Lemma unchanged_render_top data :
  has_file data = false -> unchanged (render_top data).
Proof.
  intros Hd. unfold render_top.
  apply unchanged_bind; [apply unchanged_lift|]. intros ups w1 H1.
  apply lift_fst in H1.
  apply unchanged_bind; [apply unchanged_lift|]. intros top w2 H2.
  apply unchanged_bind; [apply unchanged_lift|]. intros guard w3 H3.
  destruct (truthy guard); [|apply unchanged_ret].
  apply unchanged_bind; [apply unchanged_lift|]. intros ups' w4 H4.
  apply lift_fst in H4. pose proof (no_file_get_static _ _ _ Hd H4) as Hu.
  apply unchanged_bind; [apply unchanged_lift|]. intros top' w5 H5.
  apply unchanged_bind; [apply unchanged_lift|]. intros cats w6 H6.
  apply lift_fst in H6. apply bind_normal_inv in H6 as (c & Hc & He).
  pose proof (no_file_get_computed _ _ _ Hu Hc) as Hcf.
  apply unchanged_bind; [|intros; apply unchanged_ret].
  apply unchanged_mapM. intros kf Hkf.
  pose proof (no_file_entries _ _ _ Hcf He Hkf) as Hkv.
  apply unchanged_bind; [apply unchanged_lift|]. intros files w7 H7.
  apply lift_fst in H7.
  apply unchanged_bind; [|intros; apply unchanged_ret].
  apply unchanged_mapM. intros file Hfile. apply unchanged_row.
  eapply no_file_array_from; eauto.
Qed.

Lemma unchanged_render_sub data sub :
  has_file data = false -> unchanged (render_sub data sub).
Proof.
  intros Hd. unfold render_sub.
  apply unchanged_bind; [apply unchanged_lift|]. intros ups w1 H1.
  apply unchanged_bind; [apply unchanged_lift|]. intros guard w2 H2.
  destruct (truthy guard); [|apply unchanged_ret].
  apply unchanged_bind; [apply unchanged_lift|]. intros ups' w3 H3.
  apply lift_fst in H3. pose proof (no_file_get_static _ _ _ Hd H3) as Hu.
  apply unchanged_bind; [apply unchanged_lift|]. intros files w4 H4.
  apply lift_fst in H4.
  apply bind_normal_inv in H4 as (m & Hm & H4).
  apply bind_normal_inv in H4 as (c & Hc & Hv).
  pose proof (no_file_get_computed _ _ _ Hu Hm) as Hmf.
  pose proof (no_file_get_static _ _ _ Hmf Hc) as Hcf.
  apply unchanged_bind; [|intros; apply unchanged_ret].
  apply unchanged_mapM. intros file Hfile. apply unchanged_row.
  eapply no_file_values; eauto.
Qed.

(** Data without a [File] renders without touching the window. *)
Lemma unchanged_render data : has_file data = false -> unchanged (render data).
Proof.
  intros Hd. unfold render.
  destruct (negb (truthy data)); [apply unchanged_ret|].
  apply unchanged_bind; [apply unchanged_lift|]. intros top w1 H1.
  apply unchanged_bind; [now apply unchanged_render_top|]. intros tu w2 H2.
  apply unchanged_bind; [apply unchanged_lift|]. intros sm w3 H3.
  apply unchanged_bind.
  { destruct sm; try apply unchanged_throw; try apply unchanged_lift.
    apply unchanged_mapM. intros sub _. now apply unchanged_render_sub. }
  intros subs w4 H4.
  apply unchanged_bind; [apply unchanged_lift|]. intros c1 w5 H5.
  apply unchanged_bind; [|intros; apply unchanged_ret].
  apply unchanged_mapM. intros s _. apply unchanged_lift.
Qed.

(** What the mount effect loads holds no [File]. *)
Lemma loaded_data_no_file e data0 data :
  has_file data0 = false -> load e data0 = Normal data -> has_file data = false.
Proof.
  unfold load. intros H0.
  destruct (getItem (js "uploadData") (localStorage e)) as [saved|];
    [|intros [= <-]; exact H0].
  destruct (str_truthy saved); [|intros [= <-]; exact H0].
  destruct (Json.parse saved) as [v|] eqn:E; [|discriminate].
  intros [= <-]. eapply JsonFacts.parse_no_file; eauto.
Qed.

(** C10.  The viewer's data is what [JSON.parse] read from the store,
    which never holds a [File]; so mounting the viewer, on whatever the
    store holds, and every render of what it loaded create no object
    URL and revoke none: the window is left as it was.  [downloadFile]
    creates one object URL and revokes it in the same call: one
    creation, one revocation, and the live URLs are those from before.
    In each view and each download the creations equal the
    revocations, and no URL either of them obtained stays live. *)
Theorem object_urls_created_are_revoked
  (e : Env) (w : Window) (content filename contentType : jsstring) :
  window_ok w ->
  snd (mount e w) = w /\
  (forall data w1, load e JNull = Normal data -> snd (render data w1) = w1) /\
  snd (unmount w) = w /\
  creations (snd (Outputs.downloadFile content filename contentType w))
  = S (creations w) /\
  revocations (snd (Outputs.downloadFile content filename contentType w))
  = S (revocations w) /\
  live (snd (Outputs.downloadFile content filename contentType w)) = live w.
Proof.
  intros Hok. split; [|split; [|split; [reflexivity|]]].
  - unfold mount.
    apply unchanged_bind; [now apply unchanged_render|]. intros v w1 _.
    apply unchanged_bind; [apply unchanged_lift|]. intros data w2 H.
    apply lift_fst in H. apply unchanged_render.
    now apply (loaded_data_no_file e JNull).
  - intros data w1 H. apply unchanged_render.
    now apply (loaded_data_no_file e JNull).
  - now apply downloadFile_balanced.
Qed.

Lemma object_urls_created_are_revoked_witness :
  snd (mount submitted busy_window) = busy_window /\
  (forall data w1, load submitted JNull = Normal data ->
                   snd (render data w1) = w1) /\
  snd (unmount busy_window) = busy_window /\
  creations (snd (Outputs.downloadFile (js "module alu; endmodule")
                    (js "alu.v") (js "text/plain") busy_window))
  = S (creations busy_window) /\
  revocations (snd (Outputs.downloadFile (js "module alu; endmodule")
                      (js "alu.v") (js "text/plain") busy_window))
  = S (revocations busy_window) /\
  live (snd (Outputs.downloadFile (js "module alu; endmodule")
               (js "alu.v") (js "text/plain") busy_window))
  = live busy_window.
Proof.
  apply (object_urls_created_are_revoked submitted busy_window
           (js "module alu; endmodule") (js "alu.v") (js "text/plain")).
  intros u b H. vm_compute in H. destruct H as [H|[]].
  inversion H. subst. vm_compute. reflexivity.
Defined.

End CodeViewerFacts.

(* ================================================================== *)
(** * Further properties *)

(** ** The status panel *)

Module StatusPanelMoreFacts.
Import StatusPanel StatusPanelInv StatusPanelMore StatusPanelFacts.

(** X1.  When a status request of the mounted closure completes with a
    body, [status] becomes the body's [status] and [progress] the body's
    [progress] as it is, or 0 when that is falsy; [logs] keeps its
    value.  A body that is null or undefined, and a failed request,
    leave the snapshot as it is and log one console error. *)
Theorem status_response_applied (s : State) (rid : nat) (rq : Request) :
  find_request rid (inflight s) = Some rq ->
  req_kind rq = StatusFetch ->
  effect_mounted s (req_effect rq) = true ->
  (forall data st pr,
     get_static data (js "status") = Normal st ->
     get_static data (js "progress") = Normal pr ->
     snapshot (respond rid (Ok data) s) = (st, or_zero pr, logs s)) /\
  (forall data, data = JNull \/ data = JUndefined ->
     snapshot (respond rid (Ok data) s) = snapshot s /\
     console_errors (respond rid (Ok data) s) = S (console_errors s)) /\
  snapshot (respond rid Failed s) = snapshot s /\
  console_errors (respond rid Failed s) = S (console_errors s).
Proof.
  intros Hf Hk Hm. unfold respond. rewrite Hf, Hk.
  unfold status_continuation, effect_mounted in *. simpl.
  rewrite Hm. simpl. repeat split.
  - intros data st pr Hs Hp. rewrite Hs. simpl. rewrite Hp. reflexivity.
  - destruct H as [->| ->]; reflexivity.
  - destruct H as [->| ->]; reflexivity.
Qed.

Lemma status_response_applied_witness :
  snapshot (respond 0 (Ok (status_body (js "running") 150)) both_in_flight)
  = (JStr (js "running"), JNum 150 0, JStr []) /\
  snapshot (respond 0 (Ok (status_body (js "queued") 0)) both_in_flight)
  = (JStr (js "queued"), JNum 0 0, JStr []) /\
  console_errors (respond 0 (Ok JNull) both_in_flight) = 1%nat.
Proof.
  destruct (status_response_applied both_in_flight 0
              (mkRequest 0 0 StatusFetch (js "t-1")))
    as (Hok & Hnull & _).
  - vm_compute. reflexivity.
  - reflexivity.
  - vm_compute. reflexivity.
  - split; [|split].
    + rewrite (Hok (status_body (js "running") 150)
                   (JStr (js "running")) (JNum 150 0));
        [vm_compute; reflexivity | reflexivity | reflexivity].
    + rewrite (Hok (status_body (js "queued") 0)
                   (JStr (js "queued")) (JNum 0 0));
        [vm_compute; reflexivity | reflexivity | reflexivity].
    + destruct (Hnull JNull (or_introl eq_refl)) as [_ ->].
      vm_compute. reflexivity.
Defined.

Lemma find_request_remove_other rid rid' l :
  rid <> rid' ->
  find_request rid (remove_request rid' l) = find_request rid l.
Proof.
  intros Hne. unfold remove_request.
  induction l as [|x r IH]; simpl; [reflexivity|].
  destruct (req_id x =? rid')%nat eqn:E'; simpl.
  - apply Nat.eqb_eq in E'.
    destruct (req_id x =? rid)%nat eqn:E; [|exact IH].
    apply Nat.eqb_eq in E. congruence.
  - destruct (req_id x =? rid)%nat; [reflexivity | exact IH].
Qed.

Lemma remove_request_comm a b l :
  remove_request a (remove_request b l) = remove_request b (remove_request a l).
Proof.
  unfold remove_request. induction l as [|x r IH]; simpl; [reflexivity|].
  destruct (req_id x =? a)%nat eqn:Ea, (req_id x =? b)%nat eqn:Eb; simpl;
    rewrite ?Ea, ?Eb; simpl; congruence.
Qed.

(** X2.  A status request and a logs request that are both in flight
    may complete in either order, each with any outcome: the panel ends
    in the same state. *)
Theorem status_and_logs_responses_commute
  (s : State) (rid1 rid2 : nat) (rq1 rq2 : Request) (r1 r2 : Response) :
  find_request rid1 (inflight s) = Some rq1 ->
  find_request rid2 (inflight s) = Some rq2 ->
  req_kind rq1 = StatusFetch ->
  req_kind rq2 = LogsFetch ->
  respond rid2 r2 (respond rid1 r1 s) = respond rid1 r1 (respond rid2 r2 s).
Proof.
  intros H1 H2 K1 K2.
  assert (Hne : rid1 <> rid2).
  { intros ->. rewrite H1 in H2. inversion H2. subst. congruence. }
  assert (G1 : find_request rid1 (remove_request rid2 (inflight s)) = Some rq1)
    by now rewrite find_request_remove_other.
  assert (G2 : find_request rid2 (remove_request rid1 (inflight s)) = Some rq2)
    by (rewrite find_request_remove_other; auto).
  destruct (effect_mounted s (req_effect rq1)) eqn:M1;
    destruct (effect_mounted s (req_effect rq2)) eqn:M2;
    unfold effect_mounted in M1, M2;
    destruct r1 as [d1|], r2 as [d2|];
    try destruct (get_static d1 (js "status")) as [st| |] eqn:Es;
    try destruct (get_static d1 (js "progress")) as [pr| |] eqn:Ep;
    try destruct (get_static d2 (js "logs")) as [lg| |] eqn:El;
    unfold respond at 2 4; rewrite H1, H2, K1, K2;
    unfold status_continuation, logs_continuation, effect_mounted;
    cbn [alive taskId status progress logs effects current timers next_timer
         inflight next_req now console_errors];
    rewrite ?M1, ?M2, ?Es, ?El; cbn [negb bind]; rewrite ?Ep; cbn [negb bind];
    unfold respond;
    cbn [alive taskId status progress logs effects current timers next_timer
         inflight next_req now console_errors];
    rewrite ?G1, ?G2, ?K1, ?K2;
    unfold status_continuation, logs_continuation, effect_mounted;
    cbn [alive taskId status progress logs effects current timers next_timer
         inflight next_req now console_errors];
    rewrite ?M1, ?M2, ?Es, ?El; cbn [negb bind]; rewrite ?Ep; cbn [negb bind];
    rewrite ?(remove_request_comm rid2 rid1);
    reflexivity.
Qed.

Lemma status_and_logs_responses_commute_witness :
  respond 1 (Ok (StatusPanelCases.logs_body (js "init")))
    (respond 0 (Ok (status_body (js "running") 10)) both_in_flight)
  = respond 0 (Ok (status_body (js "running") 10))
      (respond 1 (Ok (StatusPanelCases.logs_body (js "init"))) both_in_flight).
Proof.
  apply (status_and_logs_responses_commute both_in_flight 0 1
           (mkRequest 0 0 StatusFetch (js "t-1"))
           (mkRequest 1 0 LogsFetch (js "t-1"))).
  - vm_compute. reflexivity.
  - vm_compute. reflexivity.
  - reflexivity.
  - reflexivity.
Defined.

(** *** After the unmount *)

Lemma halted_unmount s : wf s -> halted (unmount s).
Proof.
  intros W. unfold unmount.
  destruct (cleanup_quiescent s W) as ((Hm & Ht & Hc) & _).
  repeat split; simpl; auto.
Qed.


Lemma halted_step ev s :
  halted s ->
  halted (step ev s) /\
  snapshot (step ev s) = snapshot s /\
  next_req (step ev s) = next_req s.
Proof.
  intros (Ha & Hc & Ht & Hm). destruct ev as [t| |ms|rid r]; simpl.
  - unfold setTaskId. rewrite Ha. simpl. repeat split; auto.
  - unfold unmount, cleanup. rewrite Hc. simpl. repeat split; auto.
  - induction ms as [|ms IH]; [repeat split; auto|].
    rewrite elapse_S. destruct IH as ((Ha' & Hc' & Ht' & Hm') & Hs & Hn).
    unfold tick. rewrite Ht'. simpl. repeat split; auto.
  - destruct (respond_frame rid r s) as (He & Hcu & Hti & Hn & Hal & _).
    split; [|split; [|exact Hn]].
    + repeat split; try congruence.
      intros i. rewrite (effect_mounted_frame _ _ _ He). apply Hm.
    + apply respond_unmounted. intros rq _. apply Hm.
Qed.

Lemma halted_run tr : forall x,
  halted x ->
  phase (run tr x) = Stopped /\
  timers (run tr x) = [] /\
  next_req (run tr x) = next_req x /\
  snapshot (run tr x) = snapshot x.
Proof.
  induction tr as [|ev tr IH]; intros x Hx.
  - destruct Hx as (Ha & Hc & Ht & _). simpl. unfold phase. rewrite Ha. auto.
  - change (run (ev :: tr) x) with (run tr (step ev x)).
    destruct (halted_step ev x Hx) as (Hx' & Hs & Hn).
    destruct (IH (step ev x) Hx') as (P & T & N & S).
    repeat split; congruence.
Qed.

(** X3.  Unmounting is final.  Whatever follows (time passing, late
    responses, new task ids, further unmounts), the panel stays
    stopped, no timer is armed, no request is ever started again and
    the snapshot keeps the value it had at the unmount. *)
Theorem unmount_is_final (s : State) (tr : list event) :
  reachable s ->
  phase (run tr (unmount s)) = Stopped /\
  timers (run tr (unmount s)) = [] /\
  next_req (run tr (unmount s)) = next_req s /\
  snapshot (run tr (unmount s)) = snapshot s.
Proof.
  intros R. pose proof (reachable_wf s R) as W.
  destruct (halted_run tr (unmount s) (halted_unmount s W)) as (P & T & N & S).
  assert (N0 : next_req (unmount s) = next_req s /\
               snapshot (unmount s) = snapshot s).
  { unfold unmount. simpl.
    destruct (cleanup_quiescent s W) as (_ & _ & Hn & _ & Hs & _).
    split; [exact Hn|]. exact Hs. }
  destruct N0 as [N0 S0]. repeat split; congruence.
Qed.

Lemma unmount_is_final_witness :
  phase (run [Elapse 5000; Respond 0 (Ok (status_body (js "done") 100));
              SetTaskId (Some (js "t-2")); Elapse 5000]
             (unmount both_in_flight)) = Stopped /\
  timers (run [Elapse 5000; Respond 0 (Ok (status_body (js "done") 100));
               SetTaskId (Some (js "t-2")); Elapse 5000]
              (unmount both_in_flight)) = [] /\
  next_req (run [Elapse 5000; Respond 0 (Ok (status_body (js "done") 100));
                 SetTaskId (Some (js "t-2")); Elapse 5000]
                (unmount both_in_flight)) = next_req both_in_flight /\
  snapshot (run [Elapse 5000; Respond 0 (Ok (status_body (js "done") 100));
                 SetTaskId (Some (js "t-2")); Elapse 5000]
                (unmount both_in_flight)) = snapshot both_in_flight.
Proof.
  apply (unmount_is_final both_in_flight).
  exists (Some (js "t-1")), [Elapse 2000]. reflexivity.
Defined.

(** *** Which task is polled *)

Lemma fire_fold_task t effs ts : forall done reqs n rq,
  In rq (snd (fst (fold_left (fire t effs) ts (done, reqs, n)))) ->
  In rq reqs \/
  exists tm, In tm ts /\
    req_task rq = match nth_error effs (tm_effect tm) with
                  | Some e => eff_taskId e
                  | None => []
                  end.
Proof.
  induction ts as [|tm r IH]; intros done reqs n rq; simpl; [auto|].
  destruct (tm_due tm <=? t)%nat; intros H; apply IH in H.
  - destruct H as [H|(tm' & Hin & Ht)]; [|right; exists tm'; auto].
    apply in_app_iff in H as [H|[<-|[]]]; [auto|].
    right. exists tm. auto.
  - destruct H as [H|(tm' & Hin & Ht)]; [auto|right; exists tm'; auto].
Qed.

Lemma tick_frame s :
  effects (tick s) = effects s /\ taskId (tick s) = taskId s /\
  timers (tick s) = map (rearm (S (now s))) (timers s).
Proof. destruct (tick_spec s) as (new & -> & _). auto. Qed.

Lemma bound_tick s : polls_bound_id s -> polls_bound_id (tick s).
Proof.
  intros B tm. destruct (tick_frame s) as (-> & -> & ->).
  intros H. apply in_map_iff in H as (tm0 & <- & Hin).
  rewrite rearm_effect. now apply B.
Qed.

Lemma bound_run_effect s : timers s = [] -> polls_bound_id (run_effect s).
Proof.
  intros Ht. unfold run_effect.
  destruct (taskId s) as [id|] eqn:E; [destruct (str_truthy id)|];
    intros tm; simpl; rewrite Ht; simpl; try tauto.
  intros [<-|[<-|[]]]; simpl;
    exists (mkEffect id true (next_timer s) (S (next_timer s)));
    rewrite nth_error_app2, Nat.sub_diag by lia; auto.
Qed.

Lemma bound_step ev s : wf s -> polls_bound_id s -> polls_bound_id (step ev s).
Proof.
  intros W B. destruct ev as [t| |ms|rid r]; simpl.
  - unfold setTaskId. destruct (negb (alive s)); [exact B|].
    destruct (prop_eqb t (taskId s)); [exact B|].
    apply bound_run_effect. simpl.
    now destruct (cleanup_quiescent s W) as ((_ & Ht & _) & _).
  - intros tm. unfold unmount. simpl.
    destruct (cleanup_quiescent s W) as ((_ & Ht & _) & _).
    rewrite Ht. intros [].
  - induction ms as [|ms IH]; [exact B|]. rewrite elapse_S. now apply bound_tick.
  - destruct (respond_frame rid r s) as (He & _ & Ht & _ & _ & Hp & _).
    intros tm. rewrite Ht, He, Hp. apply B.
Qed.

Lemma reachable_bound s : reachable s -> polls_bound_id s.
Proof.
  intros (t & tr & ->).
  assert (H : wf (mount t) /\ polls_bound_id (mount t)).
  { split; [apply wf_mount|]. now apply bound_run_effect. }
  revert H. generalize (mount t). induction tr as [|ev tr IH]; intros x [W B].
  - exact B.
  - apply IH. split; [now apply wf_step | now apply bound_step].
Qed.

(** X4.  Every request the timers start carries the task id the panel
    is bound to at that moment: whatever the panel went through
    before, a request found in flight after some time has passed
    either was in flight already or is for the current task id. *)
Theorem requests_carry_bound_id (s : State) (d : nat) (rq : Request) :
  reachable s ->
  In rq (inflight (elapse d s)) ->
  In rq (inflight s) \/ taskId s = Some (req_task rq).
Proof.
  intros R. pose proof (reachable_bound s R) as B. clear R.
  induction d as [|d IH]; [auto|].
  rewrite elapse_S.
  assert (Bd : polls_bound_id (elapse d s) /\ taskId (elapse d s) = taskId s).
  { clear IH. induction d as [|d [IB IT]]; [auto|]. rewrite elapse_S.
    split; [now apply bound_tick|].
    destruct (tick_frame (elapse d s)) as (_ & -> & _). exact IT. }
  destruct Bd as [Bd Td].
  unfold tick at 1.
  destruct (fold_left _ _ _) as [[ts reqs] n] eqn:E. simpl.
  intros H.
  pose proof (fire_fold_task (S (now (elapse d s))) (effects (elapse d s))
                (timers (elapse d s)) [] (inflight (elapse d s))
                (next_req (elapse d s)) rq) as F.
  rewrite E in F. simpl in F.
  destruct (F H) as [G|(tm & Hin & Ht)]; [auto|].
  right. destruct (Bd tm Hin) as (e & He & Hid).
  rewrite He in Ht. congruence.
Qed.

Lemma requests_carry_bound_id_witness :
  In (mkRequest 0 1 StatusFetch (js "t-2"))
     (inflight (run [Elapse 1000; SetTaskId (Some (js "t-2"))]
                    (mount (Some (js "t-1"))))) \/
  taskId (run [Elapse 1000; SetTaskId (Some (js "t-2"))]
              (mount (Some (js "t-1"))))
  = Some (req_task (mkRequest 0 1 StatusFetch (js "t-2"))).
Proof.
  apply (requests_carry_bound_id
           (run [Elapse 1000; SetTaskId (Some (js "t-2"))]
                (mount (Some (js "t-1"))))
           1500 (mkRequest 0 1 StatusFetch (js "t-2"))).
  - exists (Some (js "t-1")), [Elapse 1000; SetTaskId (Some (js "t-2"))].
    reflexivity.
  - vm_compute. left. reflexivity.
Defined.

(** *** The cadence of polling *)











End StatusPanelMoreFacts.

(* ================================================================== *)
(** ** The upload page *)

Section MoreObjectFacts.
Context {V : Type}.
Implicit Types (o : obj V) (v : V) (k : jsstring).

Lemma obj_has_replace k k' v o :
  obj_has k' (obj_replace k v o) = obj_has k' o.
Proof.
  unfold obj_has. destruct (list_eq_dec N.eq_dec k' k) as [->|Hne].
  - destruct (obj_has k o) eqn:E.
    + rewrite obj_get_replace_same by assumption.
      unfold obj_has in E. now destruct (obj_get k o).
    + assert (R : obj_replace k v o = o).
      { clear -E. unfold obj_has in E.
        induction o as [|[k0 v0] r IH]; simpl in *; [reflexivity|].
        destruct (jsstring_eqb k k0); [discriminate|]. now rewrite IH. }
      now rewrite R.
  - now rewrite obj_get_replace_other.
Qed.

Lemma obj_replace_replace k v1 v2 o :
  obj_replace k v2 (obj_replace k v1 o) = obj_replace k v2 o.
Proof.
  induction o as [|[k0 v0] r IH]; simpl; [reflexivity|].
  destruct (jsstring_eqb k k0) eqn:E; simpl; rewrite E; [reflexivity|].
  now rewrite IH.
Qed.

Lemma obj_replace_absent k v o : obj_has k o = false -> obj_replace k v o = o.
Proof.
  unfold obj_has. induction o as [|[k0 v0] r IH]; simpl; [reflexivity|].
  destruct (jsstring_eqb k k0); [discriminate|]. intros H. now rewrite IH.
Qed.

Lemma obj_replace_insert_index i k v1 v2 o :
  obj_has k o = false ->
  obj_replace k v2 (obj_insert_index i k v1 o) = obj_insert_index i k v2 o.
Proof.
  unfold obj_has. induction o as [|[k0 v0] r IH]; simpl.
  - now rewrite jsstring_eqb_refl.
  - destruct (jsstring_eqb k k0) eqn:E; [discriminate|]. intros H.
    destruct (array_index k0) as [j|]; [destruct (j <? i)%N|]; simpl;
      rewrite ?E, ?jsstring_eqb_refl; try reflexivity.
    now rewrite IH.
Qed.

Lemma obj_replace_app_new k v1 v2 o :
  obj_has k o = false ->
  obj_replace k v2 (o ++ [(k, v1)]) = o ++ [(k, v2)].
Proof.
  unfold obj_has. induction o as [|[k0 v0] r IH]; simpl.
  - now rewrite jsstring_eqb_refl.
  - destruct (jsstring_eqb k k0) eqn:E; [discriminate|]. intros H.
    now rewrite IH.
Qed.

(** Defining a property twice is defining it once with the later
    value: the place of the property does not change. *)
Lemma obj_set_set k v1 v2 o : obj_set k v2 (obj_set k v1 o) = obj_set k v2 o.
Proof.
  assert (H : obj_has k (obj_set k v1 o) = true).
  { unfold obj_has. now rewrite obj_get_set_same. }
  unfold obj_set at 1. rewrite H. unfold obj_set.
  destruct (obj_has k o) eqn:E.
  - apply obj_replace_replace.
  - destruct (array_index k) as [i|].
    + now apply obj_replace_insert_index.
    + now apply obj_replace_app_new.
Qed.

Lemma obj_keys_set_incl x k v o :
  In x (obj_keys o) -> In x (obj_keys (obj_set k v o)).
Proof.
  intros H. apply obj_has_in_keys. apply obj_has_in_keys in H.
  unfold obj_has in *.
  destruct (list_eq_dec N.eq_dec x k) as [->|Hne].
  - now rewrite obj_get_set_same.
  - now rewrite obj_get_set_other.
Qed.
End MoreObjectFacts.

Module UploadMoreFacts.
Import Upload UploadCases UploadMore UploadFacts Readback ReadbackFacts.


Lemma length_resize count l : List.length (resize count l) = count.
Proof.
  unfold resize. rewrite length_app, length_firstn, repeat_length. lia.
Qed.



Lemma length_set_nth idx v l : List.length (set_nth idx v l) = List.length l.
Proof.
  revert idx. induction l as [|x r IH]; intros [|idx]; simpl; auto.
Qed.

Lemma count_invariant_step ev s e :
  (1 <= numSubModules s)%Z /\
  List.length (subModuleNames s) = Z.to_nat (numSubModules s) ->
  (1 <= numSubModules (fst (step ev (s, e))))%Z /\
  List.length (subModuleNames (fst (step ev (s, e))))
  = Z.to_nat (numSubModules (fst (step ev (s, e)))).
Proof.
  intros [H1 H2].
  destruct ev as [v|idx v|parsed|c files|idx files|]; simpl; auto.
  - destruct (idx <? List.length (subModuleNames s))%nat; simpl; auto.
    now rewrite length_set_nth.
  - split; [lia | apply length_resize].
  - destruct (nth_error (subModuleNames s) idx); simpl; auto.
  - unfold handleSubmit. destruct (blank (topModule s)); simpl; auto.
    destruct (existsb blank (subModuleNames s)); simpl; auto.
Qed.

Lemma count_invariant_run tr e0 :
  (1 <= numSubModules (fst (run tr (initial, e0))))%Z /\
  List.length (subModuleNames (fst (run tr (initial, e0))))
  = Z.to_nat (numSubModules (fst (run tr (initial, e0)))).
Proof.
  induction tr as [|ev tr IH] using rev_ind.
  - simpl. split; [lia | reflexivity].
  - rewrite run_app. simpl. destruct (run tr (initial, e0)) as [s e].
    now apply count_invariant_step.
Qed.

(** X7.  Whatever the user does, the page always shows at least one
    sub-module input, and the list of names is exactly as long as the
    number shown in the count field. *)
Theorem names_match_count (tr : list event) (e0 : Env) :
  (1 <= numSubModules (fst (run tr (initial, e0))))%Z /\
  (1 <= List.length (subModuleNames (fst (run tr (initial, e0)))))%nat /\
  List.length (subModuleNames (fst (run tr (initial, e0))))
  = Z.to_nat (numSubModules (fst (run tr (initial, e0)))).
Proof.
  destruct (count_invariant_run tr e0) as [H1 H2].
  split; [exact H1|]. split; [lia | exact H2].
Qed.

Lemma uploads_kept_step ev s e m o :
  obj_get m (uploads s) = Some o ->
  exists o', obj_get m (uploads (fst (step ev (s, e)))) = Some o' /\
             forall c, In c (obj_keys o) -> In c (obj_keys o').
Proof.
  intros H.
  assert (Same : exists o', obj_get m (uploads s) = Some o' /\
                   forall c, In c (obj_keys o) -> In c (obj_keys o'))
    by (exists o; auto).
  assert (Up : forall module category files,
             exists o', obj_get m (uploads (handleUpload module category files s))
                        = Some o' /\
                        forall c, In c (obj_keys o) -> In c (obj_keys o')).
  { intros module category files. unfold handleUpload. simpl.
    destruct (list_eq_dec N.eq_dec m module) as [->|Hne].
    - rewrite obj_get_set_same, H. eexists. split; [reflexivity|].
      intros c. apply obj_keys_set_incl.
    - rewrite obj_get_set_other by assumption. exact Same. }
  destruct ev as [v|idx v|parsed|c files|idx files|]; cbn [step fst].
  - exact Same.
  - destruct (idx <? List.length (subModuleNames s))%nat; exact Same.
  - exact Same.
  - apply Up.
  - destruct (nth_error (subModuleNames s) idx); [apply Up | exact Same].
  - unfold handleSubmit. destruct (blank (topModule s)); [exact Same|].
    destruct (existsb blank (subModuleNames s)); exact Same.
Qed.

(** X8.  No event removes an upload.  Once files are recorded for a
    module name and a category, that name and that category stay in
    [uploads] through every later rename, count change, upload or
    submit; only a later upload for the same pair changes the file
    list. *)
Theorem uploads_are_never_dropped
  (tr : list event) (s : State) (e : Env) (m c : jsstring) (o : obj (list File)) :
  obj_get m (uploads s) = Some o ->
  In c (obj_keys o) ->
  exists o', obj_get m (uploads (fst (run tr (s, e)))) = Some o' /\
             In c (obj_keys o').
Proof.
  intros H Hc.
  assert (G : exists o', obj_get m (uploads (fst (run tr (s, e)))) = Some o' /\
                         forall c, In c (obj_keys o) -> In c (obj_keys o')).
  { induction tr as [|ev tr IH] using rev_ind.
    - exists o. auto.
    - rewrite run_app. simpl. destruct (run tr (s, e)) as [s1 e1].
      destruct IH as (o1 & H1 & I1). simpl in H1.
      destruct (uploads_kept_step ev s1 e1 m o1 H1) as (o2 & H2 & I2).
      exists o2. auto. }
  destruct G as (o' & H' & I'). exists o'. auto.
Qed.

Lemma uploads_are_never_dropped_witness :
  exists o',
    obj_get (js "Decoder") (uploads (fst filled_in)) = Some o' /\
    In (js "communication") (obj_keys o').
Proof.
  apply (uploads_are_never_dropped [ChangeNumSubModules (Some 1%Z)]
           (fst (run [TypeTopModule (js "ALU"); ChangeNumSubModules (Some 3%Z);
                      TypeSubModuleName 0 (js "FSM");
                      TypeSubModuleName 1 (js "Decoder");
                      SelectSubFiles 1 [f1]] (initial, env0)))
           env0 (js "Decoder") (js "communication")
           [(js "communication", [f1])]).
  - reflexivity.
  - simpl. now left.
Defined.

(** X9.  Recording files twice for the same module and category keeps
    the second list only, in the place the first took: the result is
    the same as recording the second list alone. *)
Theorem last_upload_wins
  (module category : jsstring) (first second : list File) (s : State) :
  handleUpload module category second (handleUpload module category first s)
  = handleUpload module category second s.
Proof.
  unfold handleUpload. simpl. rewrite obj_get_set_same.
  now rewrite !obj_set_set.
Qed.

Lemma not_blank_iff_visible name : blank name = false <-> has_visible name.
Proof.
  unfold has_visible. split.
  - intros H.
    destruct (forallb is_js_whitespace name) eqn:E.
    + apply blank_iff_all_whitespace in E. congruence.
    + clear H. induction name as [|c r IH]; simpl in E; [discriminate|].
      destruct (is_js_whitespace c) eqn:Ec.
      * destruct (IH E) as (x & Hin & Hx). exists x. split; [now right|exact Hx].
      * exists c. split; [now left | exact Ec].
  - intros (c & Hin & Hc). destruct (blank name) eqn:E; [|reflexivity].
    apply blank_iff_all_whitespace in E.
    rewrite forallb_forall in E. specialize (E c Hin). congruence.
Qed.

(** X10.  [handleSubmit] finalizes exactly when the top-module name
    and every sub-module name contain a code unit that is not white
    space; the white space is that of [trim]: tab, line feed, vertical
    tab, form feed, carriage return, space, no-break space, the Unicode
    space separators, the line and paragraph separators and the byte
    order mark. *)
Theorem submit_finalizes_iff_names_visible (s : State) (e : Env) :
  (exists p s' e', handleSubmit s e = (Finalized p, s', e')) <->
  has_visible (topModule s) /\
  forall n, In n (subModuleNames s) -> has_visible n.
Proof.
  unfold handleSubmit. split.
  - intros (p & s' & e' & H).
    destruct (blank (topModule s)) eqn:Et; [discriminate|].
    destruct (existsb blank (subModuleNames s)) eqn:Es; [discriminate|].
    split; [now apply not_blank_iff_visible|].
    intros n Hn. apply not_blank_iff_visible.
    destruct (blank n) eqn:En; [|reflexivity].
    rewrite (existsb_blank_true _ _ Hn En) in Es. discriminate.
  - intros [Ht Hs].
    apply not_blank_iff_visible in Ht. rewrite Ht.
    rewrite existsb_blank_false.
    + eexists _, _, _. reflexivity.
    + intros n Hn. apply not_blank_iff_visible. auto.
Qed.

Lemma submit_finalizes_iff_names_visible_witness :
  exists p s' e',
    handleSubmit (fst scenario) (snd scenario) = (Finalized p, s', e').
Proof.
  apply (proj2 (submit_finalizes_iff_names_visible (fst scenario)
                  (snd scenario))).
  split.
  - exists 65%N. split; [vm_compute; now left | reflexivity].
  - vm_compute. intros n [<-|[<-|[]]].
    + exists 70%N. split; [now left | reflexivity].
    + exists 68%N. split; [now left | reflexivity].
Defined.

Lemma store_step ev s e k :
  k <> js "uploadData" ->
  getItem k (localStorage (snd (step ev (s, e)))) = getItem k (localStorage e).
Proof.
  intros Hk.
  destruct ev as [v|idx v|parsed|c files|idx files|]; simpl; auto.
  - destruct (idx <? List.length (subModuleNames s))%nat; reflexivity.
  - destruct (nth_error (subModuleNames s) idx); reflexivity.
  - unfold handleSubmit. destruct (blank (topModule s)); simpl; auto.
    destruct (existsb blank (subModuleNames s)); simpl; auto.
    unfold getItem, setItem. now rewrite jsstring_eqb_neq.
Qed.

(** X11.  The page writes to one key of the store only: whatever the
    user does, every key other than [uploadData] holds what it held
    before. *)
Theorem only_upload_data_is_written
  (tr : list event) (s : State) (e : Env) (k : jsstring) :
  k <> js "uploadData" ->
  getItem k (localStorage (snd (run tr (s, e)))) = getItem k (localStorage e).
Proof.
  intros Hk. induction tr as [|ev tr IH] using rev_ind; [reflexivity|].
  rewrite run_app. simpl. destruct (run tr (s, e)) as [s1 e1].
  simpl in IH. rewrite <- IH. now apply store_step.
Qed.

Lemma only_upload_data_is_written_witness :
  getItem (js "generationResult")
    (localStorage (snd (run [ClickSubmit] scenario)))
  = getItem (js "generationResult") (localStorage (snd scenario)).
Proof.
  apply (only_upload_data_is_written [ClickSubmit] (fst scenario)
           (snd scenario) (js "generationResult")).
  discriminate.
Defined.

Lemma document_step ev s e :
  subModuleNames s <> [] ->
  well_formed (uploads s) = true ->
  (forall doc, getItem (js "uploadData") (localStorage e) = Some doc ->
               exists p, doc = JSON_stringify p /\ valid_package p /\
                         Json.parse doc = Some (package_value p)) ->
  forall doc,
    getItem (js "uploadData") (localStorage (snd (step ev (s, e)))) = Some doc ->
    exists p, doc = JSON_stringify p /\ valid_package p /\
              Json.parse doc = Some (package_value p).
Proof.
  intros Hne W Hdoc.
  destruct ev as [v|idx v|parsed|c files|idx files|]; simpl; auto.
  - destruct (idx <? List.length (subModuleNames s))%nat; auto.
  - destruct (nth_error (subModuleNames s) idx); auto.
  - unfold handleSubmit.
    destruct (blank (topModule s)) eqn:Et; simpl; auto.
    destruct (existsb blank (subModuleNames s)) eqn:Es; simpl; auto.
    intros doc. unfold getItem, setItem. rewrite jsstring_eqb_refl.
    intros [= <-]. eexists. split; [reflexivity|].
    split; [|apply parse_stringify, W].
    split; [exact Et|]. split; [exact Hne|].
    apply Forall_forall. intros n Hn. simpl in Hn.
    destruct (blank n) eqn:En; [|reflexivity].
    rewrite (existsb_blank_true _ _ Hn En) in Es. discriminate.
Qed.

(** X12.  Starting from a store without a package, whatever the user
    does, the document under [uploadData], when there is one, is the
    JSON text of a package whose top-module name is not blank and
    whose sub-module names are at least one and none blank, and
    [JSON.parse] reads it back as the value of that package: a
    rejected submit never leaves a partial document, and the viewer
    never finds one it cannot parse. *)
Theorem persisted_document_is_a_valid_package
  (tr : list event) (e0 : Env) (doc : jsstring) :
  getItem (js "uploadData") (localStorage e0) = None ->
  getItem (js "uploadData") (localStorage (snd (run tr (initial, e0))))
  = Some doc ->
  exists p, doc = JSON_stringify p /\ valid_package p /\
            Json.parse doc = Some (package_value p).
Proof.
  intros H0. revert doc.
  induction tr as [|ev tr IH] using rev_ind.
  - simpl. intros doc. rewrite H0. discriminate.
  - rewrite run_app. simpl.
    pose proof (count_invariant_run tr e0) as [N1 N2].
    pose proof (run_well_formed tr (initial, e0) eq_refl) as W.
    destruct (run tr (initial, e0)) as [s e]. simpl in *.
    apply document_step; [|exact W|exact IH].
    intros E. rewrite E in N2. simpl in N2. lia.
Qed.

Lemma persisted_document_is_a_valid_package_witness :
  exists p,
    JSON_stringify (mkPackage (js "ALU") [js "FSM"; js "Decoder"]
                              [(js "ALU", [(js "spec", [f1])])])
    = JSON_stringify p /\ valid_package p /\
    Json.parse (JSON_stringify (mkPackage (js "ALU") [js "FSM"; js "Decoder"]
                                          [(js "ALU", [(js "spec", [f1])])]))
    = Some (package_value p).
Proof.
  apply (persisted_document_is_a_valid_package
           [TypeTopModule (js "ALU"); ChangeNumSubModules (Some 2%Z);
            TypeSubModuleName 0 (js "FSM"); TypeSubModuleName 1 (js "Decoder");
            SelectTopFiles Spec [f1]; ClickSubmit;
            TypeTopModule []; ClickSubmit]
           env0).
  - reflexivity.
  - vm_compute. reflexivity.
Defined.

(** X13.  The document determines the names: two packages with their
    uploads in order whose JSON texts are equal have the same
    top-module name and the same sub-module names in the same order. *)
Theorem stringify_determines_names p q :
  well_formed (pk_uploads p) = true -> well_formed (pk_uploads q) = true ->
  JSON_stringify p = JSON_stringify q ->
  pk_topModule p = pk_topModule q /\ pk_subModules p = pk_subModules q.
Proof.
  intros Wp Wq E. pose proof (parse_stringify p Wp) as Hp.
  rewrite E, (parse_stringify q Wq) in Hp. unfold package_value in Hp.
  injection Hp as Ht Hs _. split; [congruence|].
  symmetry. revert Hs. generalize (pk_subModules q) as a, (pk_subModules p) as b.
  induction a as [|x a IH]; intros [|y b]; simpl; try discriminate; [reflexivity|].
  intros [= -> H]. f_equal. apply IH, H.
Qed.

Lemma stringify_determines_names_witness :
  pk_topModule (mkPackage (js "ALU") [js "FSM"] [(js "ALU", [(js "spec", [f1])])])
  = pk_topModule (mkPackage (js "ALU") [js "FSM"] [(js "ALU", [(js "spec", [mkFile (js "b.pdf") 1 2])])]) /\
  pk_subModules (mkPackage (js "ALU") [js "FSM"] [(js "ALU", [(js "spec", [f1])])])
  = pk_subModules (mkPackage (js "ALU") [js "FSM"] [(js "ALU", [(js "spec", [mkFile (js "b.pdf") 1 2])])]).
Proof.
  apply (stringify_determines_names
           (mkPackage (js "ALU") [js "FSM"] [(js "ALU", [(js "spec", [f1])])])
           (mkPackage (js "ALU") [js "FSM"] [(js "ALU", [(js "spec", [mkFile (js "b.pdf") 1 2])])])).
  - reflexivity.
  - reflexivity.
  - vm_compute. reflexivity.
Defined.

End UploadMoreFacts.

(* ================================================================== *)
(** ** The downloads *)

Module OutputsMoreFacts.
Import WindowInv ViewerMore.

Lemma combine_fst {A B} (l : list A) : forall (l' : list B),
  List.length l = List.length l' -> map fst (combine l l') = l.
Proof.
  induction l as [|a l IH]; intros [|b l']; simpl; try discriminate; auto.
  intros [= H]. f_equal. apply IH, H.
Qed.

Lemma combine_snd {A B} (l : list A) : forall (l' : list B),
  List.length l = List.length l' -> map snd (combine l l') = l'.
Proof.
  induction l as [|a l IH]; intros [|b l']; simpl; try discriminate; auto.
  intros [= H]. f_equal. apply IH, H.
Qed.

Lemma downloadFile_window content filename contentType w :
  window_ok w ->
  Outputs.downloadFile content filename contentType w =
  (Normal tt,
   mkWindow (next_url w + 1) (live w) (S (creations w)) (S (revocations w))
            (clicked w ++ [(next_url w, filename)])).
Proof.
  intros Hok. unfold Outputs.downloadFile, bindM, createObjectURL, click_link,
    revokeObjectURL. cbn [next_url live creations revocations clicked].
  do 2 f_equal.
  rewrite filter_app. simpl. rewrite N.eqb_refl. simpl. rewrite app_nil_r.
  apply forallb_filter_id. apply forallb_forall. intros [u b] Hin. simpl.
  apply Hok in Hin. apply negb_true_iff, N.eqb_neq. lia.
Qed.

Lemma downloadFile_ok content filename contentType w :
  window_ok w -> window_ok (snd (Outputs.downloadFile content filename contentType w)).
Proof.
  intros Hok. rewrite downloadFile_window by exact Hok.
  intros u b Hin. cbn in *. apply Hok in Hin. lia.
Qed.

Lemma mapM_downloads ds : forall w,
  window_ok w ->
  exists w',
    mapM (fun d => Outputs.downloadFile (fst (fst d)) (snd (fst d)) (snd d)) ds w
    = (Normal (map (fun _ => tt) ds), w') /\
    live w' = live w /\
    creations w' = (creations w + List.length ds)%nat /\
    revocations w' = (revocations w + List.length ds)%nat /\
    clicked w' =
      clicked w ++
      combine (map (fun i => next_url w + N.of_nat i)%N (seq 0 (List.length ds)))
              (map (fun d => snd (fst d)) ds) /\
    next_url w' = (next_url w + N.of_nat (List.length ds))%N /\
    window_ok w'.
Proof.
  induction ds as [|d ds IH]; intros w Hok.
  - exists w. cbn. rewrite app_nil_r, N.add_0_r, !Nat.add_0_r. repeat split; auto.
  - cbn [mapM]. unfold bindM at 1. rewrite downloadFile_window by exact Hok.
    set (w1 := mkWindow _ _ _ _ _).
    assert (Hok1 : window_ok w1).
    { intros u b Hin. cbn in *. apply Hok in Hin. lia. }
    destruct (IH w1 Hok1) as (w2 & E & L & C & V & K & X & O).
    unfold bindM. rewrite E. unfold ret. exists w2.
    cbn [map List.length].
    split; [reflexivity|]. split; [rewrite L; reflexivity|].
    split; [rewrite C; cbn; lia|]. split; [rewrite V; cbn; lia|].
    split; [|split; [rewrite X; cbn; lia | exact O]].
    rewrite K. subst w1. cbn [clicked next_url]. rewrite <- app_assoc.
    cbn [app seq map combine]. rewrite N.add_0_r. do 3 f_equal.
    rewrite <- seq_shift, map_map. apply map_ext. intros i. lia.
Qed.

(** X14.  Any number of downloads, one after the other, leave no
    object URL behind: each creates one URL, clicks one link with it
    and the file name asked for, and revokes it.  Afterwards the live
    URLs are those of before, creations and revocations have both
    grown by the number of downloads, and the links clicked are the
    downloads in order, each with a URL of its own. *)
Theorem downloads_leave_no_url
  (ds : list (jsstring * jsstring * jsstring)) (w : Window) :
  window_ok w ->
  let w' := snd (download_all ds w) in
  fst (download_all ds w) = Normal tt /\
  live w' = live w /\
  creations w' = (creations w + List.length ds)%nat /\
  revocations w' = (revocations w + List.length ds)%nat /\
  map snd (clicked w') = map snd (clicked w) ++ map (fun d => snd (fst d)) ds /\
  NoDup (map fst (skipn (List.length (clicked w)) (clicked w'))).
Proof.
  intros Hok. unfold download_all, bindM.
  destruct (mapM_downloads ds w Hok) as (w2 & E & L & C & V & K & X & O).
  rewrite E. unfold ret. cbn [fst snd]. repeat split; try assumption.
  - rewrite K, map_app. f_equal.
    rewrite combine_snd; [reflexivity|].
    now rewrite !length_map, length_seq.
  - rewrite K, skipn_app, Nat.sub_diag, skipn_all. cbn [app skipn].
    rewrite combine_fst by now rewrite !length_map, length_seq.
    apply NoDup_map_NoDup_ForallPairs; [|apply seq_NoDup].
    intros a b _ _ H. lia.
Qed.

Lemma downloads_leave_no_url_witness :
  fst (download_all [(js "module alu; endmodule", js "alu.v", js "text/plain");
                     (js "# ALU", js "alu.md", js "text/markdown")]
                    busy_window) = Normal tt /\
  live (snd (download_all [(js "module alu; endmodule", js "alu.v", js "text/plain");
                           (js "# ALU", js "alu.md", js "text/markdown")]
                          busy_window)) = live busy_window /\
  creations (snd (download_all
                    [(js "module alu; endmodule", js "alu.v", js "text/plain");
                     (js "# ALU", js "alu.md", js "text/markdown")]
                    busy_window)) = 3%nat /\
  revocations (snd (download_all
                      [(js "module alu; endmodule", js "alu.v", js "text/plain");
                       (js "# ALU", js "alu.md", js "text/markdown")]
                      busy_window)) = 2%nat.
Proof.
  destruct (downloads_leave_no_url
              [(js "module alu; endmodule", js "alu.v", js "text/plain");
               (js "# ALU", js "alu.md", js "text/markdown")]
              busy_window) as (A & B & C & D & _).
  - intros u b [H|[]]. injection H as <- _. reflexivity.
  - repeat split; assumption.
Defined.

End OutputsMoreFacts.
